(** * DNO save-file parser: a shallow embedding of [save-parser.js]

    The browser-side parser reads a [Uint8Array] holding a .NET
    BinaryFormatter stream and recovers a handful of records by scanning.
    This development embeds the functions of [save-parser.js], and the
    upload routing of the page script that calls them, as Rocq functions
    and proves properties of them.

    Conventions of the embedding.
    - A [Uint8Array] is a [list byte]; an index or offset is a [Z] (the
      JavaScript Numbers used as offsets are small integers).
    - Reading [data[i]] out of range yields [undefined]: [None] here.
    - A JavaScript exception is the [Throw] outcome; loops that the source
      writes as [while (true)] or with a data-dependent exit run on fuel,
      the fuel is fixed by the embedded function itself, and [OutOfFuel] is
      proved unreachable.
    - A JavaScript string is a Rocq [string] holding its UTF-8 encoding, so
      [===] on strings is equality and [TextEncoder.encode] is the list of
      its bytes.
    - A JavaScript Number is the rational that a binary64 value denotes, or
      an infinity or NaN; a product or a quotient is rounded to binary64,
      and [String] writes the shortest decimal that reads back. *)

From Stdlib Require Import ZArith List String Ascii Strings.Byte Bool Lia.
From Stdlib Require Import QArith Qround Qabs Qpower Lqa Sorted DecimalString.
Import ListNotations.
Open Scope string_scope.
Open Scope list_scope.
Open Scope Z_scope.

Set Implicit Arguments.

(** ** Outcomes of JavaScript computations *)

Module Js.

(** The exceptions the parser can meet: a [RangeError] raised by a
    [DataView] accessor, the [Error] that [readPrimitive] throws, and the
    [RangeError] that [toISOString] raises for a date that is not valid. *)
Inductive exn : Type :=
| RangeError
| Error (msg : string)
| InvalidDate.

(** [e.message].  The texts of the two [RangeError]s are chosen by the
    engine; these are V8's. *)
Definition message (e : exn) : string :=
  match e with
  | RangeError => "Offset is outside the bounds of the DataView"
  | Error msg => msg
  | InvalidDate => "Invalid time value"
  end.

Inductive outcome (A : Type) : Type :=
| Ok (a : A)
| Throw (e : exn)
| OutOfFuel.

Arguments Ok {A} a.
Arguments Throw {A} e.
Arguments OutOfFuel {A}.

Definition bind {A B} (c : outcome A) (k : A -> outcome B) : outcome B :=
  match c with
  | Ok a => k a
  | Throw e => Throw e
  | OutOfFuel => OutOfFuel
  end.

(** [try { c } catch (e) { h e }] *)
Definition try_catch {A} (c : outcome A) (h : exn -> outcome A) : outcome A :=
  match c with
  | Throw e => h e
  | _ => c
  end.

(** A promise, as it settles. *)
Inductive promise (A : Type) : Type :=
| Resolved (a : A)
| Rejected (e : exn).

Arguments Resolved {A} a.
Arguments Rejected {A} e.

(** [await Promise.all([p, q])].  When both reject, the reason is that of
    the one that rejects first in time; here, of the first of the two. *)
Definition await_all {A B} (p : promise A) (q : promise B) : outcome (A * B) :=
  match p, q with
  | Resolved a, Resolved b => Ok (a, b)
  | Rejected e, _ => Throw e
  | _, Rejected e => Throw e
  end.

End Js.

Import Js.

Declare Scope js_scope.
Delimit Scope js_scope with js.
Notation "x <- c ;; k" := (bind c (fun x => k))
  (at level 61, c at next level, right associativity) : js_scope.
Notation "' pat <- c ;; k" := (bind c (fun x => match x with pat => k end))
  (at level 61, pat pattern, c at next level, right associativity) : js_scope.
Open Scope js_scope.

(** ** Numbers *)

(** [ToInt32]: wrap into the signed 32-bit range. *)
Definition ToInt32 (z : Z) : Z := (z + 2 ^ 31) mod 2 ^ 32 - 2 ^ 31.

(** [a & b], [a | b] and [a << s] on Numbers that hold integers. *)
Definition js_and (a b : Z) : Z := Z.land (ToInt32 a) (ToInt32 b).
Definition js_or (a b : Z) : Z := Z.lor (ToInt32 a) (ToInt32 b).
Definition js_shl (a s : Z) : Z := ToInt32 (Z.shiftl (ToInt32 a) (s mod 32)).

(** A JavaScript Number: a finite binary64 value, kept as the exact
    rational it denotes, or one of the non-finite values.  The two zeros
    are one value here; no function of the parser tells them apart. *)
Inductive number : Type :=
| Finite (q : Q)
| Infinity (negative : bool)
| NaN.

Definition of_Z (z : Z) : number := Finite (inject_Z z).

(** ** Byte buffers *)

Definition u8 (b : byte) : Z := Z.of_N (Byte.to_N b).

Definition len (data : list byte) : Z := Z.of_nat (List.length data).

(** [data[i]]: [None] is [undefined]. *)
Definition get (data : list byte) (i : Z) : option byte :=
  if i <? 0 then None else nth_error data (Z.to_nat i).

(** The Number that a bitwise operator sees in [data[i]]:
    [undefined] converts to 0. *)
Definition int_of_elem (b : option byte) : Z :=
  match b with
  | Some b => u8 b
  | None => 0
  end.

(** [data.subarray(begin, end)]: a negative index counts from the end and
    both indices are clamped to the buffer. *)
Definition relative_index (n i : Z) : Z :=
  if i <? 0 then Z.max (n + i) 0 else Z.min i n.

Definition subarray (data : list byte) (b e : Z) : list byte :=
  let b' := relative_index (len data) b in
  let e' := relative_index (len data) e in
  firstn (Z.to_nat (Z.max (e' - b') 0)) (skipn (Z.to_nat b') data).

(** [data.indexOf(v, from)] *)
Fixpoint indexOf_from (l : list byte) (v : byte) (i : Z) : Z :=
  match l with
  | [] => -1
  | b :: l' => if Byte.eqb b v then i else indexOf_from l' v (i + 1)
  end.

Definition indexOf (data : list byte) (v : byte) (from : Z) : Z :=
  let k := if from <? 0 then Z.max (len data + from) 0 else from in
  indexOf_from (skipn (Z.to_nat k) data) v k.

(** *** DataView accessors (little-endian) *)

Fixpoint le_value (l : list byte) : Z :=
  match l with
  | [] => 0
  | b :: l' => u8 b + 256 * le_value l'
  end.

(** The [n] bytes at [off], or a [RangeError] when they are not all inside
    the view. *)
Definition view_bytes (data : list byte) (off : Z) (n : nat) : outcome (list byte) :=
  if (off <? 0) || (len data <? off + Z.of_nat n) then Throw RangeError
  else Ok (firstn n (skipn (Z.to_nat off) data)).

Definition signed (bits : Z) (z : Z) : Z :=
  if z <? 2 ^ (bits - 1) then z else z - 2 ^ bits.

Definition getUint32 (data : list byte) (off : Z) : outcome Z :=
  bs <- view_bytes data off 4 ;; Ok (le_value bs).

Definition getInt32 (data : list byte) (off : Z) : outcome Z :=
  bs <- view_bytes data off 4 ;; Ok (signed 32 (le_value bs)).

Definition getInt16 (data : list byte) (off : Z) : outcome Z :=
  bs <- view_bytes data off 2 ;; Ok (signed 16 (le_value bs)).

Definition getBigInt64 (data : list byte) (off : Z) : outcome Z :=
  bs <- view_bytes data off 8 ;; Ok (signed 64 (le_value bs)).

(** The value of an IEEE 754 binary format with [ebits] exponent bits and
    [mbits] fraction bits. *)
Definition two_power (e : Z) : Q :=
  if e <? 0 then Qmake 1 (Z.to_pos (2 ^ (- e))) else inject_Z (2 ^ e).

Definition ieee_value (ebits mbits : Z) (bits : Z) : number :=
  let m := bits mod 2 ^ mbits in
  let e := (bits / 2 ^ mbits) mod 2 ^ ebits in
  let s := Z.testbit bits (ebits + mbits) in
  let bias := 2 ^ (ebits - 1) - 1 in
  if e =? 2 ^ ebits - 1 then (if m =? 0 then Infinity s else NaN)
  else
    let mag :=
      if e =? 0 then Qmult (inject_Z m) (two_power (1 - bias - mbits))
      else Qmult (inject_Z (2 ^ mbits + m)) (two_power (e - bias - mbits)) in
    Finite (Qred (if s then Qopp mag else mag)).

Definition getFloat32 (data : list byte) (off : Z) : outcome number :=
  bs <- view_bytes data off 4 ;; Ok (ieee_value 8 23 (le_value bs)).

Definition getFloat64 (data : list byte) (off : Z) : outcome number :=
  bs <- view_bytes data off 8 ;; Ok (ieee_value 11 52 (le_value bs)).

(** [Number(bigint)]: the nearest binary64 value, ties to even. *)
Definition round_to_binary64 (z : Z) : Z :=
  let a := Z.abs z in
  let n := Z.log2 a in
  if n <? 53 then z
  else
    let sh := n - 52 in
    let q := Z.shiftr a sh in
    let r := a mod 2 ^ sh in
    let half := 2 ^ (sh - 1) in
    let q' := if (half <? r) || ((r =? half) && Z.odd q) then q + 1 else q in
    Z.sgn z * Z.shiftl q' sh.

(** *** Binary64 arithmetic *)

(** The integer [e] with [2^e <= a < 2^(e+1)], for a positive [a]. *)
Definition ilog2 (a : Q) : Z :=
  let t := Z.log2 (Qnum a) - Z.log2 (Zpos (Qden a)) in
  if Qle_bool (two_power t) a then t else t - 1.

(** The nearest integer, a tie going to the even one. *)
Definition round_half_even (x : Q) : Z :=
  let f := Qfloor x in
  match Qcompare (x - inject_Z f) (1 # 2) with
  | Lt => f
  | Gt => f + 1
  | Eq => if Z.even f then f else f + 1
  end.

(** The binary64 value nearest to the real [x], ties to even: 53
    significant bits from the exponent -1022 up, and an infinity from
    2^1024 on. *)
Definition to_binary64 (x : Q) : number :=
  if Qeq_bool x 0 then Finite 0
  else
    let a := Qabs x in
    let e := Z.max (ilog2 a) (-1022) in
    let ulp := two_power (e - 52) in
    let r := Qmult (inject_Z (round_half_even (Qdiv a ulp))) ulp in
    if Qle_bool (two_power 1024) r then Infinity (Qnum x <? 0)
    else Finite (Qred (if Qnum x <? 0 then Qopp r else r)).

(** [Math.floor(x)] *)
Definition Math_floor (x : number) : number :=
  match x with
  | Finite q => Finite (inject_Z (Qfloor q))
  | _ => x
  end.

(** [Math.round(x)]: the nearest integer, a tie going up. *)
Definition Math_round (x : number) : number :=
  match x with
  | Finite q => Finite (inject_Z (Qfloor (Qplus q (1 # 2))))
  | _ => x
  end.

(** [x * c] and [x / c] for a positive constant [c]. *)
Definition times (x : number) (c : positive) : number :=
  match x with
  | Finite q => to_binary64 (Qmult q (inject_Z (Zpos c)))
  | _ => x
  end.

Definition divided_by (x : number) (c : positive) : number :=
  match x with
  | Finite q => to_binary64 (Qdiv q (inject_Z (Zpos c)))
  | _ => x
  end.

(** [x % c] for a positive constant [c]: exact, with the sign of [x]. *)
Definition remainder (x : number) (c : positive) : number :=
  match x with
  | Finite q =>
    let d := Qdiv q (inject_Z (Zpos c)) in
    let t := if Qle_bool 0 d then Qfloor d else Qceiling d in
    Finite (Qred (Qminus q (Qmult (inject_Z t) (inject_Z (Zpos c)))))
  | _ => NaN
  end.

(** ** Text *)

(** [new TextEncoder().encode(s)] *)
Definition TextEncoder_encode (s : string) : list byte := list_byte_of_string s.

(** [new TextDecoder().decode(bytes)]: the UTF-8 decoder of the WHATWG
    Encoding Standard.  A well-formed sequence is copied, an ill-formed one
    becomes U+FFFD and the offending byte is looked at again, and a leading
    byte order mark is dropped. *)
Module Utf8.

Definition replacement : list byte := [xef; xbf; xbd].

(** A sequence under way: the bytes seen, how many more are needed and the
    range allowed for the next one. *)
Record pending : Type := {
  seen : list byte;
  needed : nat;
  lower : Z;
  upper : Z
}.

Definition between (lo z hi : Z) : bool := (lo <=? z) && (z <=? hi).

Definition lead (b : byte) : list byte * option pending :=
  let z := u8 b in
  if z <=? 0x7F then ([b], None)
  else if between 0xC2 z 0xDF then
    ([], Some {| seen := [b]; needed := 1; lower := 0x80; upper := 0xBF |})
  else if between 0xE0 z 0xEF then
    ([], Some {| seen := [b]; needed := 2;
                 lower := if z =? 0xE0 then 0xA0 else 0x80;
                 upper := if z =? 0xED then 0x9F else 0xBF |})
  else if between 0xF0 z 0xF4 then
    ([], Some {| seen := [b]; needed := 3;
                 lower := if z =? 0xF0 then 0x90 else 0x80;
                 upper := if z =? 0xF4 then 0x8F else 0xBF |})
  else (replacement, None).

Fixpoint run (l : list byte) (st : option pending) : list byte :=
  match l with
  | [] => match st with None => [] | Some _ => replacement end
  | b :: l' =>
    match st with
    | None => let (out, st') := lead b in out ++ run l' st'
    | Some p =>
      if between (lower p) (u8 b) (upper p) then
        match needed p with
        | O | S O => (seen p ++ [b]) ++ run l' None
        | S n =>
          run l' (Some {| seen := seen p ++ [b]; needed := n;
                          lower := 0x80; upper := 0xBF |})
        end
      else
        let (out, st') := lead b in replacement ++ out ++ run l' st'
    end
  end.

Definition strip_bom (l : list byte) : list byte :=
  match l with
  | xef :: xbb :: xbf :: l' => l'
  | _ => l
  end.

Definition decode (l : list byte) : string :=
  string_of_list_byte (run (strip_bom l) None).

End Utf8.

Definition TextDecoder_decode (bytes : list byte) : string := Utf8.decode bytes.

(** [s.endsWith(suffix)] *)
Definition endsWith (s suffix : string) : bool :=
  let n := String.length s in
  let k := String.length suffix in
  (k <=? n)%nat && String.eqb (substring (n - k) k s) suffix.

(** [String(n)] for an integer. *)
Definition String_of_Z (z : Z) : string := NilZero.string_of_int (Z.to_int z).

(** [s.padStart(n, c)] *)
Definition padStart (s : string) (n : nat) (c : ascii) : string :=
  (string_of_list_ascii (repeat c (n - String.length s)) ++ s)%string.

(** *** Number to string *)

Definition ten_power (e : Z) : Q :=
  if e <? 0 then Qmake 1 (Z.to_pos (10 ^ (- e))) else inject_Z (10 ^ e).

(** The [n] with [10^(n-1) <= a < 10^n], for a positive binary64 [a]:
    counted up from 1 when [a] is 1 or more, and down from 0 when not. *)
Fixpoint exponent_up (fuel : nat) (a : Q) (n : Z) : Z :=
  match fuel with
  | O => n
  | S fuel' => if Qle_bool (ten_power n) a then exponent_up fuel' a (n + 1) else n
  end.

Fixpoint exponent_down (fuel : nat) (a : Q) (n : Z) : Z :=
  match fuel with
  | O => n
  | S fuel' => if Qle_bool (ten_power (n - 1)) a then n else exponent_down fuel' a (n - 1)
  end.

Definition decimal_exponent (a : Q) : Z :=
  if Qle_bool 1 a then exponent_up 400 a 1 else exponent_down 400 a 0.

Definition same_number (x y : number) : bool :=
  match x, y with
  | Finite p, Finite q => Qeq_bool p q
  | Infinity s, Infinity t => Bool.eqb s t
  | _, _ => false
  end.

(** The digits [s], [k] of them, of the shortest decimal [s * 10^(n-k)]
    that reads back as [a]; of two with the same number of digits, the one
    nearer to [a].  Seventeen digits always read back. *)
Fixpoint shortest_digits (fuel : nat) (a : Q) (n k : Z) : Z * Z :=
  let scale := ten_power (n - k) in
  let lo := Qfloor (Qdiv a scale) in
  let hi := lo + 1 in
  let reads_back s := same_number (to_binary64 (Qmult (inject_Z s) scale)) (Finite a) in
  let nearer_hi :=
    Qle_bool (Qminus (Qmult (inject_Z hi) scale) a) (Qminus a (Qmult (inject_Z lo) scale)) in
  match fuel with
  | O => (lo, k)
  | S fuel' =>
    if reads_back lo && negb (reads_back hi && (hi <? 10 ^ k) && nearer_hi) then (lo, k)
    else if reads_back hi && (hi <? 10 ^ k) then (hi, k)
    else shortest_digits fuel' a n (k + 1)
  end.

Definition zeros (n : Z) : string := string_of_list_ascii (repeat "0"%char (Z.to_nat n)).

(** [Number::toString] in radix 10 for a positive binary64 [a]. *)
Definition positive_to_string (a : Q) : string :=
  let n0 := decimal_exponent a in
  let '(s, k, n) :=
    if same_number (to_binary64 (ten_power n0)) (Finite a) then (1, 1, n0 + 1)
    else let '(s, k) := shortest_digits 17 a n0 1 in (s, k, n0) in
  let digits := String_of_Z s in
  let e := n - 1 in
  let sign := if e <? 0 then "-" else "+" in
  let exponent := (sign ++ String_of_Z (Z.abs e))%string in
  if (k <=? n) && (n <=? 21) then (digits ++ zeros (n - k))%string
  else if (0 <? n) && (n <=? 21) then
    (substring 0 (Z.to_nat n) digits ++ "."
       ++ substring (Z.to_nat n) (Z.to_nat (k - n)) digits)%string
  else if (-6 <? n) && (n <=? 0) then ("0." ++ zeros (- n) ++ digits)%string
  else if k =? 1 then (digits ++ "e" ++ exponent)%string
  else (substring 0 1 digits ++ "." ++ substring 1 (Z.to_nat (k - 1)) digits
          ++ "e" ++ exponent)%string.

(** [String(x)].  An integer below 2^53 is its own shortest decimal. *)
Definition String_of_number (x : number) : string :=
  match x with
  | NaN => "NaN"
  | Infinity negative => if negative then "-Infinity" else "Infinity"
  | Finite q =>
    if Qeq_bool q 0 then "0"
    else if Qeq_bool q (inject_Z (Qfloor q)) && (Z.abs (Qfloor q) <? 2 ^ 53)
    then String_of_Z (Qfloor q)
    else
      let sign := if Qnum q <? 0 then "-" else "" in
      (sign ++ positive_to_string (Qabs q))%string
  end.

(** *** Dates *)

(** The year, month and day of the day number [days], counted from
    1970-01-01 in the proleptic Gregorian calendar. *)
Definition civil_from_days (days : Z) : Z * Z * Z :=
  let z := days + 719468 in
  let era := z / 146097 in
  let doe := z - era * 146097 in
  let yoe := (doe - doe / 1460 + doe / 36524 - doe / 146096) / 365 in
  let doy := doe - (365 * yoe + yoe / 4 - yoe / 100) in
  let mp := (5 * doy + 2) / 153 in
  let d := doy - (153 * mp + 2) / 5 + 1 in
  let m := if mp <? 10 then mp + 3 else mp - 9 in
  let y := yoe + era * 400 + (if m <=? 2 then 1 else 0) in
  (y, m, d).

Definition pad (n : nat) (z : Z) : string := padStart (String_of_Z z) n "0".

(** A time value is valid up to 8.64e15 milliseconds either side of the
    epoch. *)
Definition valid_time (t : Z) : bool := Z.abs t <=? 8640000000000000.

(** [new Date(t).toISOString()] for an integer [t] of milliseconds. *)
Definition toISOString (t : Z) : outcome string :=
  if negb (valid_time t) then Throw InvalidDate
  else
    let '(y, m, d) := civil_from_days (t / 86400000) in
    let ms := t mod 86400000 in
    let sign := if y <? 0 then "-" else "+" in
    let year :=
      if (0 <=? y) && (y <=? 9999) then pad 4 y
      else (sign ++ pad 6 (Z.abs y))%string in
    Ok (year ++ "-" ++ pad 2 m ++ "-" ++ pad 2 d ++ "T"
          ++ pad 2 (ms / 3600000) ++ ":" ++ pad 2 (ms / 60000 mod 60) ++ ":"
          ++ pad 2 (ms / 1000 mod 60) ++ "." ++ pad 3 (ms mod 1000) ++ "Z")%string.

(** ** Constants *)

(** BinaryFormatter type tags *)
Definition TAG_PRIMITIVE : Z := 0.
Definition TAG_STRING : Z := 1.
Definition TAG_SYSTEM_CLASS : Z := 3.
Definition TAG_CLASS : Z := 4.
Definition TAG_PRIMITIVE_ARRAY : Z := 7.

(** .NET primitive type codes *)
Definition PRIM_BOOLEAN : Z := 1.
Definition PRIM_BYTE : Z := 2.
Definition PRIM_INT16 : Z := 7.
Definition PRIM_INT32 : Z := 8.
Definition PRIM_INT64 : Z := 9.
Definition PRIM_SINGLE : Z := 11.
Definition PRIM_DOUBLE : Z := 6.

(** [DIFFICULTY_NAMES[id]]: [None] is [undefined]. *)
Definition DIFFICULTY_NAMES (id : Z) : option string :=
  match id with
  | 0 => Some "Easy"
  | 1 => Some "Normal"
  | 2 => Some "Hard"
  | 3 => Some "Brutal"
  | 4 => Some "Impossible"
  | _ => None
  end.

(** ** Core binary primitives *)

(** What a read returns: [{ value, offset }]. *)
Record Read (A : Type) : Type := mkRead { value : A; offset : Z }.

(** One round of the loop of [parse7BitInt] reads [data[offset++]], so the
    loop leaves after at most [len data + 1] rounds counted from a
    non-negative offset, and after one round from a negative one. *)
Fixpoint parse7BitInt_loop (fuel : nat) (data : list byte) (result shift off : Z)
  : outcome (Read Z) :=
  match fuel with
  | O => OutOfFuel
  | S fuel' =>
    let b := int_of_elem (get data off) in
    let off := off + 1 in
    let result := js_or result (js_shl (js_and b 0x7F) shift) in
    let shift := shift + 7 in
    if js_and b 0x80 =? 0 then Ok {| value := result; offset := off |}
    else parse7BitInt_loop fuel' data result shift off
  end.

Definition parse7BitInt (data : list byte) (off : Z) : outcome (Read Z) :=
  parse7BitInt_loop (S (List.length data)) data 0 0 off.

Definition parseBfString (data : list byte) (off : Z) : outcome (Read string) :=
  len <- parse7BitInt data off ;;
  let off := offset len in
  let str := TextDecoder_decode (subarray data off (off + value len)) in
  Ok {| value := str; offset := off + value len |}.

(** The values a decoded field can hold. *)
Inductive jsval : Type :=
| Undefined
| Boolean (b : bool)
| Number (n : number).

Definition elem_val (b : option byte) : jsval :=
  match b with
  | Some b => Number (of_Z (u8 b))
  | None => Undefined
  end.

(** [primType] is an element of [primTypes]: a byte, or [undefined] when it
    was read past the end of the buffer. *)
Definition readPrimitive (data : list byte) (off : Z) (primType : option byte)
  : outcome (Read jsval) :=
  let code := match primType with Some p => u8 p | None => -1 end in
  if code =? PRIM_BOOLEAN then
    Ok {| value := Boolean (negb (match get data off with
                                  | Some b => u8 b =? 0
                                  | None => false
                                  end));
          offset := off + 1 |}
  else if code =? PRIM_BYTE then
    Ok {| value := elem_val (get data off); offset := off + 1 |}
  else if code =? PRIM_INT16 then
    v <- getInt16 data off ;; Ok {| value := Number (of_Z v); offset := off + 2 |}
  else if code =? PRIM_INT32 then
    v <- getInt32 data off ;; Ok {| value := Number (of_Z v); offset := off + 4 |}
  else if code =? PRIM_INT64 then
    v <- getBigInt64 data off ;;
    Ok {| value := Number (of_Z (round_to_binary64 v)); offset := off + 8 |}
  else if code =? PRIM_SINGLE then
    v <- getFloat32 data off ;; Ok {| value := Number v; offset := off + 4 |}
  else if code =? PRIM_DOUBLE then
    v <- getFloat64 data off ;; Ok {| value := Number v; offset := off + 8 |}
  else
    Throw (Error ("Unknown primitive type: " ++
                  match primType with
                  | Some p => String_of_Z (u8 p)
                  | None => "undefined"
                  end)).

(** ** Byte search *)

(** [data[i + j] !== needle[j]] for no [j]: the needle sits at [i]. *)
Fixpoint matches_at (data needle : list byte) (i : Z) : bool :=
  match needle with
  | [] => true
  | c :: needle' =>
    match get data i with
    | Some b => Byte.eqb b c && matches_at data needle' (i + 1)
    | None => false
    end
  end.

(** [n] rounds of the outer loop of [findBytes], from index [i]. *)
Fixpoint findBytes_from (n : nat) (data needle : list byte) (i : Z) : Z :=
  match n with
  | O => -1
  | S n' => if matches_at data needle i then i
            else findBytes_from n' data needle (i + 1)
  end.

(** The outer loop runs for [start <= i <= data.length - needle.length]. *)
Definition findBytes (data needle : list byte) (start : Z) : Z :=
  findBytes_from (Z.to_nat (len data - len needle - start + 1)) data needle start.

(** ** Class finder *)

Record ClassDefinition : Type := {
  className : string;
  memberCount : Z;
  memberNames : list string;
  typeTags : list (option byte);
  primTypes : list (option byte);
  dataOffset : Z;
  objectId : Z
}.

(** [tag === t] for an element of [typeTags]. *)
Definition tag_is (tag : option byte) (t : Z) : bool :=
  match tag with
  | Some b => u8 b =? t
  | None => false
  end.

(** The loop that reads the member names, [n] rounds from [off]. *)
Fixpoint readMemberNames (n : nat) (data : list byte) (off : Z) (members : list string)
  : outcome (list string * Z) :=
  match n with
  | O => Ok (members, off)
  | S n' =>
    name <- parseBfString data off ;;
    readMemberNames n' data (offset name) (members ++ [value name])
  end.

(** The loop that reads one tag byte per member. *)
Fixpoint readTypeTags (n : nat) (data : list byte) (off : Z) (tags : list (option byte))
  : list (option byte) * Z :=
  match n with
  | O => (tags, off)
  | S n' => readTypeTags n' data (off + 1) (tags ++ [get data off])
  end.

(** The loop that reads the additional type information of each tag;
    [primTypes] starts filled with 0. *)
Fixpoint readTypeInfo (tags : list (option byte)) (data : list byte) (off : Z)
    (prims : list (option byte)) : outcome (list (option byte) * Z) :=
  match tags with
  | [] => Ok (prims, off)
  | tag :: tags' =>
    if tag_is tag TAG_PRIMITIVE then
      readTypeInfo tags' data (off + 1) (prims ++ [get data off])
    else if tag_is tag TAG_CLASS then
      s <- parseBfString data off ;;
      readTypeInfo tags' data (offset s + 4) (prims ++ [Some x00])
    else if tag_is tag TAG_SYSTEM_CLASS then
      s <- parseBfString data off ;;
      readTypeInfo tags' data (offset s) (prims ++ [Some x00])
    else if tag_is tag TAG_PRIMITIVE_ARRAY then
      readTypeInfo tags' data (off + 1) (prims ++ [get data off])
    else
      readTypeInfo tags' data off (prims ++ [Some x00])
  end.

(** One round of the back-walk at [testPos]: the object id when the string
    that starts there ends with the class name.  An exception in the round
    is swallowed by its own [try]. *)
Definition backWalk_round (data : list byte) (className : string) (testPos : Z)
  : outcome (option Z) :=
  try_catch
    (testLen <- parse7BitInt data testPos ;;
     let e := offset testLen in
     if e + value testLen <=? len data then
       let fullStr := TextDecoder_decode (subarray data e (e + value testLen)) in
       if endsWith fullStr className then
         id <- getUint32 data (testPos - 4) ;; Ok (Some id)
       else Ok None
     else Ok None)
    (fun _ => Ok None).

(** [n] rounds of [while (testPos >= limit)], walking down from [testPos];
    the object id stays 0 when no round finds one. *)
Fixpoint backWalk (n : nat) (data : list byte) (className : string) (testPos : Z)
  : outcome Z :=
  match n with
  | O => Ok 0
  | S n' =>
    r <- backWalk_round data className testPos ;;
    match r with
    | Some id => Ok id
    | None => backWalk n' data className (testPos - 1)
    end
  end.

Definition findObjectId (data : list byte) (className : string) (pos : Z) : outcome Z :=
  try_catch
    (let testPos := pos - 1 in
     let limit := Z.max (pos - 50) 0 in
     backWalk (Z.to_nat (testPos - limit + 1)) data className testPos)
    (fun _ => Ok 0).

(** [expectedFields[0]] is [undefined] for an empty list, which no string
    equals. *)
Definition same_string (s : string) (o : option string) : bool :=
  match o with
  | Some t => String.eqb s t
  | None => false
  end.

(** The body of the [try] block at the candidate [pos]: [Ok (Some cdef)] is
    the [return], [Ok None] is [pos++; continue]. *)
Definition candidate (data : list byte) (className : string)
    (expectedFields : list string) (pos : Z) : outcome (option ClassDefinition) :=
  let after := pos + len (TextEncoder_encode className) in
  mc <- getUint32 data after ;;
  if negb (mc =? Z.of_nat (List.length expectedFields)) then Ok None else
  let testOffset := after + 4 in
  firstName <- parseBfString data testOffset ;;
  if negb (same_string (value firstName) (nth_error expectedFields 0)) then Ok None else
  ' (members, off) <- readMemberNames (Z.to_nat mc) data (after + 4) [] ;;
  let '(tags, off) := readTypeTags (Z.to_nat mc) data off [] in
  ' (prims, off) <- readTypeInfo tags data off [] ;;
  let off := off + 4 in
  objectId <- findObjectId data className pos ;;
  Ok (Some {| className := className; memberCount := mc; memberNames := members;
              typeTags := tags; primTypes := prims; dataOffset := off;
              objectId := objectId |}).

(** The [while (true)] loop of [findClassDefinition].  Every round moves
    [pos] past the candidate it looked at. *)
Fixpoint findClassDefinition_loop (fuel : nat) (data : list byte) (className : string)
    (expectedFields : list string) (pos : Z) : outcome (option ClassDefinition) :=
  match fuel with
  | O => OutOfFuel
  | S fuel' =>
    let pos := findBytes data (TextEncoder_encode className) pos in
    if pos =? -1 then Ok None
    else
      match candidate data className expectedFields pos with
      | Ok (Some cdef) => Ok (Some cdef)
      | Ok None | Throw _ =>
        findClassDefinition_loop fuel' data className expectedFields (pos + 1)
      | OutOfFuel => OutOfFuel
      end
  end.

Definition findClassDefinition (data : list byte) (className : string)
    (expectedFields : list string) (start : Z) : outcome (option ClassDefinition) :=
  findClassDefinition_loop (S (Z.to_nat (len data + 1 - start)))
    data className expectedFields start.

(** ** Back-references *)

(** The [while (pos < data.length - 9)] loop of [findClassIdInstance]. *)
Fixpoint findClassIdInstance_loop (fuel : nat) (data : list byte) (metadataId : Z)
    (pos : Z) : outcome (option Z) :=
  match fuel with
  | O => OutOfFuel
  | S fuel' =>
    if pos <? len data - 9 then
      let pos := indexOf data x01 pos in
      if pos =? -1 then Ok None
      else
        found <-
          (if pos + 9 <=? len data then
             candidateMeta <- getUint32 data (pos + 5) ;;
             Ok (candidateMeta =? metadataId)
           else Ok false) ;;
        if (found : bool) then Ok (Some (pos + 9))
        else findClassIdInstance_loop fuel' data metadataId (pos + 1)
    else Ok None
  end.

Definition findClassIdInstance (data : list byte) (metadataId : Z) (start : Z)
  : outcome (option Z) :=
  findClassIdInstance_loop (S (List.length data)) data metadataId start.

(** The [while (true)] loop of [findAllClassIdInstances]. *)
Fixpoint findAllClassIdInstances_loop (fuel : nat) (data : list byte) (metadataId : Z)
    (pos : Z) (results : list Z) : outcome (list Z) :=
  match fuel with
  | O => OutOfFuel
  | S fuel' =>
    o <- findClassIdInstance data metadataId pos ;;
    match o with
    | None => Ok results
    | Some off =>
      findAllClassIdInstances_loop fuel' data metadataId off (results ++ [off])
    end
  end.

Definition findAllClassIdInstances (data : list byte) (metadataId : Z) (start : Z)
  : outcome (list Z) :=
  findAllClassIdInstances_loop (S (S (List.length data))) data metadataId start [].

(** ** Extraction functions *)

(** A plain object with string keys, in the order in which JavaScript
    lists them: the array indices in ascending order, then the other keys
    in insertion order. *)
Definition object (A : Type) : Type := list (string * A).

(** [o[key] = v] for a primitive [v] and a key that is not an array index:
    an existing key keeps its place, a new one goes last, and the key
    [__proto__] names the prototype slot, where a primitive is ignored.
    The decoders with fixed field lists set their keys with it. *)
Fixpoint assign {A} (o : object A) (key : string) (v : A) : object A :=
  match o with
  | [] => [(key, v)]
  | (k, w) :: o' =>
    if String.eqb k key then (k, v) :: o' else (k, w) :: assign o' key v
  end.

Definition set_property {A} (o : object A) (key : string) (v : A) : object A :=
  if String.eqb key "__proto__" then o else assign o key v.

(** [o.key]: [None] is [undefined]. *)
Fixpoint property {A} (o : object A) (key : string) : option A :=
  match o with
  | [] => None
  | (k, w) :: o' => if String.eqb k key then Some w else property o' key
  end.

(** An array index: the canonical numeral of an integer from 0 to
    2^32 - 2. *)
Definition array_index (key : string) : option Z :=
  match NilEmpty.uint_of_string key with
  | Some u =>
    let n := Z.of_uint u in
    if String.eqb (String_of_Z n) key && (n <? 2 ^ 32 - 1) then Some n else None
  | None => None
  end.

(** A new array index goes before the first key that is a larger index or
    no index. *)
Fixpoint insert_index {A} (o : object A) (n : Z) (key : string) (v : A) : object A :=
  match o with
  | [] => [(key, v)]
  | (k, w) :: o' =>
    match array_index k with
    | Some m => if m <? n then (k, w) :: insert_index o' n key v else (key, v) :: o
    | None => (key, v) :: o
    end
  end.

(** [o[key] = v] for a primitive [v] and any key. *)
Definition set_any_property {A} (o : object A) (key : string) (v : A) : object A :=
  match property o key, array_index key with
  | None, Some n => insert_index o n key v
  | _, _ => set_property o key v
  end.

(** [l[i]] for an array of bytes that may hold [undefined]. *)
Definition at_index (l : list (option byte)) (i : nat) : option byte :=
  match nth_error l i with
  | Some x => x
  | None => None
  end.

(** [a || b] for a string or [undefined] on the left. *)
Definition or_else (a : option string) (b : string) : string :=
  match a with
  | Some EmptyString | None => b
  | Some s => s
  end.

Record Header : Type := {
  saveVersion : Z;
  missionId : Z;
  missionIdName : option string;
  difficultyId : Z;
  difficultyName : string
}.

Definition extractHeader (datData : list byte) : outcome (option Header) :=
  let expected :=
    ["saveVersion"; "missionId"; "difficultyId"; "profileData";
     "specialHeaderValue"; "customMapName"; "completedCampaignLinks"] in
  cdef <- findClassDefinition datData "ProfileSaveHeader" expected 0 ;;
  cdef <- match cdef with
          | Some _ => Ok cdef
          | None => findClassDefinition datData "UI.ProfileSaveHeader" expected 0
          end ;;
  match cdef with
  | None => Ok None
  | Some cdef =>
    let off := dataOffset cdef in
    saveVersion <- getInt32 datData off ;;
    let off := off + 4 in
    missionId <- getInt32 datData off ;;
    let off := off + 4 in
    difficultyId <- getInt32 datData off ;;
    Ok (Some {| saveVersion := saveVersion;
                missionId := missionId;
                missionIdName := None;
                difficultyId := difficultyId;
                difficultyName :=
                  or_else (DIFFICULTY_NAMES difficultyId)
                          ("Unknown(" ++ String_of_Z difficultyId ++ ")") |})
  end.

Definition extractKilledEnemies (data : list byte) : outcome (option Z) :=
  cdef <- findClassDefinition data "KilledEnemiesCounterSingleton" ["value"] 0 ;;
  match cdef with
  | None => Ok None
  | Some cdef => v <- getInt32 data (dataOffset cdef) ;; Ok (Some v)
  end.

(** ** Helpers *)

(** Every operation is the binary64 one: the quotients are rounded
    before [Math.floor] sees them. *)
Definition formatDuration (seconds : number) : string :=
  let total := Math_floor seconds in
  let h := Math_floor (divided_by total 3600) in
  let m := Math_floor (divided_by (remainder total 3600) 60) in
  let s := remainder total 60 in
  (String_of_number h ++ ":" ++ padStart (String_of_number m) 2 "0" ++ ":"
     ++ padStart (String_of_number s) 2 "0")%string.

(** [Math.round(x * 10) / 10] *)
Definition round_tenths (x : number) : number :=
  divided_by (Math_round (times x 10)) 10.

Record SessionTime : Type := {
  gameSeconds : number;
  realSeconds : number;
  gameFormatted : string;
  realFormatted : string
}.

Definition extractSessionTime (data : list byte) : outcome (option SessionTime) :=
  let expected :=
    ["nightIntensity"; "elapsedTime"; "elapsedTimeUnscaled";
     "previousFrameElapsedTime"; "timeSpeed"; "lastTimeSpeed"; "dirty"] in
  cdef <- findClassDefinition data "CurrentSessionTimeSingleton" expected 0 ;;
  match cdef with
  | None => Ok None
  | Some cdef =>
    let off := dataOffset cdef in
    let off := off + 4 in
    elapsedTime <- getFloat32 data off ;;
    let off := off + 4 in
    elapsedTimeUnscaled <- getFloat32 data off ;;
    Ok (Some {| gameSeconds := round_tenths elapsedTime;
                realSeconds := round_tenths elapsedTimeUnscaled;
                gameFormatted := formatDuration elapsedTime;
                realFormatted := formatDuration elapsedTimeUnscaled |})
  end.

(** [for (const name of expected) { day[name] = dv.getInt32(offset, true);
    offset += 4; }] *)
Fixpoint readDay (names : list string) (data : list byte) (off : Z) (day : object Z)
  : outcome (object Z * Z) :=
  match names with
  | [] => Ok (day, off)
  | name :: names' =>
    v <- getInt32 data off ;;
    readDay names' data (off + 4) (set_property day name v)
  end.

Record Resources : Type := {
  currentDay : object Z;
  lastDay : option (object Z)
}.

(** [extractResources] and [extractUndeadResources] have the same body, up
    to the class name and the field list. *)
Definition extractLedger (className : string) (expected : list string)
    (data : list byte) : outcome (option Resources) :=
  cdef <- findClassDefinition data className expected 0 ;;
  match cdef with
  | None => Ok None
  | Some cdef =>
    ' (currentDay, off) <- readDay expected data (dataOffset cdef) [] ;;
    lastDay <-
      (if negb (objectId cdef =? 0) then
         cidOffset <- findClassIdInstance data (objectId cdef) off ;;
         match cidOffset with
         | Some cidOffset =>
           ' (lastDay, _) <- readDay expected data cidOffset [] ;; Ok (Some lastDay)
         | None => Ok None
         end
       else Ok None) ;;
    Ok (Some {| currentDay := currentDay; lastDay := lastDay |})
  end.

Definition extractResources : list byte -> outcome (option Resources) :=
  extractLedger "ResourcesStatisticContainer"
    ["foodByFarms"; "foodByFishers"; "foodByBerrypickers"; "wood";
     "treesCutted"; "treesPlanted"; "stone"; "iron";
     "woodConsuming"; "ironConsuming"].

Definition extractUndeadResources : list byte -> outcome (option Resources) :=
  extractLedger "UndeadResourcesStatisticContainer"
    ["zombiesByBurial"; "zombiesByCorpses"; "deathMetal"; "spirit"; "bones"].

(** The field loop of [extractAchievements]: [n] rounds from index [i],
    leaving at the first tag that is not [TAG_PRIMITIVE]. *)
Fixpoint readFields (n : nat) (names : list string) (cdef : ClassDefinition)
    (data : list byte) (i : nat) (off : Z) (result : object jsval)
  : outcome (object jsval) :=
  match n with
  | O => Ok result
  | S n' =>
    let tag := at_index (typeTags cdef) i in
    if negb (tag_is tag TAG_PRIMITIVE) then Ok result
    else
      let prim := at_index (primTypes cdef) i in
      r <- readPrimitive data off prim ;;
      readFields n' names cdef data (S i) (offset r)
        (set_property result (nth i names "undefined") (value r))
  end.

Definition achievements_expected : list string :=
  ["gatheredGold"; "lastGold"; "siegeMachineWasTrained";
   "powerUndeadUnitsWasTrained"; "portsDestroyed";
   "marketPartsDestroyed"; "trainedUnitTypes"].

Definition extractAchievements (data : list byte) : outcome (option (object jsval)) :=
  let expected := achievements_expected in
  cdef <- findClassDefinition data "AchievementsSaveData" expected 0 ;;
  match cdef with
  | None => Ok None
  | Some cdef =>
    result <- readFields (List.length expected) expected cdef data 0 (dataOffset cdef) [] ;;
    Ok (Some result)
  end.

(** The field loop of [readWaveFields]: the same rounds, with the keys
    taken from the definition, which has them from the buffer. *)
Fixpoint readWaveFields_loop (n : nat) (cdef : ClassDefinition)
    (data : list byte) (i : nat) (off : Z) (wave : object jsval)
  : outcome (object jsval) :=
  match n with
  | O => Ok wave
  | S n' =>
    let tag := at_index (typeTags cdef) i in
    if negb (tag_is tag TAG_PRIMITIVE) then Ok wave
    else
      let prim := at_index (primTypes cdef) i in
      r <- readPrimitive data off prim ;;
      readWaveFields_loop n' cdef data (S i) (offset r)
        (set_any_property wave (nth i (memberNames cdef) "undefined") (value r))
  end.

(** [null] when a field cannot be read. *)
Definition readWaveFields (data : list byte) (off : Z) (cdef : ClassDefinition)
  : outcome (option (object jsval)) :=
  try_catch
    (wave <- readWaveFields_loop (List.length (memberNames cdef)) cdef data 0 off [] ;;
     Ok (Some wave))
    (fun _ => Ok None).

(** Truthiness of a field value. *)
Definition truthy (v : option jsval) : bool :=
  match v with
  | Some (Boolean b) => b
  | Some (Number (Finite q)) => negb (Qeq_bool q 0)
  | Some (Number (Infinity _)) => true
  | Some (Number NaN) | Some Undefined | None => false
  end.

(** [if (wave) waves.push(wave)] *)
Definition push_wave (waves : list (object jsval)) (wave : option (object jsval))
  : list (object jsval) :=
  match wave with
  | Some w => waves ++ [w]
  | None => waves
  end.

(** [for (const cidOffset of offsets) { ... }] *)
Fixpoint readWaves (offsets : list Z) (data : list byte) (cdef : ClassDefinition)
    (waves : list (object jsval)) : outcome (list (object jsval)) :=
  match offsets with
  | [] => Ok waves
  | cidOffset :: offsets' =>
    wave <- readWaveFields data cidOffset cdef ;;
    readWaves offsets' data cdef (push_wave waves wave)
  end.

(** The array [waves] that [extractWaves] builds for a located
    definition. *)
Definition collectWaves (data : list byte) (cdef : ClassDefinition)
  : outcome (list (object jsval)) :=
  first <- readWaveFields data (dataOffset cdef) cdef ;;
  let waves := push_wave [] first in
  if negb (objectId cdef =? 0) then
    offsets <- findAllClassIdInstances data (objectId cdef) (dataOffset cdef) ;;
    readWaves offsets data cdef waves
  else Ok waves.

Record Waves : Type := {
  total : Z;
  destroyed : Z;
  majorWaves : Z;
  details : list (object jsval)
}.

Definition count (l : list (object jsval)) : Z := Z.of_nat (List.length l).

Definition waves_expected : list string :=
  ["referenceId"; "waveId"; "mapped"; "fullySpawned"; "waveDestroyed"; "major"].

Definition extractWaves (data : list byte) : outcome (option Waves) :=
  let expected := waves_expected in
  cdef <- findClassDefinition data "WaveHolderSaveData" expected 0 ;;
  match cdef with
  | None => Ok None
  | Some cdef =>
    waves <- collectWaves data cdef ;;
    if count waves =? 0 then Ok None
    else
      Ok (Some {| total := count waves;
                  destroyed :=
                    count (filter (fun w => truthy (property w "waveDestroyed")) waves);
                  majorWaves := count (filter (fun w => truthy (property w "major")) waves);
                  details := waves |})
  end.

(** ** Main entry point *)

(** What [parseSaveFiles] uses of a [File]: its name, size and modification
    time in milliseconds, and the promise of its bytes that [arrayBuffer()]
    returns. *)
Record File : Type := {
  name : string;
  size : Z;
  lastModified : Z;
  arrayBuffer : promise (list byte)
}.

(** An absent key is [None]. *)
Record Statistics : Type := {
  stat_enemiesKilled : option Z;
  stat_sessionTime : option SessionTime;
  stat_resources : option Resources;
  stat_undeadResources : option Resources;
  stat_achievements : option (object jsval);
  stat_waves : option Waves
}.

Record SaveEntry : Type := {
  fileName : string;
  fileSize : Z;
  entry_lastModified : string;
  statistics : Statistics;
  header : option Header;
  errors : option (list string)
}.

Record ProfileData : Type := {
  completedMissionsData : list unit;
  campaignProfiles : list unit
}.

Record Profile : Type := {
  profile_name : string;
  isActive : bool;
  profileData : ProfileData;
  saves : list SaveEntry
}.

Record Report : Type := {
  extractorVersion : string;
  extractedAt : string;
  missionMap : option unit;
  profiles : list Profile
}.

(** [try { x = decoder(...); } catch (e) { errors.push(tag + e.message); }]
    with [x] and [errors] threaded: [x] starts as [null]. *)
Definition attempt {A} (tag : string) (decoder : outcome (option A)) (errs : list string)
  : outcome (option A * list string) :=
  try_catch
    (x <- decoder ;; Ok (x, errs))
    (fun e => Ok (None, errs ++ [(tag ++ message e)%string])).

(** [now] is the clock reading of [new Date()], in milliseconds. *)
Definition parseSaveFiles (now : Z) (saveFile datFile : File) : outcome Report :=
  ' (saveData, datData) <- await_all (arrayBuffer saveFile) (arrayBuffer datFile) ;;
  let errs := [] in
  ' (header, errs) <- attempt "header: " (extractHeader datData) errs ;;
  ' (enemiesKilled, errs) <- attempt "enemiesKilled: " (extractKilledEnemies saveData) errs ;;
  ' (sessionTime, errs) <- attempt "sessionTime: " (extractSessionTime saveData) errs ;;
  ' (resources, errs) <- attempt "resources: " (extractResources saveData) errs ;;
  ' (undeadResources, errs) <-
      attempt "undeadResources: " (extractUndeadResources saveData) errs ;;
  ' (achievements, errs) <- attempt "achievements: " (extractAchievements saveData) errs ;;
  ' (waves, errs) <- attempt "waves: " (extractWaves saveData) errs ;;
  let statistics :=
    {| stat_enemiesKilled := enemiesKilled;
       stat_sessionTime := sessionTime;
       stat_resources := resources;
       stat_undeadResources := undeadResources;
       stat_achievements := achievements;
       stat_waves := waves |} in
  modified <- toISOString (lastModified saveFile) ;;
  let saveEntry :=
    {| fileName := name saveFile;
       fileSize := size saveFile;
       entry_lastModified := modified;
       statistics := statistics;
       header := header;
       errors := match errs with [] => None | _ => Some errs end |} in
  extracted <- toISOString now ;;
  Ok {| extractorVersion := "browser-1.0";
        extractedAt := extracted;
        missionMap := None;
        profiles :=
          [{| profile_name := "Uploaded Save";
              isActive := true;
              profileData := {| completedMissionsData := []; campaignProfiles := [] |};
              saves := [saveEntry] |}] |}.


(** ** Upload routing

    [handleFiles] of the page script decides from the names of the dropped
    files what to do with them.  What it does is one call after
    [hideError()]: the calls are recorded in order. *)

Inductive Call : Type :=
| hideError
| handleJsonFile (file : File)
| handleSaveFiles (saveFile datFile : File)
| showError (title message : string).

Definition handleFiles (files : list File) : list Call :=
  let unrecognized :=
    [showError "Unrecognized files"
       "Please upload a stats.json file, or drop a save file together with its .dat companion."] in
  hideError ::
  match files with
  | [file] =>
    if endsWith (name file) ".json" then [handleJsonFile file]
    else
      [showError "Missing companion file"
         "Raw save files need their .dat companion. Please drop both the save file and its .dat file together."]
  | [_; _] =>
    let datFile := find (fun f => endsWith (name f) ".dat") files in
    let saveFile :=
      find (fun f => negb (endsWith (name f) ".dat") && negb (endsWith (name f) ".json"))
           files in
    match datFile, saveFile with
    | Some datFile, Some saveFile => [handleSaveFiles saveFile datFile]
    | _, _ => unrecognized
    end
  | _ => unrecognized
  end.
(** * Properties *)

(** ** Notions used in the statements *)

(** A byte whose high bit is set announces a further byte. *)
Definition continuation (b : byte) : bool := negb (js_and (u8 b) 0x80 =? 0).

(** The decode that starts at [off] meets the end of the buffer before a
    byte whose high bit is clear. *)
Definition runs_past_end (data : list byte) (off : Z) : Prop :=
  0 <= off /\ forallb continuation (skipn (Z.to_nat off) data) = true.

(** The 7-bit groups of the bytes [l], gathered from [shift] on into
    [result], as a 32-bit integer. *)
Fixpoint gather (l : list byte) (result shift : Z) : Z :=
  match l with
  | [] => ToInt32 result
  | b :: l' => gather l' (js_or result (js_shl (js_and (u8 b) 0x7F) shift)) (shift + 7)
  end.

(** The five named difficulty levels, by identifier. *)
Definition difficulty_levels : list string :=
  ["Easy"; "Normal"; "Hard"; "Brutal"; "Impossible"].

(** The two decimal digits of a number below 100. *)
Definition digit (d : Z) : ascii := ascii_of_nat (48 + Z.to_nat d).

Definition two_digits (n : Z) : string :=
  String (digit (n / 10)) (String (digit (n mod 10)) EmptyString).

(** The length of the longest prefix of the tags that are all
    [TAG_PRIMITIVE]. *)
Fixpoint primitive_prefix (tags : list (option byte)) : nat :=
  match tags with
  | tag :: tags' =>
    if tag_is tag TAG_PRIMITIVE then S (primitive_prefix tags') else O
  | [] => O
  end.

(** Decoding the given fields one after the other from [off]: each field
    is a name with its primitive subtype. *)
Fixpoint decode_in_order (fields : list (string * option byte)) (data : list byte)
    (off : Z) : outcome (object jsval) :=
  match fields with
  | [] => Ok []
  | (name, prim) :: fields' =>
    r <- readPrimitive data off prim ;;
    rest <- decode_in_order fields' data (offset r) ;;
    Ok ((name, value r) :: rest)
  end.

(** The wave instances of a located definition that decode: the one at the
    data offset, then one per back-reference to the object id, when there
    is an id, each kept when [readWaveFields] yields an object. *)
Definition decoded_wave (data : list byte) (cdef : ClassDefinition) (off : Z)
  : list (object jsval) :=
  match readWaveFields data off cdef with
  | Ok (Some w) => [w]
  | _ => []
  end.

Definition back_references (data : list byte) (cdef : ClassDefinition) : list Z :=
  if objectId cdef =? 0 then []
  else
    match findAllClassIdInstances data (objectId cdef) (dataOffset cdef) with
    | Ok l => l
    | _ => []
    end.

Definition decoded_waves (data : list byte) (cdef : ClassDefinition)
  : list (object jsval) :=
  flat_map (decoded_wave data cdef) (dataOffset cdef :: back_references data cdef).

(** A computation that does not run out of fuel. *)
Definition terminates {A} (c : outcome A) : Prop := c <> OutOfFuel.

(** What a decoder leaves in its variable of [parseSaveFiles], and what it
    adds to [errors]. *)
Definition slot {A} (decoder : outcome (option A)) : option A :=
  match decoder with
  | Ok (Some v) => Some v
  | _ => None
  end.

Definition tagged_error {A} (tag : string) (decoder : outcome (option A)) : list string :=
  match decoder with
  | Throw e => [(tag ++ message e)%string]
  | _ => []
  end.

(** The key of a decoder is left out of the output exactly when the
    decoder returned [null] or threw. *)
Definition left_out_when_null_or_thrown {A} (field : option A)
    (decoder : outcome (option A)) : Prop :=
  field = slot decoder /\
  (field = None <-> decoder = Ok None \/ exists e, decoder = Throw e).

(** ** Encoders

    The inverse of the reads, as the stream is written. *)

(** The byte with the low eight bits of [z]. *)
Definition byte_of_Z (z : Z) : byte :=
  match Byte.of_N (Z.to_N (z mod 256)) with
  | Some b => b
  | None => x00
  end.

(** A 32-bit integer, little-endian. *)
Definition le32 (z : Z) : list byte :=
  [byte_of_Z z; byte_of_Z (z / 256); byte_of_Z (z / 65536); byte_of_Z (z / 16777216)].

(** A 7-bit encoded integer: seven bits to a byte, the low group first,
    the high bit set on every byte but the last; [n] is the number of
    further bytes allowed. *)
Fixpoint write7BitInt_groups (n : nat) (v : Z) : list byte :=
  match n with
  | O => [byte_of_Z v]
  | S n' =>
    if v <? 128 then [byte_of_Z v]
    else byte_of_Z (v mod 128 + 128) :: write7BitInt_groups n' (v / 128)
  end.

Definition write7BitInt (v : Z) : list byte := write7BitInt_groups 4 v.

(** A length-prefixed string. *)
Definition writeBfString (s : string) : list byte :=
  write7BitInt (len (TextEncoder_encode s)) ++ TextEncoder_encode s.

(** A string of 7-bit characters. *)
Definition is_ascii (s : string) : Prop :=
  Forall (fun b => u8 b < 128) (TextEncoder_encode s).

(** The needle sits in the buffer at the index [i]. *)
Definition occurs_at (data needle : list byte) (i : Z) : Prop :=
  0 <= i /\ firstn (List.length needle) (skipn (Z.to_nat i) data) = needle.

(** The number of bytes that the primitive subtype takes in the stream;
    [None] for a code that [readPrimitive] does not know. *)
Definition prim_width (primType : option byte) : option Z :=
  let code := match primType with Some p => u8 p | None => -1 end in
  if code =? PRIM_BOOLEAN then Some 1
  else if code =? PRIM_BYTE then Some 1
  else if code =? PRIM_INT16 then Some 2
  else if code =? PRIM_INT32 then Some 4
  else if code =? PRIM_INT64 then Some 8
  else if code =? PRIM_SINGLE then Some 4
  else if code =? PRIM_DOUBLE then Some 8
  else None.

(** The [try] block of [findClassDefinition] accepts the name match at
    [p]. *)
Definition acceptable (data : list byte) (className : string)
    (expectedFields : list string) (p : Z) : Prop :=
  occurs_at data (TextEncoder_encode className) p /\
  exists cdef, candidate data className expectedFields p = Ok (Some cdef).

(** The field list that [extractHeader] expects. *)
Definition header_expected : list string :=
  ["saveVersion"; "missionId"; "difficultyId"; "profileData";
   "specialHeaderValue"; "customMapName"; "completedCampaignLinks"].

(** A back-reference to the object [metadataId] has its marker at [p]:
    the byte 0x01 there, and the id in the four bytes at [p + 5]. *)
Definition back_reference_at (data : list byte) (metadataId : Z) (p : Z) : Prop :=
  get data p = Some x01 /\ getUint32 data (p + 5) = Ok metadataId.

(** No back-reference to the object has its marker between the cursor and
    the marker of the first offset of the list, nor between an offset and
    the marker of the next, nor from the last offset on. *)
Fixpoint none_between (data : list byte) (metadataId : Z) (pos : Z) (l : list Z) : Prop :=
  match l with
  | [] => forall q, pos <= q < len data - 9 -> ~ back_reference_at data metadataId q
  | r :: l' =>
    (forall q, pos <= q < r - 9 -> ~ back_reference_at data metadataId q) /\
    none_between data metadataId r l'
  end.

(** The signed 32-bit integer in the four bytes at [off], and the
    snapshot that gives each name the integer at its place, four bytes
    apart from [off] on. *)
Definition int32_value (data : list byte) (off : Z) : Z :=
  signed 32 (le_value (firstn 4 (skipn (Z.to_nat off) data))).

Fixpoint day_at (names : list string) (data : list byte) (off : Z) : object Z :=
  match names with
  | [] => []
  | name :: names' => (name, int32_value data off) :: day_at names' data (off + 4)
  end.

(** How the stream describes the type of a member: its tag, and what
    follows the tags for it. *)
Inductive field_type : Type :=
| FPrimitive (subtype : byte)
| FString
| FSystemClass (name : string)
| FClass (name : string) (library : Z)
| FPrimitiveArray (subtype : byte).

Definition tag_byte (t : field_type) : byte :=
  match t with
  | FPrimitive _ => x00
  | FString => x01
  | FSystemClass _ => x03
  | FClass _ _ => x04
  | FPrimitiveArray _ => x07
  end.

Definition type_info (t : field_type) : list byte :=
  match t with
  | FPrimitive subtype | FPrimitiveArray subtype => [subtype]
  | FString => []
  | FSystemClass name => writeBfString name
  | FClass name library => writeBfString name ++ le32 library
  end.

(** The entry of [primTypes] for the member. *)
Definition prim_slot (t : field_type) : option byte :=
  match t with
  | FPrimitive subtype | FPrimitiveArray subtype => Some subtype
  | _ => Some x00
  end.

Definition type_name (t : field_type) : string :=
  match t with
  | FSystemClass name | FClass name _ => name
  | _ => ""
  end.

(** The names that a written definition can carry: 7-bit characters, and
    a length that the prefix can hold. *)
Definition writable (s : string) : Prop :=
  is_ascii s /\ len (TextEncoder_encode s) < 2 ^ 31.

(** A class record as it is written: the object id, the name with its
    length prefix, the member count, the member names, the tags, the
    additional type information and the library id. *)
Definition write_definition (id : Z) (cn : string)
    (fields : list (string * field_type)) (library : Z) : list byte :=
  le32 id
  ++ writeBfString cn
  ++ le32 (Z.of_nat (List.length fields))
  ++ flat_map writeBfString (map fst fields)
  ++ map tag_byte (map snd fields)
  ++ flat_map type_info (map snd fields)
  ++ le32 library.

(** What [findClassDefinition] is to make of the record written after
    [pre]. *)
Definition written (pre : list byte) (id : Z) (cn : string)
    (fields : list (string * field_type)) (library : Z) : ClassDefinition :=
  {| className := cn;
     memberCount := Z.of_nat (List.length fields);
     memberNames := map fst fields;
     typeTags := map (fun f => Some (tag_byte (snd f))) fields;
     primTypes := map (fun f => prim_slot (snd f)) fields;
     dataOffset := len pre + len (write_definition id cn fields library);
     objectId := id |}.

(** The conditions under which a record can be written and read back:
    an id and a member count of 32 bits, at least one member, a class
    name of 7-bit characters whose length takes one byte, and member and
    type names of 7-bit characters. *)
Definition well_formed (id : Z) (cn : string) (fields : list (string * field_type)) : Prop :=
  0 <= id < 2 ^ 32 /\
  fields <> [] /\ Z.of_nat (List.length fields) < 2 ^ 32 /\
  is_ascii cn /\ len (TextEncoder_encode cn) < 128 /\
  Forall (fun f => writable (fst f) /\ writable (type_name (snd f))) fields.

(** ** Sample buffers *)

(** A back-reference to object 7 whose marker is the byte at offset 1,
    nine bytes before the end. *)
Definition last_marker_buffer : list byte :=
  [x00; x01; x00; x00; x00; x00; x07; x00; x00; x00].


(** A length-prefixed string of fewer than 128 bytes, as the stream holds
    it. *)
Definition bf_string (s : string) : list byte :=
  match Byte.of_N (N.of_nat (String.length s)) with
  | Some n => n :: TextEncoder_encode s
  | None => []
  end.

(** A class definition as the stream holds it: the name, the member count,
    the member names, one tag per member, the additional type information
    and the library id. *)
Definition sample_definition (className : string) (fields : list string)
    (tags info : list byte) : list byte :=
  TextEncoder_encode className
  ++ match Byte.of_N (N.of_nat (List.length fields)) with
     | Some n => [n; x00; x00; x00]
     | None => []
     end
  ++ flat_map bf_string fields ++ tags ++ info ++ [x02; x00; x00; x00].

(** A kill counter whose definition is complete and whose value is
    missing. *)
Definition kill_truncated_buffer : list byte :=
  sample_definition "KilledEnemiesCounterSingleton" ["value"] [x00] [x08].

(** The name of the kill counter followed by the count 2, a false
    positive, and then the kill counter itself with the value 1234. *)
Definition false_positive_buffer : list byte :=
  TextEncoder_encode "KilledEnemiesCounterSingleton" ++ [x02; x00; x00; x00]
  ++ kill_truncated_buffer ++ [xd2; x04; x00; x00].

(** A mission header with save version 3, mission 12 and the difficulty
    given. *)
Definition header_buffer (difficulty : byte) : list byte :=
  sample_definition "ProfileSaveHeader"
    ["saveVersion"; "missionId"; "difficultyId"; "profileData";
     "specialHeaderValue"; "customMapName"; "completedCampaignLinks"]
    [x00; x00; x00; x04; x00; x01; x03]
    ([x08; x08; x08] ++ bf_string "ProfileData" ++ [x02; x00; x00; x00]
     ++ [x08] ++ bf_string "System.Collections.Generic.List")
  ++ [x03; x00; x00; x00; x0c; x00; x00; x00; difficulty; x00; x00; x00].

(** An achievements record: six primitive fields, of which the third has
    the subtype given, and a trailing collection. *)
Definition achievements_buffer (subtype : byte) : list byte :=
  sample_definition "AchievementsSaveData" achievements_expected
    [x00; x00; x00; x00; x00; x00; x03]
    ([x08; x08; subtype; x01; x08; x08] ++ bf_string "System.Collections.Generic.List")
  ++ [x64; x00; x00; x00; x05; x00; x00; x00; x01; x00;
      x02; x00; x00; x00; x03; x00; x00; x00; x09; x09].

(** A file with the given bytes. *)
Definition sample_file (data : list byte) : File :=
  {| name := "save"; size := len data; lastModified := 0; arrayBuffer := Resolved data |}.

(** A resource ledger: the object id 7 and the length-prefixed class name,
    the definition, the ten values of the current day, and a
    back-reference to object 7 with the ten values of the last day. *)
Definition resources_buffer : list byte :=
  le32 7 ++ [x1b]
  ++ sample_definition "ResourcesStatisticContainer"
       ["foodByFarms"; "foodByFishers"; "foodByBerrypickers"; "wood";
        "treesCutted"; "treesPlanted"; "stone"; "iron";
        "woodConsuming"; "ironConsuming"]
       (repeat x00 10) (repeat x08 10)
  ++ flat_map le32 [10; 20; 30; 40; 50; 60; 70; 80; 90; 100]
  ++ [x01] ++ le32 8 ++ le32 7
  ++ flat_map le32 [11; 21; 31; 41; 51; 61; 71; 81; 91; 101].

(** Two waves: the definition with object id 9 and its first instance,
    then a back-reference to object 9. *)
Definition waves_buffer : list byte :=
  le32 9 ++ [x12]
  ++ sample_definition "WaveHolderSaveData" waves_expected
       (repeat x00 6) [x08; x08; x01; x01; x01; x01]
  ++ le32 100 ++ le32 1 ++ [x01; x01; x01; x00]
  ++ [x01] ++ le32 10 ++ le32 9
  ++ le32 101 ++ le32 2 ++ [x01; x01; x00; x01].

(** The resource ledger cut six bytes into its current day. *)
Definition truncated_resources_buffer : list byte := firstn 180 resources_buffer.


(** A kill counter record as the game writes it, after the record type
    byte, with the counter behind it. *)
Definition kill_fields : list (string * field_type) := [("value", FPrimitive x08)].

Definition written_kill_buffer : list byte :=
  [x05] ++ write_definition 7 "KilledEnemiesCounterSingleton" kill_fields 2
        ++ le32 42 ++ [x0b].

(** A header record with its seven members, and the first three values. *)
Definition header_fields : list (string * field_type) :=
  [("saveVersion", FPrimitive x08); ("missionId", FPrimitive x08);
   ("difficultyId", FPrimitive x08); ("profileData", FClass "ProfileData" 2);
   ("specialHeaderValue", FPrimitive x08); ("customMapName", FString);
   ("completedCampaignLinks", FSystemClass "System.Collections.Generic.List")].

Definition written_header_buffer : list byte :=
  [x05] ++ write_definition 1 "ProfileSaveHeader" header_fields 2
        ++ le32 3 ++ le32 12 ++ le32 2 ++ [x0b].
(** ** Buffers *)

Lemma len_nonneg (data : list byte) : 0 <= len data.
Proof. unfold len. lia. Qed.

Lemma len_cons (b : byte) (l : list byte) : len (b :: l) = len l + 1.
Proof. unfold len. cbn [List.length]. lia. Qed.

Lemma get_skipn_cons (data : list byte) (off : Z) (b : byte) (l : list byte) :
  0 <= off -> skipn (Z.to_nat off) data = b :: l ->
  get data off = Some b /\ skipn (Z.to_nat (off + 1)) data = l.
Proof.
  intros Hoff Hs. unfold get.
  destruct (Z.ltb_spec off 0) as [?|_]; [lia|].
  replace (Z.to_nat (off + 1)) with (S (Z.to_nat off)) by lia.
  remember (Z.to_nat off) as n eqn:Hn. clear Hn Hoff.
  revert data Hs. induction n as [|n IH]; intros data Hs.
  - cbn in Hs. subst data. cbn. auto.
  - destruct data as [|c data]; [discriminate|].
    cbn [skipn] in Hs. cbn [nth_error]. apply IH in Hs. exact Hs.
Qed.

Lemma get_skipn_nil (data : list byte) (off : Z) :
  skipn (Z.to_nat off) data = [] -> get data off = None.
Proof.
  intros Hs. unfold get. destruct (off <? 0); [reflexivity|].
  apply nth_error_None.
  assert (H := length_skipn (Z.to_nat off) data). rewrite Hs in H. cbn in H. lia.
Qed.

Lemma skipn_len (data : list byte) (off : Z) :
  0 <= off -> len (skipn (Z.to_nat off) data) = Z.max (len data - off) 0.
Proof. intros H. unfold len. rewrite length_skipn. lia. Qed.

(** ** Primitive codec *)

Lemma js_and_0 (m : Z) : js_and 0 m = 0.
Proof. unfold js_and. reflexivity. Qed.

Lemma js_shl_0 (s : Z) : js_shl 0 s = 0.
Proof. unfold js_shl. change (ToInt32 0) with 0. rewrite Z.shiftl_0_l. reflexivity. Qed.

Lemma js_or_0_r (a : Z) : js_or a 0 = ToInt32 a.
Proof. unfold js_or. change (ToInt32 0) with 0. apply Z.lor_0_r. Qed.

(** The loop on the bytes that remain: when all of them announce a further
    byte, the read past the end stops the loop. *)
Lemma parse7BitInt_loop_past_end (l : list byte) :
  forall fuel data result shift off,
    0 <= off -> skipn (Z.to_nat off) data = l ->
    forallb continuation l = true ->
    (List.length l < fuel)%nat ->
    parse7BitInt_loop fuel data result shift off
    = Ok {| value := gather l result shift; offset := off + len l + 1 |}.
Proof.
  induction l as [|b l IH]; intros fuel data result shift off Hoff Hs Hall Hfuel.
  - destruct fuel as [|fuel]; [cbn in Hfuel; lia|].
    cbn [parse7BitInt_loop]. rewrite (get_skipn_nil _ _ Hs). cbn [int_of_elem].
    rewrite !js_and_0, js_shl_0, js_or_0_r. cbn [Z.eqb gather].
    unfold len. cbn [List.length]. do 2 f_equal. lia.
  - destruct fuel as [|fuel]; [cbn in Hfuel; lia|].
    destruct (get_skipn_cons _ Hoff Hs) as [Hget Hs'].
    cbn [forallb] in Hall. apply andb_true_iff in Hall as [Hb Hall].
    cbn [parse7BitInt_loop]. rewrite Hget. cbn [int_of_elem].
    unfold continuation in Hb. apply negb_true_iff in Hb. rewrite Hb.
    rewrite (IH fuel data _ _ (off + 1)); try assumption; try lia.
    + cbn [gather]. rewrite len_cons. do 2 f_equal. lia.
    + cbn [List.length] in Hfuel. lia.
Qed.

(** The loop of [parse7BitInt] always leaves: [parse7BitInt] returns, and
    neither throws nor runs out of fuel. *)
Lemma parse7BitInt_loop_returns :
  forall fuel data result shift off,
    (Z.to_nat (len data - off) < fuel)%nat \/ (off < 0 /\ (0 < fuel)%nat) ->
    exists r, parse7BitInt_loop fuel data result shift off = Ok r.
Proof.
  induction fuel as [|fuel IH]; intros data result shift off Hfuel; [lia|].
  cbn [parse7BitInt_loop].
  destruct (js_and (int_of_elem (get data off)) 128 =? 0) eqn:Hb; [eauto|].
  apply IH.
  assert (Hin : 0 <= off < len data).
  { unfold get in Hb. destruct (Z.ltb_spec off 0) as [Hneg|Hpos].
    - cbn in Hb. discriminate.
    - destruct (nth_error data (Z.to_nat off)) eqn:Hn.
      + assert (Hlt : (Z.to_nat off < List.length data)%nat)
          by (apply nth_error_Some; congruence).
        unfold len. lia.
      + cbn in Hb. discriminate. }
  left. lia.
Qed.

Lemma parse7BitInt_returns (data : list byte) (off : Z) :
  exists r, parse7BitInt data off = Ok r.
Proof.
  unfold parse7BitInt. apply parse7BitInt_loop_returns.
  destruct (Z.ltb_spec off 0); [right; lia|left; unfold len; lia].
Qed.

Lemma parseBfString_returns (data : list byte) (off : Z) :
  exists r, parseBfString data off = Ok r.
Proof.
  unfold parseBfString. destruct (parse7BitInt_returns data off) as [r ->].
  cbn [bind]. eauto.
Qed.

(** C1, as the code has it: [parse7BitInt] has no failure.  When the decode
    runs past the end of the buffer before a terminating byte, the missing
    byte reads as a terminator that carries no bits: the result is the
    value gathered from the bytes that are there, and the next offset is
    one past the first index outside the buffer. *)
Theorem parse7BitInt_past_end (data : list byte) (off : Z) :
  runs_past_end data off ->
  parse7BitInt data off
  = Ok {| value := gather (skipn (Z.to_nat off) data) 0 0;
          offset := Z.max off (len data) + 1 |}.
Proof.
  intros [Hoff Hall]. unfold parse7BitInt.
  rewrite (@parse7BitInt_loop_past_end (skipn (Z.to_nat off) data)
             _ data 0 0 off Hoff eq_refl Hall).
  - rewrite skipn_len by assumption. do 2 f_equal. lia.
  - rewrite length_skipn. lia.
Qed.

Lemma parse7BitInt_past_end_witness :
  runs_past_end [x80; xff] 0 /\
  parse7BitInt [x80; xff] 0 = Ok {| value := 16256; offset := 3 |}.
Proof.
  assert (H : runs_past_end [x80; xff] 0) by (split; [lia|reflexivity]).
  split; [exact H|]. exact (parse7BitInt_past_end H).
Defined.

(** C1 fails as stated: on the one-byte buffer [0x80] the decode runs past
    the end without a terminating byte, and [parse7BitInt] returns the
    value 0 with next offset 2 instead of failing. *)
Lemma parse7BitInt_past_end_no_error :
  runs_past_end [x80] 0 /\
  parse7BitInt [x80] 0 = Ok {| value := 0; offset := 2 |}.
Proof. split; [split; [lia|reflexivity]|reflexivity]. Qed.

Lemma subarray_past_end (data : list byte) (o n : Z) :
  0 <= o -> len data - o < n ->
  subarray data o (o + n) = skipn (Z.to_nat o) data.
Proof.
  intros Ho Hn. assert (Hl := len_nonneg data).
  unfold subarray, relative_index.
  destruct (Z.ltb_spec o 0); [lia|].
  destruct (Z.ltb_spec (o + n) 0); [lia|].
  rewrite (Z.min_r (o + n)) by lia.
  destruct (Z.le_gt_cases o (len data)) as [Hle|Hgt].
  - rewrite Z.min_l by lia. apply firstn_all2.
    rewrite length_skipn. unfold len in *. lia.
  - rewrite Z.min_r by lia.
    rewrite !skipn_all2 by (unfold len in *; lia). apply firstn_nil.
Qed.

(** C2, as the code has it: [parseBfString] has no failure.  When the
    length prefix [n], read up to the offset [o], exceeds the bytes that
    remain, the string is decoded from the bytes that remain (a shortened
    string) and the next offset is [o + n], past the end of the buffer. *)
Theorem parseBfString_truncated (data : list byte) (off n o : Z) :
  parse7BitInt data off = Ok {| value := n; offset := o |} ->
  0 <= o ->
  len data - o < n ->
  parseBfString data off
  = Ok {| value := TextDecoder_decode (skipn (Z.to_nat o) data); offset := o + n |}
  /\ len data < o + n.
Proof.
  intros Hp Ho Hn. split; [|lia].
  unfold parseBfString. rewrite Hp. cbn [bind value offset].
  rewrite subarray_past_end by assumption. reflexivity.
Qed.

Lemma parseBfString_truncated_witness :
  parseBfString [x05; x61; x62] 0 = Ok {| value := "ab"; offset := 6 |} /\
  len [x05; x61; x62] < 1 + 5.
Proof.
  apply (@parseBfString_truncated [x05; x61; x62] 0 5 1);
    [reflexivity | lia | vm_compute; reflexivity].
Defined.

(** C2 fails as stated: in the two-byte buffer [0x05 0x61] the prefix asks
    for 5 bytes and 1 remains, and [parseBfString] returns the shortened
    string instead of failing. *)
Lemma parseBfString_truncated_no_error :
  parse7BitInt [x05; x61] 0 = Ok {| value := 5; offset := 1 |} /\
  len [x05; x61] - 1 < 5 /\
  parseBfString [x05; x61] 0 = Ok {| value := "a"; offset := 6 |}.
Proof. repeat split. Qed.

(** ** Back-references *)

Lemma indexOf_from_range (l : list byte) (v : byte) :
  forall i, 0 <= i ->
    indexOf_from l v i = -1 \/ i <= indexOf_from l v i < i + len l.
Proof.
  induction l as [|b l IH]; intros i Hi; cbn [indexOf_from].
  - left. reflexivity.
  - rewrite len_cons. assert (Hl := len_nonneg l).
    destruct (Byte.eqb b v); [right; lia|].
    destruct (IH (i + 1)) as [->|H]; [lia|left; reflexivity|right; lia].
Qed.

(** [indexOf] answers -1 or an index of the buffer at or after the start. *)
Lemma indexOf_range (data : list byte) (v : byte) (from : Z) :
  indexOf data v from = -1 \/
  (Z.max from 0 <= indexOf data v from < len data).
Proof.
  unfold indexOf. assert (Hl := len_nonneg data).
  set (k := if from <? 0 then Z.max (len data + from) 0 else from).
  assert (Hk : 0 <= k /\ Z.max from 0 <= k).
  { subst k. destruct (Z.ltb_spec from 0); lia. }
  destruct (indexOf_from_range (skipn (Z.to_nat k) data) v (proj1 Hk)) as [H|H];
    [left; exact H|right].
  rewrite skipn_len in H by lia. lia.
Qed.

Lemma indexOf_from_first (l : list byte) (v : byte) :
  forall i p, i <= p ->
    (forall j, i <= j < p -> nth_error l (Z.to_nat (j - i)) <> Some v) ->
    nth_error l (Z.to_nat (p - i)) = Some v ->
    indexOf_from l v i = p.
Proof.
  induction l as [|b l IH]; intros i p Hip Hno Hat.
  - destruct (Z.to_nat (p - i)); discriminate.
  - cbn [indexOf_from]. destruct (Byte.eqb b v) eqn:Hb.
    + apply Byte.byte_dec_bl in Hb. subst b.
      destruct (Z.eq_dec i p) as [|Hne]; [assumption|].
      exfalso. apply (Hno i); [lia|]. rewrite Z.sub_diag. reflexivity.
    + assert (Hne : i <> p).
      { intros ->. rewrite Z.sub_diag in Hat. cbn in Hat.
        injection Hat as ->. rewrite (Byte.byte_dec_lb eq_refl) in Hb. discriminate. }
      apply IH; [lia| |].
      * intros j Hj. specialize (Hno j ltac:(lia)).
        replace (Z.to_nat (j - i)) with (S (Z.to_nat (j - (i + 1)))) in Hno by lia.
        exact Hno.
      * replace (Z.to_nat (p - i)) with (S (Z.to_nat (p - (i + 1)))) in Hat by lia.
        exact Hat.
Qed.

(** The first occurrence at or after a non-negative start. *)
Lemma indexOf_first (data : list byte) (v : byte) (from p : Z) :
  0 <= from <= p ->
  (forall j, from <= j < p -> get data j <> Some v) ->
  get data p = Some v ->
  indexOf data v from = p.
Proof.
  intros Hfp Hno Hat. unfold indexOf.
  destruct (Z.ltb_spec from 0); [lia|].
  apply indexOf_from_first; [lia| |].
  - intros j Hj. rewrite nth_error_skipn.
    specialize (Hno j Hj). unfold get in Hno.
    destruct (Z.ltb_spec j 0); [lia|].
    replace (Z.to_nat from + Z.to_nat (j - from))%nat with (Z.to_nat j) by lia.
    exact Hno.
  - rewrite nth_error_skipn. unfold get in Hat.
    destruct (Z.ltb_spec p 0); [lia|].
    replace (Z.to_nat from + Z.to_nat (p - from))%nat with (Z.to_nat p) by lia.
    exact Hat.
Qed.

Lemma view_bytes_in_range (data : list byte) (off : Z) (n : nat) :
  0 <= off -> off + Z.of_nat n <= len data ->
  view_bytes data off n = Ok (firstn n (skipn (Z.to_nat off) data)).
Proof.
  intros H0 H1. unfold view_bytes.
  destruct (Z.ltb_spec off 0); [lia|].
  destruct (Z.ltb_spec (len data) (off + Z.of_nat n)); [lia|]. reflexivity.
Qed.

(** The scan loop returns: with fuel beyond the bytes at or after the
    cursor it neither throws nor runs out of fuel, and an offset it
    returns lies past the cursor, at 9 or more, and inside the buffer. *)
Lemma findClassIdInstance_loop_returns :
  forall fuel data metadataId pos,
    (Z.to_nat (len data - Z.max pos 0) < fuel)%nat ->
    exists o, findClassIdInstance_loop fuel data metadataId pos = Ok o /\
              match o with
              | Some r => pos < r /\ 9 <= r <= len data
              | None => True
              end.
Proof.
  induction fuel as [|fuel IH]; intros data metadataId pos Hfuel; [lia|].
  cbn [findClassIdInstance_loop].
  destruct (Z.ltb_spec pos (len data - 9)) as [Hpos|Hpos];
    [|exists None; split; [reflexivity|exact I]].
  destruct (indexOf_range data x01 pos) as [->|Hr];
    [exists None; split; [reflexivity|exact I]|].
  set (p := indexOf data x01 pos) in *.
  destruct (Z.eqb_spec p (-1)) as [|_]; [lia|].
  destruct (Z.leb_spec (p + 9) (len data)) as [Hin|Hout].
  - unfold getUint32. rewrite view_bytes_in_range by (cbn; lia). cbn [bind].
    destruct (le_value _ =? metadataId).
    + exists (Some (p + 9)). split; [reflexivity|lia].
    + destruct (IH data metadataId (p + 1)) as [o [Ho Hrange]]; [lia|].
      exists o. split; [exact Ho|]. destruct o; [lia|exact I].
  - cbn [bind].
    destruct (IH data metadataId (p + 1)) as [o [Ho Hrange]]; [lia|].
    exists o. split; [exact Ho|]. destruct o; [lia|exact I].
Qed.

Lemma findClassIdInstance_returns (data : list byte) (metadataId start : Z) :
  exists o, findClassIdInstance data metadataId start = Ok o /\
            match o with
            | Some r => start < r /\ 9 <= r <= len data
            | None => True
            end.
Proof.
  unfold findClassIdInstance. apply findClassIdInstance_loop_returns.
  unfold len. lia.
Qed.

Lemma StronglySorted_snoc (l : list Z) (x : Z) :
  StronglySorted Z.lt l -> Forall (fun y => y < x) l -> StronglySorted Z.lt (l ++ [x]).
Proof.
  induction 1 as [|a l Hs IH Ha]; intros Hall; cbn.
  - repeat constructor.
  - inversion Hall as [|? ? Hax Hlx]; subst. constructor.
    + apply IH. exact Hlx.
    + apply Forall_app. split; [exact Ha|]. repeat constructor. exact Hax.
Qed.

Lemma StronglySorted_lt_le (l : list Z) :
  StronglySorted Z.lt l -> StronglySorted Z.le l.
Proof.
  induction 1 as [|a l Hs IH Ha]; constructor; [exact IH|].
  eapply Forall_impl; [|exact Ha]. cbn. intros; lia.
Qed.

Lemma StronglySorted_lt_NoDup (l : list Z) :
  StronglySorted Z.lt l -> NoDup l.
Proof.
  induction 1 as [|a l Hs IH Ha]; constructor; [|exact IH].
  intros Hin. rewrite Forall_forall in Ha. specialize (Ha a Hin). lia.
Qed.

(** The collecting loop: the offsets gathered so far increase strictly and
    end at or before the cursor, every further one lies past the cursor,
    and the cursor moves towards the end of the buffer. *)
Lemma findAllClassIdInstances_loop_returns :
  forall fuel data metadataId pos results,
    (Z.to_nat (len data - Z.max pos 0) < fuel)%nat ->
    StronglySorted Z.lt results ->
    Forall (fun y => y <= pos) results ->
    exists l, findAllClassIdInstances_loop fuel data metadataId pos results = Ok l /\
              StronglySorted Z.lt l.
Proof.
  induction fuel as [|fuel IH]; intros data metadataId pos results Hfuel Hs Hall; [lia|].
  cbn [findAllClassIdInstances_loop].
  destruct (findClassIdInstance_returns data metadataId pos) as [o [-> Hr]].
  cbn [bind]. destruct o as [r|]; [|exists results; split; [reflexivity|exact Hs]].
  apply IH.
  - lia.
  - apply StronglySorted_snoc; [exact Hs|].
    eapply Forall_impl; [|exact Hall]. cbn. intros; lia.
  - apply Forall_app. split.
    + eapply Forall_impl; [|exact Hall]. cbn. intros; lia.
    + repeat constructor. lia.
Qed.

Lemma findAllClassIdInstances_returns (data : list byte) (metadataId start : Z) :
  exists l, findAllClassIdInstances data metadataId start = Ok l /\
            StronglySorted Z.lt l.
Proof.
  unfold findAllClassIdInstances.
  apply findAllClassIdInstances_loop_returns.
  - unfold len. lia.
  - constructor.
  - constructor.
Qed.

(** C7: [findAllClassIdInstances] returns its offsets in non-decreasing
    order and without a repeated offset (they increase strictly); the scan
    ends for every buffer, object id and start offset. *)
Theorem findAllClassIdInstances_increasing (data : list byte) (metadataId start : Z) :
  exists l, findAllClassIdInstances data metadataId start = Ok l /\
            StronglySorted Z.le l /\ NoDup l /\ StronglySorted Z.lt l.
Proof.
  destruct (findAllClassIdInstances_returns data metadataId start) as [l [Hl Hs]].
  exists l. split; [exact Hl|].
  split; [apply StronglySorted_lt_le; exact Hs|].
  split; [apply StronglySorted_lt_NoDup; exact Hs|exact Hs].
Qed.

(** A negative start counts from the end of the buffer. *)
Lemma indexOf_negative (data : list byte) (v : byte) (from : Z) :
  from < 0 -> indexOf data v from = indexOf data v (Z.max (len data + from) 0).
Proof.
  intros H. unfold indexOf.
  destruct (Z.ltb_spec from 0); [|lia].
  destruct (Z.ltb_spec (Z.max (len data + from) 0) 0); [lia|reflexivity].
Qed.

(** C10, as the code has it: the loop guard [pos < data.length - 9] tests
    the cursor, and the marker that [indexOf] then finds may lie at
    [data.length - 9].  A scan that starts at or past [data.length - 9]
    finds nothing; a scan that starts before it at an offset that is not
    negative, with no 0x01 byte between the start and [data.length - 9],
    returns the back-reference whose marker sits at [data.length - 9], as
    the offset [data.length].  A negative start passes the guard and
    [indexOf] counts it from the end: the search begins at
    [max(data.length + start, 0)], finds nothing when that lies past
    [data.length - 9], and returns the marker at [data.length - 9] when it
    does not and no 0x01 byte lies between. *)
Theorem findClassIdInstance_last_marker (data : list byte) (metadataId start : Z) :
  (len data - 9 <= start -> findClassIdInstance data metadataId start = Ok None) /\
  (0 <= start < len data - 9 ->
   (forall j, start <= j < len data - 9 -> get data j <> Some x01) ->
   get data (len data - 9) = Some x01 ->
   getUint32 data (len data - 4) = Ok metadataId ->
   findClassIdInstance data metadataId start = Ok (Some (len data))) /\
  (start < 0 -> len data - 9 < Z.max (len data + start) 0 ->
   findClassIdInstance data metadataId start = Ok None) /\
  (start < 0 -> Z.max (len data + start) 0 <= len data - 9 ->
   (forall j, Z.max (len data + start) 0 <= j < len data - 9 ->
              get data j <> Some x01) ->
   get data (len data - 9) = Some x01 ->
   getUint32 data (len data - 4) = Ok metadataId ->
   findClassIdInstance data metadataId start = Ok (Some (len data))).
Proof.
  split; [|split; [|split]].
  - intros Hstart. unfold findClassIdInstance. cbn [findClassIdInstance_loop].
    destruct (Z.ltb_spec start (len data - 9)); [lia|reflexivity].
  - intros Hstart Hno Hat Hid. unfold findClassIdInstance.
    cbn [findClassIdInstance_loop].
    destruct (Z.ltb_spec start (len data - 9)); [|lia].
    rewrite (@indexOf_first data x01 start (len data - 9)) by (assumption || lia).
    destruct (Z.eqb_spec (len data - 9) (-1)); [lia|].
    destruct (Z.leb_spec (len data - 9 + 9) (len data)); [|lia].
    replace (len data - 9 + 5) with (len data - 4) by lia.
    rewrite Hid. cbn [bind]. rewrite Z.eqb_refl.
    do 2 f_equal. lia.
  - intros Hneg Hpast. unfold findClassIdInstance. cbn [findClassIdInstance_loop].
    destruct (Z.ltb_spec start (len data - 9)); [|reflexivity].
    rewrite indexOf_negative by exact Hneg.
    destruct (indexOf_range data x01 (Z.max (len data + start) 0)) as [->|Hr];
      [reflexivity|].
    set (p := indexOf data x01 (Z.max (len data + start) 0)) in *.
    destruct (Z.eqb_spec p (-1)); [reflexivity|].
    destruct (Z.leb_spec (p + 9) (len data)); [lia|]. cbn [bind].
    destruct data as [|b data]; [cbn in Hr; lia|].
    cbn [List.length findClassIdInstance_loop].
    destruct (Z.ltb_spec (p + 1) (len (b :: data) - 9)); [lia|reflexivity].
  - intros Hneg Hfrom Hno Hat Hid. unfold findClassIdInstance.
    cbn [findClassIdInstance_loop].
    assert (Hl := len_nonneg data).
    destruct (Z.ltb_spec start (len data - 9)); [|lia].
    rewrite indexOf_negative by exact Hneg.
    rewrite (@indexOf_first data x01 (Z.max (len data + start) 0) (len data - 9))
      by (assumption || lia).
    destruct (Z.eqb_spec (len data - 9) (-1)); [lia|].
    destruct (Z.leb_spec (len data - 9 + 9) (len data)); [|lia].
    replace (len data - 9 + 5) with (len data - 4) by lia.
    rewrite Hid. cbn [bind]. rewrite Z.eqb_refl.
    do 2 f_equal. lia.
Qed.

Lemma findClassIdInstance_last_marker_witness :
  findClassIdInstance last_marker_buffer 7 1 = Ok None /\
  findClassIdInstance last_marker_buffer 7 0 = Ok (Some 10) /\
  findClassIdInstance last_marker_buffer 7 (-3) = Ok None /\
  findClassIdInstance last_marker_buffer 7 (-10) = Ok (Some 10).
Proof.
  split; [|split; [|split]].
  - apply (proj1 (findClassIdInstance_last_marker last_marker_buffer 7 1)).
    vm_compute. discriminate.
  - apply (proj1 (proj2 (findClassIdInstance_last_marker last_marker_buffer 7 0))).
    + vm_compute. split; [discriminate|reflexivity].
    + intros j Hj. change (len last_marker_buffer - 9) with 1 in Hj.
      assert (j = 0) as -> by lia. discriminate.
    + reflexivity.
    + reflexivity.
  - apply (proj1 (proj2 (proj2
             (findClassIdInstance_last_marker last_marker_buffer 7 (-3))))).
    + lia.
    + vm_compute. reflexivity.
  - apply (proj2 (proj2 (proj2
             (findClassIdInstance_last_marker last_marker_buffer 7 (-10))))).
    + lia.
    + vm_compute. discriminate.
    + intros j Hj. change (Z.max (len last_marker_buffer + -10) 0) with 0 in Hj.
      change (len last_marker_buffer - 9) with 1 in Hj.
      assert (j = 0) as -> by lia. discriminate.
    + reflexivity.
    + reflexivity.
Defined.

(** C10 fails as stated: in this 10-byte buffer the only back-reference to
    object 7 has its marker at offset 1, which is [data.length - 9], and
    the scan from 0 returns it. *)
Lemma findClassIdInstance_last_marker_found :
  len last_marker_buffer - 9 = 1 /\
  get last_marker_buffer 1 = Some x01 /\
  getUint32 last_marker_buffer (1 + 5) = Ok 7 /\
  findClassIdInstance last_marker_buffer 7 0 = Ok (Some 10).
Proof. repeat split. Qed.

(** ** Byte search *)

Lemma findBytes_from_range (n : nat) (data needle : list byte) :
  forall i,
    findBytes_from n data needle i = -1 \/
    (i <= findBytes_from n data needle i < i + Z.of_nat n /\
     matches_at data needle (findBytes_from n data needle i) = true).
Proof.
  induction n as [|n IH]; intros i; cbn [findBytes_from].
  - left. reflexivity.
  - destruct (matches_at data needle i) eqn:Hm.
    + right. split; [lia|exact Hm].
    + destruct (IH (i + 1)) as [->|[H1 H2]]; [left; reflexivity|right].
      split; [lia|exact H2].
Qed.

(** [findBytes] answers -1 or a position at or after the start where the
    needle sits and fits in the buffer. *)
Lemma findBytes_range (data needle : list byte) (start : Z) :
  findBytes data needle start = -1 \/
  (start <= findBytes data needle start <= len data - len needle /\
   matches_at data needle (findBytes data needle start) = true).
Proof.
  unfold findBytes.
  destruct (findBytes_from_range (Z.to_nat (len data - len needle - start + 1))
              data needle start) as [H|[H1 H2]]; [left; exact H|right].
  split; [lia|exact H2].
Qed.

(** ** Class finder *)

Lemma readMemberNames_returns (n : nat) (data : list byte) :
  forall off members,
    exists members' off',
      readMemberNames n data off members = Ok (members', off') /\
      List.length members' = (List.length members + n)%nat.
Proof.
  induction n as [|n IH]; intros off members; cbn [readMemberNames].
  - exists members, off. split; [reflexivity|lia].
  - destruct (parseBfString_returns data off) as [r ->]. cbn [bind].
    destruct (IH (offset r) (members ++ [value r])) as [m' [o' [-> Hlen]]].
    exists m', o'. split; [reflexivity|].
    rewrite Hlen, length_app. cbn [List.length]. lia.
Qed.

Lemma readTypeTags_length (n : nat) (data : list byte) :
  forall off tags,
    List.length (fst (readTypeTags n data off tags)) = (List.length tags + n)%nat.
Proof.
  induction n as [|n IH]; intros off tags; cbn [readTypeTags fst].
  - lia.
  - rewrite IH, length_app. cbn [List.length]. lia.
Qed.

Lemma readTypeInfo_returns (tags : list (option byte)) (data : list byte) :
  forall off prims,
    exists prims' off',
      readTypeInfo tags data off prims = Ok (prims', off') /\
      List.length prims' = (List.length prims + List.length tags)%nat.
Proof.
  induction tags as [|tag tags IH]; intros off prims; cbn [readTypeInfo].
  - exists prims, off. split; [reflexivity|cbn; lia].
  - assert (Hstep : forall off' p,
               exists prims' off'',
                 readTypeInfo tags data off' (prims ++ [p]) = Ok (prims', off'') /\
                 List.length prims' = (List.length prims + S (List.length tags))%nat).
    { intros off' p. destruct (IH off' (prims ++ [p])) as [p' [o' [H Hlen]]].
      exists p', o'. split; [exact H|].
      rewrite Hlen, length_app. cbn [List.length]. lia. }
    cbn [List.length].
    destruct (tag_is tag TAG_PRIMITIVE); [apply Hstep|].
    destruct (tag_is tag TAG_CLASS).
    { destruct (parseBfString_returns data off) as [r ->]. cbn [bind]. apply Hstep. }
    destruct (tag_is tag TAG_SYSTEM_CLASS).
    { destruct (parseBfString_returns data off) as [r ->]. cbn [bind]. apply Hstep. }
    destruct (tag_is tag TAG_PRIMITIVE_ARRAY); apply Hstep.
Qed.

Lemma backWalk_round_returns (data : list byte) (className : string) (testPos : Z) :
  exists r, backWalk_round data className testPos = Ok r.
Proof.
  unfold backWalk_round.
  destruct (parse7BitInt_returns data testPos) as [r ->]. cbn [bind].
  destruct (offset r + value r <=? len data); [|cbn; eauto].
  destruct (endsWith _ className); [|cbn; eauto].
  unfold getUint32, view_bytes.
  destruct ((testPos - 4 <? 0) || (len data <? testPos - 4 + Z.of_nat 4));
    cbn; eauto.
Qed.

Lemma backWalk_returns (n : nat) (data : list byte) (className : string) :
  forall testPos, exists id, backWalk n data className testPos = Ok id.
Proof.
  induction n as [|n IH]; intros testPos; cbn [backWalk]; [eauto|].
  destruct (backWalk_round_returns data className testPos) as [r ->]. cbn [bind].
  destruct r; [eauto|apply IH].
Qed.

Lemma findObjectId_returns (data : list byte) (className : string) (pos : Z) :
  exists id, findObjectId data className pos = Ok id.
Proof.
  unfold findObjectId.
  destruct (backWalk_returns (Z.to_nat (pos - 1 - Z.max (pos - 50) 0 + 1))
              data className (pos - 1)) as [id ->].
  cbn. eauto.
Qed.

(** What the [try] block yields at a candidate: it rejects, or it throws
    because the member count cannot be read, or it accepts a definition
    whose count is the expected one. *)
Lemma candidate_cases (data : list byte) (className : string)
    (expectedFields : list string) (pos : Z) :
  let after := pos + len (TextEncoder_encode className) in
  let n := List.length expectedFields in
  candidate data className expectedFields pos = Ok None \/
  (candidate data className expectedFields pos = Throw RangeError /\
   getUint32 data after = Throw RangeError) \/
  (exists cdef,
     candidate data className expectedFields pos = Ok (Some cdef) /\
     getUint32 data after = Ok (Z.of_nat n) /\
     memberCount cdef = Z.of_nat n /\
     List.length (memberNames cdef) = n /\
     List.length (typeTags cdef) = n /\
     List.length (primTypes cdef) = n).
Proof.
  intros after n. unfold candidate. fold after. fold n.
  unfold getUint32 at 1 3 5. unfold getUint32 at 1 2.
  unfold view_bytes.
  destruct ((after <? 0) || (len data <? after + Z.of_nat 4));
    [right; left; split; reflexivity|].
  cbn [bind]. set (mc := le_value _).
  destruct (Z.eqb_spec mc (Z.of_nat n)) as [Hmc|Hmc]; cbn [negb];
    [|left; reflexivity].
  destruct (parseBfString_returns data (after + 4)) as [r ->]. cbn [bind].
  destruct (same_string (value r) (nth_error expectedFields 0)); cbn [negb];
    [|left; reflexivity].
  destruct (readMemberNames_returns (Z.to_nat mc) data (after + 4) [])
    as [members [off [-> Hmembers]]].
  cbn [bind].
  assert (Htags := readTypeTags_length (Z.to_nat mc) data off []).
  destruct (readTypeTags (Z.to_nat mc) data off []) as [tags off1].
  cbn [fst] in Htags.
  destruct (readTypeInfo_returns tags data off1 []) as [prims [off2 [-> Hprims]]].
  cbn [bind].
  destruct (findObjectId_returns data className pos) as [id ->]. cbn [bind].
  right; right. eexists. split; [reflexivity|].
  cbn [memberCount memberNames typeTags primTypes].
  cbn [List.length] in Hmembers, Htags, Hprims.
  rewrite Hmc, Nat2Z.id in Hmembers, Htags.
  split; [f_equal; exact Hmc|]. split; [exact Hmc|].
  split; [lia|]. split; lia.
Qed.

(** The [try] block neither runs out of fuel nor throws anything but the
    [RangeError] of the count read. *)
Lemma candidate_not_OutOfFuel (data : list byte) (className : string)
    (expectedFields : list string) (pos : Z) :
  candidate data className expectedFields pos <> OutOfFuel.
Proof.
  destruct (candidate_cases data className expectedFields pos)
    as [H|[[H _]|[cdef [H _]]]]; rewrite H; discriminate.
Qed.

(** The scan loop of [findClassDefinition] returns: it neither throws nor
    runs out of fuel. *)
Lemma findClassDefinition_loop_returns :
  forall fuel data className expectedFields pos,
    (Z.to_nat (len data + 1 - pos) < fuel)%nat ->
    exists o, findClassDefinition_loop fuel data className expectedFields pos = Ok o.
Proof.
  induction fuel as [|fuel IH]; intros data className expectedFields pos Hfuel; [lia|].
  cbn [findClassDefinition_loop].
  destruct (findBytes_range data (TextEncoder_encode className) pos) as [->|[Hr _]];
    [cbn; eauto|].
  set (p := findBytes data (TextEncoder_encode className) pos) in *.
  destruct (p =? -1); [eauto|].
  assert (Hl := len_nonneg (TextEncoder_encode className)).
  assert (Hnext : exists o,
             findClassDefinition_loop fuel data className expectedFields (p + 1) = Ok o)
    by (apply IH; lia).
  destruct (candidate_cases data className expectedFields p)
    as [H|[[H _]|[cdef [H _]]]]; rewrite H; eauto.
Qed.

Lemma findClassDefinition_returns (data : list byte) (className : string)
    (expectedFields : list string) (start : Z) :
  exists o, findClassDefinition data className expectedFields start = Ok o.
Proof.
  unfold findClassDefinition. apply findClassDefinition_loop_returns. lia.
Qed.

(** A definition that the loop returns was accepted at a candidate at or
    after the cursor. *)
Lemma findClassDefinition_loop_accepts :
  forall fuel data className expectedFields pos cdef,
    findClassDefinition_loop fuel data className expectedFields pos = Ok (Some cdef) ->
    exists p, pos <= p /\
              matches_at data (TextEncoder_encode className) p = true /\
              candidate data className expectedFields p = Ok (Some cdef).
Proof.
  induction fuel as [|fuel IH]; intros data className expectedFields pos cdef H;
    [discriminate|].
  cbn [findClassDefinition_loop] in H.
  destruct (findBytes_range data (TextEncoder_encode className) pos) as [E|[Hr Hm]].
  { rewrite E in H. cbn in H. discriminate. }
  set (p := findBytes data (TextEncoder_encode className) pos) in *.
  destruct (p =? -1); [discriminate|].
  assert (Hnext :
            findClassDefinition_loop fuel data className expectedFields (p + 1)
            = Ok (Some cdef) ->
            exists p', pos <= p' /\
                       matches_at data (TextEncoder_encode className) p' = true /\
                       candidate data className expectedFields p' = Ok (Some cdef)).
  { intros H'. destruct (IH _ _ _ _ _ H') as [p' [Hp' Hrest]].
    exists p'. split; [lia|exact Hrest]. }
  destruct (candidate data className expectedFields p) as [[c|]|e|] eqn:Hc.
  - injection H as <-. exists p. split; [lia|]. split; [exact Hm|exact Hc].
  - apply Hnext, H.
  - apply Hnext, H.
  - discriminate.
Qed.

(** C3: a definition that [findClassDefinition] returns has the expected
    number of members, and it was accepted at a name match whose 4-byte
    little-endian count is that number; a name match whose count differs
    is rejected by the [try] block, and the scan goes on from the position
    after it. *)
Theorem findClassDefinition_member_count (data : list byte) (className : string)
    (expectedFields : list string) :
  (forall start cdef,
      findClassDefinition data className expectedFields start = Ok (Some cdef) ->
      memberCount cdef = Z.of_nat (List.length expectedFields) /\
      exists p,
        start <= p /\
        matches_at data (TextEncoder_encode className) p = true /\
        getUint32 data (p + len (TextEncoder_encode className))
        = Ok (Z.of_nat (List.length expectedFields)) /\
        candidate data className expectedFields p = Ok (Some cdef)) /\
  (forall fuel pos p mc,
      findBytes data (TextEncoder_encode className) pos = p ->
      p <> -1 ->
      getUint32 data (p + len (TextEncoder_encode className)) = Ok mc ->
      mc <> Z.of_nat (List.length expectedFields) ->
      candidate data className expectedFields p = Ok None /\
      findClassDefinition_loop (S fuel) data className expectedFields pos
      = findClassDefinition_loop fuel data className expectedFields (p + 1)).
Proof.
  split.
  - intros start cdef H. unfold findClassDefinition in H.
    apply findClassDefinition_loop_accepts in H as [p [Hp [Hm Hc]]].
    destruct (candidate_cases data className expectedFields p)
      as [E|[[E _]|[cdef' [E [Hcount [Hmc _]]]]]]; rewrite E in Hc; try discriminate.
    injection Hc as ->. split; [exact Hmc|].
    exists p. repeat split; assumption.
  - intros fuel pos p mc Hp Hne Hcount Hmc.
    assert (Hc : candidate data className expectedFields p = Ok None).
    { unfold candidate. rewrite Hcount. cbn [bind].
      destruct (Z.eqb_spec mc (Z.of_nat (List.length expectedFields))); [contradiction|].
      reflexivity. }
    split; [exact Hc|].
    cbn [findClassDefinition_loop]. rewrite Hp.
    destruct (Z.eqb_spec p (-1)); [contradiction|]. rewrite Hc. reflexivity.
Qed.

Lemma findClassDefinition_member_count_witness :
  memberCount
    {| className := "KilledEnemiesCounterSingleton"; memberCount := 1;
       memberNames := ["value"]; typeTags := [Some x00]; primTypes := [Some x08];
       dataOffset := 78; objectId := 0 |}
  = Z.of_nat (List.length ["value"]) /\
  candidate false_positive_buffer "KilledEnemiesCounterSingleton" ["value"] 0 = Ok None /\
  findClassDefinition_loop 3 false_positive_buffer
    "KilledEnemiesCounterSingleton" ["value"] 0
  = findClassDefinition_loop 2 false_positive_buffer
      "KilledEnemiesCounterSingleton" ["value"] (0 + 1).
Proof.
  destruct (findClassDefinition_member_count false_positive_buffer
              "KilledEnemiesCounterSingleton" ["value"]) as [Haccept Hreject].
  split.
  - refine (proj1 (Haccept 0 _ _)). vm_compute. reflexivity.
  - apply (Hreject 2%nat 0 0 2);
      [vm_compute; reflexivity | discriminate | vm_compute; reflexivity
      | cbn; discriminate].
Defined.

(** ** Header *)

Lemma DIFFICULTY_NAMES_outside (id : Z) :
  ~ 0 <= id <= 4 -> DIFFICULTY_NAMES id = None.
Proof.
  intros H. destruct id as [|p|p]; [lia| |reflexivity].
  destruct p as [[[|[]|]|[|[]|]|]|[[|[]|]|[|[]|]|]|]; try reflexivity; lia.
Qed.

(** C9: in every header that [extractHeader] decodes, a difficulty id
    from 0 to 4 is named by its entry of the five-level table, and any
    other id [n] is named [Unknown(n)]. *)
Theorem extractHeader_difficultyName (datData : list byte) (h : Header) :
  extractHeader datData = Ok (Some h) ->
  (0 <= difficultyId h <= 4 ->
   nth_error difficulty_levels (Z.to_nat (difficultyId h)) = Some (difficultyName h)) /\
  (~ 0 <= difficultyId h <= 4 ->
   difficultyName h = ("Unknown(" ++ String_of_Z (difficultyId h) ++ ")")%string).
Proof.
  unfold extractHeader. intros H.
  destruct (findClassDefinition datData "ProfileSaveHeader" _ 0) as [o1| |];
    try discriminate.
  cbn [bind] in H.
  assert (Hcdef : exists cdef,
    (saveVersion <- getInt32 datData (dataOffset cdef) ;;
     missionId <- getInt32 datData (dataOffset cdef + 4) ;;
     difficultyId <- getInt32 datData (dataOffset cdef + 4 + 4) ;;
     Ok (Some {| saveVersion := saveVersion; missionId := missionId;
                 missionIdName := None; difficultyId := difficultyId;
                 difficultyName :=
                   or_else (DIFFICULTY_NAMES difficultyId)
                     ("Unknown(" ++ String_of_Z difficultyId ++ ")") |}))
    = Ok (Some h)).
  { destruct o1 as [c|].
    - cbn [bind] in H. exists c. exact H.
    - destruct (findClassDefinition datData "UI.ProfileSaveHeader" _ 0) as [[c|]| |];
        try discriminate.
      cbn [bind] in H. exists c. exact H. }
  clear H. destruct Hcdef as [cdef H].
  destruct (getInt32 datData (dataOffset cdef)) as [v| |]; try discriminate.
  cbn [bind] in H.
  destruct (getInt32 datData (dataOffset cdef + 4)) as [m| |]; try discriminate.
  cbn [bind] in H.
  destruct (getInt32 datData (dataOffset cdef + 4 + 4)) as [d| |]; try discriminate.
  cbn [bind] in H. injection H as <-. cbn [difficultyId difficultyName].
  split; intros Hd.
  - assert (Hid : d = 0 \/ d = 1 \/ d = 2 \/ d = 3 \/ d = 4) by lia.
    destruct Hid as [->|[->|[->|[->| ->]]]]; reflexivity.
  - rewrite (DIFFICULTY_NAMES_outside Hd). reflexivity.
Qed.

Lemma extractHeader_difficultyName_witness :
  nth_error difficulty_levels (Z.to_nat 3) = Some "Brutal" /\
  difficultyName
    {| saveVersion := 3; missionId := 12; missionIdName := None;
       difficultyId := 9; difficultyName := "Unknown(9)" |}
  = ("Unknown(" ++ String_of_Z 9 ++ ")")%string.
Proof.
  split.
  - apply (@extractHeader_difficultyName (header_buffer x03)
             {| saveVersion := 3; missionId := 12; missionIdName := None;
                difficultyId := 3; difficultyName := "Brutal" |});
      [vm_compute; reflexivity|cbn; lia].
  - apply (@extractHeader_difficultyName (header_buffer x09)
             {| saveVersion := 3; missionId := 12; missionIdName := None;
                difficultyId := 9; difficultyName := "Unknown(9)" |});
      [vm_compute; reflexivity|cbn; lia].
Defined.

(** ** Durations *)

Lemma two_digits_below_100 (n : Z) :
  0 <= n < 100 -> padStart (String_of_Z n) 2 "0" = two_digits n.
Proof.
  intros Hn.
  assert (Hall : forallb (fun k => String.eqb (padStart (String_of_Z (Z.of_nat k)) 2 "0")
                                              (two_digits (Z.of_nat k)))
                         (seq 0 100) = true) by (vm_compute; reflexivity).
  rewrite forallb_forall in Hall.
  specialize (Hall (Z.to_nat n)). rewrite Z2Nat.id in Hall by lia.
  apply String.eqb_eq, Hall, in_seq. lia.
Qed.

(** ** Binary64 quotients *)

Lemma two_power_Qpower (e : Z) : (two_power e == Qpower (inject_Z 2) e)%Q.
Proof.
  unfold two_power. destruct (Z.ltb_spec e 0) as [He|He].
  - replace e with (- (- e)) at 2 by lia.
    rewrite Qpower_opp, <- Zpower_Qpower by lia.
    assert (Hp : 0 < 2 ^ (- e)) by (apply Z.pow_pos_nonneg; lia).
    unfold Qeq, Qinv, inject_Z. cbn [Qnum Qden].
    destruct (2 ^ (- e)) as [|p|p] eqn:E; try lia.
    cbn [Qnum Qden Z.to_pos]. lia.
  - rewrite Zpower_Qpower by lia. reflexivity.
Qed.

Lemma two_power_pos (e : Z) : (0 < two_power e)%Q.
Proof.
  rewrite two_power_Qpower. apply Qpower_0_lt. reflexivity.
Qed.

Lemma two_power_add (a b : Z) : (two_power (a + b) == two_power a * two_power b)%Q.
Proof.
  rewrite !two_power_Qpower. apply Qpower_plus. discriminate.
Qed.

Lemma two_power_nonneg_Z (e : Z) : 0 <= e -> two_power e = inject_Z (2 ^ e).
Proof.
  intros He. unfold two_power. destruct (Z.ltb_spec e 0); [lia|reflexivity].
Qed.

Lemma ilog2_le (a : Q) : (0 < a)%Q -> (two_power (ilog2 a) <= a)%Q.
Proof.
  intros Ha. unfold ilog2.
  set (lp := Z.log2 (Qnum a)). set (lq := Z.log2 (Zpos (Qden a))).
  destruct (Qle_bool (two_power (lp - lq)) a) eqn:E.
  - apply Qle_bool_iff. exact E.
  - assert (Hp : 0 < Qnum a) by (unfold Qlt in Ha; cbn in Ha; lia).
    assert (Hlp : 2 ^ lp <= Qnum a) by (apply Z.log2_spec; exact Hp).
    assert (Hlq : Zpos (Qden a) < 2 ^ (lq + 1))
      by (replace (lq + 1) with (Z.succ lq) by lia; apply Z.log2_spec; lia).
    assert (Hlq0 : 0 <= lq) by apply Z.log2_nonneg.
    assert (Hlp0 : 0 <= lp) by apply Z.log2_nonneg.
    replace (lp - lq - 1) with (lp + - (lq + 1)) by lia.
    rewrite two_power_add, (two_power_nonneg_Z Hlp0).
    unfold two_power at 1. destruct (Z.ltb_spec (- (lq + 1)) 0); [|lia].
    replace (- - (lq + 1)) with (lq + 1) by lia.
    assert (H2 : 0 < 2 ^ (lq + 1)) by (apply Z.pow_pos_nonneg; lia).
    assert (H1 : 0 < 2 ^ lp) by (apply Z.pow_pos_nonneg; lia).
    destruct a as [p q]. cbn [Qnum Qden] in *.
    unfold Qle, Qmult, inject_Z. cbn [Qnum Qden].
    rewrite Pos2Z.inj_mul, Z2Pos.id by lia. nia.
Qed.

Lemma ilog2_range (a : Q) :
  Z.log2 (Qnum a) - Z.log2 (Zpos (Qden a)) - 1 <= ilog2 a
  <= Z.log2 (Qnum a) - Z.log2 (Zpos (Qden a)).
Proof.
  unfold ilog2. destruct (Qle_bool _ a); lia.
Qed.

Lemma round_half_even_spec (x : Q) :
  (inject_Z (round_half_even x) - (1 # 2) <= x)%Q /\
  (x <= inject_Z (round_half_even x) + (1 # 2))%Q /\
  Qfloor x <= round_half_even x.
Proof.
  unfold round_half_even.
  assert (Hl := Qfloor_le x). assert (Hu := Qlt_floor x).
  rewrite inject_Z_plus in Hu. change (inject_Z 1) with 1%Q in Hu.
  destruct (Qcompare_spec (x - inject_Z (Qfloor x)) (1 # 2)) as [E|E|E].
  - destruct (Z.even (Qfloor x)); rewrite ?inject_Z_plus;
      change (inject_Z 1) with 1%Q; repeat split; try lia; lra.
  - repeat split; try lia; lra.
  - rewrite inject_Z_plus. change (inject_Z 1) with 1%Q. repeat split; try lia; lra.
Qed.

Lemma Qfloor_between (r : Q) (n : Z) :
  (inject_Z n <= r)%Q -> (r < inject_Z (n + 1))%Q -> Qfloor r = n.
Proof.
  intros Hl Hu.
  assert (H1 : n <= Qfloor r).
  { rewrite <- (Qfloor_Z n). apply Qfloor_resp_le. exact Hl. }
  assert (H2 : Qfloor r < n + 1).
  { apply Z.lt_nge. intros H. apply (Qlt_not_le _ _ Hu).
    apply Qle_trans with (inject_Z (Qfloor r)); [|apply Qfloor_le].
    rewrite <- Zle_Qle. exact H. }
  lia.
Qed.

(** A quotient that stays clear of the next integer rounds to a binary64
    with the same floor. *)
Lemma to_binary64_between (x : Q) (n : Z) :
  (0 < x)%Q -> 0 <= n < 2 ^ 53 ->
  (inject_Z n <= x)%Q ->
  (x + x * two_power (-53) < inject_Z (n + 1))%Q ->
  -1022 <= ilog2 (Qabs x) <= 52 ->
  exists r, to_binary64 x = Finite r /\ (inject_Z n <= r)%Q /\ (r < inject_Z (n + 1))%Q.
Proof.
  intros Hx Hn Hl Hu He. unfold to_binary64.
  assert (Hx0 : Qeq_bool x 0 = false).
  { destruct (Qeq_bool x 0) eqn:E; [|reflexivity].
    apply Qeq_bool_iff in E. rewrite E in Hx. discriminate Hx. }
  rewrite Hx0.
  assert (Hsign : (Qnum x <? 0) = false)
    by (unfold Qlt in Hx; cbn in Hx; apply Z.ltb_ge; lia).
  rewrite Hsign.
  assert (Ha : (Qabs x == x)%Q) by (apply Qabs_pos; apply Qlt_le_weak; exact Hx).
  assert (Hlog : (two_power (ilog2 (Qabs x)) <= x)%Q).
  { apply Qle_trans with (Qabs x).
    - apply ilog2_le. apply Qlt_le_trans with x; [exact Hx|apply Qle_Qabs].
    - apply Qle_lteq. right. exact Ha. }
  set (e := ilog2 (Qabs x)) in *.
  replace (Z.max e (-1022)) with e by lia.
  set (ulp := two_power (e - 52)).
  assert (Hulp : (0 < ulp)%Q) by apply two_power_pos.
  set (m := round_half_even (Qabs x / ulp)).
  destruct (round_half_even_spec (Qabs x / ulp)) as [Hm1 [Hm2 Hm3]]. fold m in Hm1, Hm2, Hm3.
  (* the scaled quotient *)
  set (D := two_power (52 - e)).
  assert (HD : (0 < D)%Q) by apply two_power_pos.
  assert (HDulp : (ulp * D == 1)%Q).
  { unfold ulp, D. rewrite <- two_power_add.
    replace (e - 52 + (52 - e)) with 0 by lia. reflexivity. }
  assert (HA : (Qabs x / ulp == x * D)%Q).
  { assert (Hinv : (/ ulp == D)%Q).
    { apply Qmult_inj_l with ulp; [lra|].
      rewrite Qmult_inv_r, HDulp by lra. reflexivity. }
    unfold Qdiv. rewrite Ha, Hinv. reflexivity. }
  rewrite HA in Hm1, Hm2.
  assert (HDz : D = inject_Z (2 ^ (52 - e))) by (apply two_power_nonneg_Z; lia).
  assert (H52 : (two_power 52 <= x * D)%Q).
  { replace 52 with (e + (52 - e)) by lia. rewrite two_power_add. fold D.
    apply Qmult_le_compat_r; [exact Hlog|lra]. }
  assert (Hr : (inject_Z m * ulp * D == inject_Z m)%Q)
    by (rewrite <- Qmult_assoc, HDulp; ring).
  assert (Hlow : (inject_Z n * D <= inject_Z m)%Q).
  { apply Qle_trans with (inject_Z (Qfloor (Qabs x / ulp))); [|rewrite <- Zle_Qle; exact Hm3].
    rewrite HDz, <- inject_Z_mult, <- Zle_Qle, <- (Qfloor_Z (n * 2 ^ (52 - e))).
    apply Qfloor_resp_le. rewrite HA, inject_Z_mult, <- HDz.
    apply Qmult_le_compat_r; [exact Hl|lra]. }
  assert (Hhigh : (inject_Z m < inject_Z (n + 1) * D)%Q).
  { assert (H53 : (two_power (-53) * two_power 52 == 1 # 2)%Q)
      by (rewrite <- two_power_add; reflexivity).
    assert (Hu' : ((x + x * two_power (-53)) * D < inject_Z (n + 1) * D)%Q)
      by (apply Qmult_lt_compat_r; assumption).
    assert (Hhalf : ((1 # 2) <= x * D * two_power (-53))%Q).
    { rewrite <- H53. rewrite (Qmult_comm (x * D)).
      apply Qmult_le_l; [apply two_power_pos|exact H52]. }
    lra. }
  set (r := (inject_Z m * ulp)%Q) in *.
  assert (Hrl : (inject_Z n <= r)%Q).
  { apply Qmult_le_r with D; [exact HD|]. rewrite Hr. exact Hlow. }
  assert (Hrh : (r < inject_Z (n + 1))%Q).
  { apply Qmult_lt_r with D; [exact HD|]. rewrite Hr. exact Hhigh. }
  assert (Hov : Qle_bool (two_power 1024) r = false).
  { destruct (Qle_bool (two_power 1024) r) eqn:E; [|reflexivity].
    apply Qle_bool_iff in E. exfalso.
    assert (H : (inject_Z (n + 1) <= two_power 1024)%Q).
    { rewrite two_power_nonneg_Z by lia. rewrite <- Zle_Qle.
      assert (2 ^ 53 < 2 ^ 1024) by (apply Z.pow_lt_mono_r; lia). lia. }
    lra. }
  rewrite Hov. exists (Qred r). split; [reflexivity|].
  rewrite Qred_correct. split; assumption.
Qed.

Lemma Qfloor_quotient (t : Z) (c : positive) :
  Qfloor (inject_Z t / inject_Z (Zpos c)) = t / Zpos c.
Proof.
  unfold Qdiv, Qmult, Qinv, inject_Z. cbn [Qnum Qden Qfloor].
  rewrite Z.mul_1_r, Pos.mul_1_l. reflexivity.
Qed.

(** Below 2^53 the quotient of an integer by a small constant, rounded to
    binary64, has the floor of the exact quotient. *)
Lemma Math_floor_divided_by (t : Z) (c : positive) :
  0 <= t < 2 ^ 53 -> Zpos c < 2 ^ 12 ->
  Math_floor (divided_by (of_Z t) c) = of_Z (t / Zpos c).
Proof.
  intros Ht Hc. unfold divided_by, of_Z.
  destruct (Z.eq_dec t 0) as [->|Hne]; [reflexivity|].
  set (x := (inject_Z t / inject_Z (Zpos c))%Q).
  assert (Hxc : (x * inject_Z (Zpos c) == inject_Z t)%Q).
  { unfold x, Qdiv. rewrite <- Qmult_assoc, (Qmult_comm (/ _)), Qmult_inv_r by discriminate.
    ring. }
  assert (Hcpos : (0 < inject_Z (Zpos c))%Q) by reflexivity.
  assert (Htq : (0 < inject_Z t)%Q) by (unfold Qlt, inject_Z; cbn [Qnum Qden]; lia).
  assert (Hx : (0 < x)%Q).
  { apply Qmult_lt_r with (inject_Z (Zpos c)); [exact Hcpos|].
    rewrite Hxc. lra. }
  assert (Hfloor := Qfloor_quotient t c). fold x in Hfloor.
  assert (Hl : (inject_Z (t / Zpos c) <= x)%Q) by (rewrite <- Hfloor; apply Qfloor_le).
  assert (Hu : (x + x * two_power (-53) < inject_Z (t / Zpos c + 1))%Q).
  { apply Qmult_lt_r with (inject_Z (Zpos c)); [exact Hcpos|].
    assert (Hnext : (inject_Z t + 1 <= inject_Z (t / Zpos c + 1) * inject_Z (Zpos c))%Q).
    { change 1%Q with (inject_Z 1) at 1.
      rewrite <- inject_Z_plus, <- inject_Z_mult, <- Zle_Qle.
      assert (H := Z.mod_pos_bound t (Zpos c) ltac:(lia)).
      assert (H' := Z.div_mod t (Zpos c) ltac:(lia)). nia. }
    assert (Hlt : (inject_Z t < inject_Z (2 ^ 53))%Q) by (rewrite <- Zlt_Qlt; lia).
    change (two_power (-53)) with (1 # 9007199254740992)%Q.
    change (inject_Z (2 ^ 53)) with (9007199254740992 # 1)%Q in Hlt.
    lra. }
  assert (He : -1022 <= ilog2 (Qabs x) <= 52).
  { assert (Ex : Qabs x = t # c).
    { unfold x, Qdiv, Qmult, Qinv, inject_Z, Qabs. cbn [Qnum Qden].
      rewrite Z.mul_1_r, Pos.mul_1_l, Z.abs_eq by lia. reflexivity. }
    rewrite Ex. assert (H := ilog2_range (t # c)). cbn [Qnum Qden] in H.
    assert (H1 : 0 <= Z.log2 t) by apply Z.log2_nonneg.
    assert (H2 : Z.log2 t < 53) by (apply Z.log2_lt_pow2; lia).
    assert (H3 : 0 <= Z.log2 (Zpos c)) by apply Z.log2_nonneg.
    assert (H4 : Z.log2 (Zpos c) < 12) by (apply Z.log2_lt_pow2; lia).
    lia. }
  assert (Hn : 0 <= t / Zpos c < 2 ^ 53).
  { split; [apply Z.div_pos; lia|].
    apply Z.le_lt_trans with t; [|lia]. apply Z.div_le_upper_bound; nia. }
  destruct (to_binary64_between Hx Hn Hl Hu He) as [r [-> [Hrl Hrh]]].
  cbn [Math_floor]. rewrite (Qfloor_between Hrl Hrh). reflexivity.
Qed.

Lemma Qred_inject_Z (z : Z) : Qred (inject_Z z) = inject_Z z.
Proof.
  unfold Qred, inject_Z.
  generalize (Z.ggcd_gcd z 1) (Z.ggcd_correct_divisors z 1).
  destruct (Z.ggcd z 1) as [g [a b]]. cbn [fst snd].
  rewrite Z.gcd_1_r. intros -> [Ha Hb].
  assert (a = z) as -> by lia. assert (b = 1) as -> by lia. reflexivity.
Qed.

Lemma remainder_of_Z (t : Z) (c : positive) :
  0 <= t -> remainder (of_Z t) c = of_Z (t mod Zpos c).
Proof.
  intros Ht. unfold remainder, of_Z.
  assert (Hd : Qle_bool 0 (inject_Z t / inject_Z (Zpos c)) = true).
  { apply Qle_bool_iff. apply Qle_shift_div_l; [reflexivity|].
    rewrite Qmult_0_l. unfold Qle, inject_Z; cbn [Qnum Qden]; lia. }
  rewrite Hd, Qfloor_quotient. f_equal.
  rewrite <- (Qred_inject_Z (t mod Zpos c)).
  apply Qred_complete.
  unfold Qminus. rewrite <- inject_Z_mult, <- inject_Z_opp, <- inject_Z_plus.
  replace (t + - (t / Zpos c * Zpos c)) with (t mod Zpos c)
    by (rewrite Z.mod_eq by lia; lia).
  reflexivity.
Qed.

Lemma String_of_number_of_Z (z : Z) :
  Z.abs z < 2 ^ 53 -> String_of_number (of_Z z) = String_of_Z z.
Proof.
  intros Hz. unfold String_of_number, of_Z.
  destruct (Qeq_bool (inject_Z z) 0) eqn:E.
  - apply Qeq_bool_iff in E. unfold Qeq in E. cbn in E.
    assert (z = 0) as -> by lia. reflexivity.
  - rewrite Qfloor_Z, Qeq_bool_refl.
    destruct (Z.ltb_spec (Z.abs z) (2 ^ 53)); [reflexivity|lia].
Qed.

(** C8, as the code has it: for a number of seconds from 0 to below 2^53,
    [formatDuration] takes the whole seconds below it and writes the hours
    as they are, then the minutes and the seconds as two digits each;
    125.4 seconds read [0:02:05] and 3661 seconds read [1:01:01]. *)
Theorem formatDuration_spec :
  (forall q : Q,
      (0 <= q)%Q -> (q < inject_Z (2 ^ 53))%Q ->
      let total := Qfloor q in
      (inject_Z total <= q < inject_Z (total + 1))%Q /\
      0 <= total /\
      formatDuration (Finite q)
      = (String_of_Z (total / 3600) ++ ":" ++ two_digits (total / 60 mod 60)
           ++ ":" ++ two_digits (total mod 60))%string) /\
  formatDuration (Finite (Qmake 1254 10)) = "0:02:05" /\
  formatDuration (Finite (Qmake 3661 1)) = "1:01:01".
Proof.
  split; [|split; vm_compute; reflexivity].
  intros q Hq Hq53 total.
  assert (Htotal : 0 <= total).
  { change 0 with (Qfloor 0). apply Qfloor_resp_le. exact Hq. }
  assert (Hbelow : total < 2 ^ 53).
  { rewrite Zlt_Qlt. apply Qle_lt_trans with q; [apply Qfloor_le|exact Hq53]. }
  split; [split; [apply Qfloor_le|apply Qlt_floor]|].
  split; [exact Htotal|].
  unfold formatDuration. cbn [Math_floor]. fold total.
  change (Finite (inject_Z total)) with (of_Z total).
  assert (H3600 := Z.mod_pos_bound total 3600 ltac:(lia)).
  assert (H60 := Z.mod_pos_bound total 60 ltac:(lia)).
  rewrite !remainder_of_Z by lia.
  rewrite !Math_floor_divided_by by (cbn; lia).
  rewrite !String_of_number_of_Z
    by (try (apply Z.abs_lt; split; [|apply Z.le_lt_trans with total; [|lia]]);
        Z.to_euclidean_division_equations; lia).
  replace (total mod 3600 / 60) with (total / 60 mod 60)
    by (Z.to_euclidean_division_equations; lia).
  rewrite !two_digits_below_100
    by (Z.to_euclidean_division_equations; lia).
  reflexivity.
Qed.

Lemma formatDuration_spec_witness :
  formatDuration (Finite (Qmake 7325 1)) = "2:02:05".
Proof.
  destruct formatDuration_spec as [H _].
  destruct (H (Qmake 7325 1)) as [_ [_ E]];
    [vm_compute; discriminate|vm_compute; reflexivity|].
  exact E.
Defined.

(** C8 fails as stated: the seconds that the four bytes 1a 00 61 5c hold
    as a float32 are 253327925716189184, whose whole hours are
    70368868254496, and [formatDuration] writes 70368868254497: the
    quotient by 3600 is rounded to binary64 before [Math.floor]. *)
Lemma formatDuration_rounded_hours :
  let seconds := 253327925716189184 in
  getFloat32 [x1a; x00; x61; x5c] 0 = Ok (of_Z seconds) /\
  seconds / 3600 = 70368868254496 /\
  formatDuration (of_Z seconds) = "70368868254497:59:44".
Proof. vm_compute. repeat split. Qed.

(** ** Field decoding *)

Lemma assign_fresh {A} (o : object A) (key : string) (v : A) :
  ~ In key (map fst o) -> assign o key v = o ++ [(key, v)].
Proof.
  induction o as [|[k w] o IH]; intros Hfresh; cbn [assign app]; [reflexivity|].
  cbn [map fst In] in Hfresh.
  destruct (String.eqb_spec k key) as [->|_]; [tauto|].
  rewrite IH by tauto. reflexivity.
Qed.

Lemma set_property_fresh {A} (o : object A) (key : string) (v : A) :
  key <> "__proto__" -> ~ In key (map fst o) ->
  set_property o key v = o ++ [(key, v)].
Proof.
  intros Hkey Hfresh. unfold set_property.
  destruct (String.eqb_spec key "__proto__"); [contradiction|].
  apply assign_fresh, Hfresh.
Qed.

Lemma at_index_middle (l l' : list (option byte)) (x : option byte) :
  at_index (l ++ x :: l') (List.length l) = x.
Proof.
  unfold at_index. rewrite nth_error_app2 by lia.
  rewrite Nat.sub_diag. reflexivity.
Qed.

Lemma map_fst_combine_firstn {A B} (k : nat) (l : list A) (l' : list B) :
  List.length l' = List.length l ->
  map fst (firstn k (combine l l')) = firstn k l.
Proof.
  revert k l'. induction l as [|a l IH]; intros k l' Hlen.
  - cbn. rewrite !firstn_nil. reflexivity.
  - destruct l' as [|b l']; [discriminate|].
    destruct k as [|k]; [reflexivity|].
    cbn [combine firstn map fst]. f_equal. apply IH.
    cbn in Hlen. lia.
Qed.

Lemma decode_in_order_keys (fields : list (string * option byte)) (data : list byte) :
  forall off result,
    decode_in_order fields data off = Ok result ->
    map fst result = map fst fields.
Proof.
  induction fields as [|[name prim] fields IH]; intros off result H;
    cbn [decode_in_order] in H.
  - injection H as <-. reflexivity.
  - destruct (readPrimitive data off prim) as [r| |]; try discriminate.
    cbn [bind] in H.
    destruct (decode_in_order fields data (offset r)) as [rest| |] eqn:Hrest;
      try discriminate.
    cbn [bind] in H. injection H as <-.
    cbn [map fst]. f_equal. exact (IH _ _ Hrest).
Qed.

(** The field loop, from the index where the names [pn] have been dealt
    with: it decodes, in order, the fields of the longest run of
    [TAG_PRIMITIVE] tags that starts there, and adds them to the result. *)
Lemma readFields_decode (names' : list string) :
  forall tags' prims' pn pt pp cdef data off result,
    typeTags cdef = pt ++ tags' ->
    primTypes cdef = pp ++ prims' ->
    List.length pt = List.length pn ->
    List.length pp = List.length pn ->
    List.length tags' = List.length names' ->
    List.length prims' = List.length names' ->
    NoDup (map fst result ++ names') ->
    ~ In "__proto__" names' ->
    readFields (List.length names') (pn ++ names') cdef data (List.length pn) off result
    = (rest <- decode_in_order
                 (firstn (primitive_prefix tags') (combine names' prims')) data off ;;
       Ok (result ++ rest)).
Proof.
  induction names' as [|name names' IH];
    intros tags' prims' pn pt pp cdef data off result Htags Hprims Hpt Hpp Hlt Hlp Hnd Hproto.
  - cbn [List.length readFields combine]. rewrite firstn_nil.
    cbn [decode_in_order bind]. rewrite app_nil_r. reflexivity.
  - destruct tags' as [|t tags']; [discriminate|].
    destruct prims' as [|p prims']; [discriminate|].
    cbn [List.length readFields primitive_prefix].
    rewrite Htags, Hprims, <- Hpt, at_index_middle.
    destruct (tag_is t TAG_PRIMITIVE); cbn [negb].
    + rewrite Hpt, <- Hpp, at_index_middle, Hpp, nth_middle.
      cbn [combine firstn decode_in_order].
      destruct (readPrimitive data off p) as [r| |]; cbn [bind]; try reflexivity.
      assert (Hfresh : ~ In name (map fst result)).
      { apply NoDup_remove_2 in Hnd. intros Hin. apply Hnd.
        apply in_or_app. left. exact Hin. }
      rewrite set_property_fresh;
        [|intros ->; apply Hproto; left; reflexivity|exact Hfresh].
      replace (pn ++ name :: names') with ((pn ++ [name]) ++ names')
        by (rewrite <- app_assoc; reflexivity).
      replace (S (List.length pn)) with (List.length (pn ++ [name]))
        by (rewrite length_app; cbn; lia).
      rewrite (IH tags' prims' (pn ++ [name]) (pt ++ [t]) (pp ++ [p])).
      * destruct (decode_in_order _ data (offset r)) as [rest| |]; cbn [bind];
          try reflexivity.
        rewrite <- app_assoc. reflexivity.
      * rewrite Htags, <- app_assoc. reflexivity.
      * rewrite Hprims, <- app_assoc. reflexivity.
      * rewrite !length_app. cbn. lia.
      * rewrite !length_app. cbn. lia.
      * cbn in Hlt. lia.
      * cbn in Hlp. lia.
      * rewrite map_app, <- app_assoc. exact Hnd.
      * intros Hin. apply Hproto. right. exact Hin.
    + cbn [firstn decode_in_order bind]. rewrite app_nil_r. reflexivity.
Qed.

(** A definition that [findClassDefinition] returns has one name, one tag
    and one subtype slot per expected field. *)
Lemma findClassDefinition_shape (data : list byte) (className : string)
    (expectedFields : list string) (start : Z) (cdef : ClassDefinition) :
  findClassDefinition data className expectedFields start = Ok (Some cdef) ->
  List.length (memberNames cdef) = List.length expectedFields /\
  List.length (typeTags cdef) = List.length expectedFields /\
  List.length (primTypes cdef) = List.length expectedFields.
Proof.
  intros H. unfold findClassDefinition in H.
  apply findClassDefinition_loop_accepts in H as [p [_ [_ Hc]]].
  destruct (candidate_cases data className expectedFields p)
    as [E|[[E _]|[cdef' [E [_ [_ Hshape]]]]]]; rewrite E in Hc; try discriminate.
  injection Hc as ->. exact Hshape.
Qed.

Lemma achievements_expected_distinct :
  NoDup achievements_expected /\ ~ In "__proto__" achievements_expected.
Proof.
  split.
  - replace achievements_expected with (nodup string_dec achievements_expected)
      by (vm_compute; reflexivity).
    apply NoDup_nodup.
  - cbn. intros H. repeat (destruct H as [H|H]; [discriminate H|]). exact H.
Qed.

(** C5, as the code has it: for a located definition, [extractAchievements]
    reads in order the fields of the longest prefix of the schema whose
    tags are all [TAG_PRIMITIVE], and nothing from the first other tag on.
    When every read succeeds the result holds exactly those fields; when a
    read fails the decoder throws what the read threw. *)
Theorem extractAchievements_primitive_prefix (data : list byte) (cdef : ClassDefinition) :
  findClassDefinition data "AchievementsSaveData" achievements_expected 0
  = Ok (Some cdef) ->
  let k := primitive_prefix (typeTags cdef) in
  extractAchievements data
  = (fields <- decode_in_order
                 (firstn k (combine achievements_expected (primTypes cdef)))
                 data (dataOffset cdef) ;;
     Ok (Some fields)) /\
  (forall fields,
      extractAchievements data = Ok (Some fields) ->
      map fst fields = firstn k achievements_expected).
Proof.
  intros Hfind k.
  destruct (findClassDefinition_shape _ _ _ _ Hfind) as [_ [Htags Hprims]].
  destruct achievements_expected_distinct as [Hnd Hproto].
  assert (Heq : extractAchievements data
                = (fields <- decode_in_order
                               (firstn k (combine achievements_expected (primTypes cdef)))
                               data (dataOffset cdef) ;;
                   Ok (Some fields))).
  { unfold extractAchievements. rewrite Hfind. cbn [bind].
    pose proof (@readFields_decode achievements_expected (typeTags cdef) (primTypes cdef)
                  [] [] [] cdef data (dataOffset cdef) []
                  eq_refl eq_refl eq_refl eq_refl Htags Hprims Hnd Hproto) as Hrf.
    cbn [app] in Hrf. change (List.length (@nil string)) with O in Hrf.
    rewrite Hrf. fold k. destruct (decode_in_order _ data (dataOffset cdef)); reflexivity. }
  split; [exact Heq|].
  intros fields Hres. rewrite Heq in Hres.
  destruct (decode_in_order _ data (dataOffset cdef)) as [r| |] eqn:Hdec;
    try discriminate.
  cbn [bind] in Hres. injection Hres as <-.
  rewrite (decode_in_order_keys _ _ _ Hdec).
  apply map_fst_combine_firstn. exact Hprims.
Qed.

Lemma extractAchievements_primitive_prefix_witness :
  extractAchievements (achievements_buffer x01)
  = Ok (Some [("gatheredGold", Number (of_Z 100));
              ("lastGold", Number (of_Z 5));
              ("siegeMachineWasTrained", Boolean true);
              ("powerUndeadUnitsWasTrained", Boolean false);
              ("portsDestroyed", Number (of_Z 2));
              ("marketPartsDestroyed", Number (of_Z 3))]).
Proof.
  refine (eq_trans
            (proj1 (@extractAchievements_primitive_prefix (achievements_buffer x01)
                      {| className := "AchievementsSaveData"; memberCount := 7;
                         memberNames := achievements_expected;
                         typeTags := [Some x00; Some x00; Some x00; Some x00;
                                      Some x00; Some x00; Some x03];
                         primTypes := [Some x08; Some x08; Some x01; Some x01;
                                       Some x08; Some x08; Some x00];
                         dataOffset := 198; objectId := 0 |} _)) _);
    vm_compute; reflexivity.
Defined.

(** C5 fails as stated: in this buffer the definition is located and its
    first six tags are [TAG_PRIMITIVE], but the third field carries the
    subtype code 3, which [readPrimitive] does not know: the decoder
    throws and produces no field. *)
Lemma extractAchievements_unknown_subtype :
  (exists cdef,
      findClassDefinition (achievements_buffer x03) "AchievementsSaveData"
        achievements_expected 0 = Ok (Some cdef) /\
      primitive_prefix (typeTags cdef) = 6%nat) /\
  extractAchievements (achievements_buffer x03)
  = Throw (Error "Unknown primitive type: 3").
Proof.
  split; [|vm_compute; reflexivity].
  eexists. split; [vm_compute; reflexivity|reflexivity].
Qed.

(** ** Waves *)

Lemma terminates_bind {A B} (c : outcome A) (k : A -> outcome B) :
  terminates c -> (forall a, c = Ok a -> terminates (k a)) -> terminates (bind c k).
Proof.
  unfold terminates. intros Hc Hk. destruct c as [a| |]; cbn [bind].
  - apply Hk. reflexivity.
  - discriminate.
  - contradiction.
Qed.

Lemma terminates_view_bytes (data : list byte) (off : Z) (n : nat) :
  terminates (view_bytes data off n).
Proof.
  unfold terminates, view_bytes.
  destruct ((off <? 0) || (len data <? off + Z.of_nat n)); discriminate.
Qed.

Lemma terminates_getInt32 (data : list byte) (off : Z) : terminates (getInt32 data off).
Proof.
  apply terminates_bind; [apply terminates_view_bytes|]. intros; discriminate.
Qed.

Lemma terminates_getFloat32 (data : list byte) (off : Z) : terminates (getFloat32 data off).
Proof.
  apply terminates_bind; [apply terminates_view_bytes|]. intros; discriminate.
Qed.

Lemma terminates_readPrimitive (data : list byte) (off : Z) (prim : option byte) :
  terminates (readPrimitive data off prim).
Proof.
  unfold readPrimitive, getInt16, getInt32, getBigInt64, getFloat32, getFloat64,
    terminates, view_bytes.
  repeat match goal with
         | |- context [if ?c then _ else _] => destruct c
         end;
    cbn [bind]; discriminate.
Qed.

Lemma terminates_readFields (n : nat) (names : list string) (cdef : ClassDefinition)
    (data : list byte) :
  forall i off result, terminates (readFields n names cdef data i off result).
Proof.
  induction n as [|n IH]; intros i off result; cbn [readFields].
  - discriminate.
  - destruct (negb _); [discriminate|].
    apply terminates_bind; [apply terminates_readPrimitive|]. intros; apply IH.
Qed.

Lemma terminates_readWaveFields_loop (n : nat) (cdef : ClassDefinition)
    (data : list byte) :
  forall i off wave, terminates (readWaveFields_loop n cdef data i off wave).
Proof.
  induction n as [|n IH]; intros i off wave; cbn [readWaveFields_loop].
  - discriminate.
  - destruct (negb _); [discriminate|].
    apply terminates_bind; [apply terminates_readPrimitive|]. intros; apply IH.
Qed.

(** [readWaveFields] returns an object or [null]: its [try] swallows what
    a read throws. *)
Lemma readWaveFields_returns (data : list byte) (off : Z) (cdef : ClassDefinition) :
  exists w, readWaveFields data off cdef = Ok w.
Proof.
  unfold readWaveFields.
  assert (H := @terminates_readWaveFields_loop (List.length (memberNames cdef))
                 cdef data 0 off []).
  destruct (readWaveFields_loop _ cdef data 0 off []); cbn; eauto. contradiction.
Qed.

Lemma readWaves_decoded (offsets : list Z) (data : list byte) (cdef : ClassDefinition) :
  forall waves,
    readWaves offsets data cdef waves
    = Ok (waves ++ flat_map (decoded_wave data cdef) offsets).
Proof.
  induction offsets as [|o offsets IH]; intros waves; cbn [readWaves flat_map].
  - rewrite app_nil_r. reflexivity.
  - unfold decoded_wave at 1.
    destruct (readWaveFields_returns data o cdef) as [w ->]. cbn [bind].
    rewrite IH. destruct w; cbn [push_wave]; [rewrite <- app_assoc|]; reflexivity.
Qed.

(** The array that [extractWaves] builds holds the instances that decode,
    in stream order. *)
Lemma collectWaves_decoded (data : list byte) (cdef : ClassDefinition) :
  collectWaves data cdef = Ok (decoded_waves data cdef).
Proof.
  unfold collectWaves, decoded_waves, back_references. cbn [flat_map].
  unfold decoded_wave at 1.
  destruct (readWaveFields_returns data (dataOffset cdef) cdef) as [w ->].
  cbn [bind]. destruct (objectId cdef =? 0); cbn [negb].
  - cbn [flat_map]. rewrite app_nil_r. destruct w; reflexivity.
  - destruct (findAllClassIdInstances_returns data (objectId cdef) (dataOffset cdef))
      as [l [-> _]].
    cbn [bind]. rewrite readWaves_decoded. destruct w; reflexivity.
Qed.

(** C6: [extractWaves] returns for every buffer.  When the schema is not
    found, or when it is found and no wave instance decodes, the result is
    [null]; a summary is returned only for one instance or more, and its
    [total] is their number, never 0. *)
Theorem extractWaves_no_empty_summary (data : list byte) :
  match findClassDefinition data "WaveHolderSaveData" waves_expected 0 with
  | Ok None => extractWaves data = Ok None
  | Ok (Some cdef) =>
    (decoded_waves data cdef = [] /\ extractWaves data = Ok None) \/
    (decoded_waves data cdef <> [] /\
     exists s, extractWaves data = Ok (Some s) /\
               details s = decoded_waves data cdef /\
               total s = Z.of_nat (List.length (details s)) /\
               0 < total s)
  | _ => False
  end.
Proof.
  unfold extractWaves.
  destruct (findClassDefinition_returns data "WaveHolderSaveData" waves_expected 0)
    as [o ->].
  destruct o as [cdef|]; cbn [bind]; [|reflexivity].
  rewrite collectWaves_decoded. cbn [bind].
  destruct (decoded_waves data cdef) as [|w waves].
  - left. split; reflexivity.
  - right. split; [discriminate|].
    assert (Hcount : 0 < count (w :: waves)) by (unfold count; cbn [List.length]; lia).
    destruct (Z.eqb_spec (count (w :: waves)) 0); [lia|].
    eexists. split; [reflexivity|]. cbn [details total].
    split; [reflexivity|]. split; [reflexivity|exact Hcount].
Qed.

Lemma extractWaves_returns_or_null (data : list byte) :
  extractWaves data = Ok None \/ exists s, extractWaves data = Ok (Some s).
Proof.
  unfold extractWaves.
  destruct (findClassDefinition_returns data "WaveHolderSaveData" waves_expected 0)
    as [o ->].
  destruct o as [cdef|]; cbn [bind]; [|left; reflexivity].
  rewrite collectWaves_decoded. cbn [bind].
  destruct (count (decoded_waves data cdef) =? 0); [left|right]; eauto.
Qed.

(** ** Orchestrator *)

Lemma terminates_findClassDefinition (data : list byte) (className : string)
    (expectedFields : list string) (start : Z) :
  terminates (findClassDefinition data className expectedFields start).
Proof.
  destruct (findClassDefinition_returns data className expectedFields start) as [o ->].
  discriminate.
Qed.

Lemma terminates_findClassIdInstance (data : list byte) (metadataId start : Z) :
  terminates (findClassIdInstance data metadataId start).
Proof.
  destruct (findClassIdInstance_returns data metadataId start) as [o [-> _]].
  discriminate.
Qed.

Lemma terminates_readDay (names : list string) (data : list byte) :
  forall off day, terminates (readDay names data off day).
Proof.
  induction names as [|name names IH]; intros off day; cbn [readDay].
  - discriminate.
  - apply terminates_bind; [apply terminates_getInt32|]. intros; apply IH.
Qed.

Lemma terminates_Ok {A} (a : A) : terminates (Ok a).
Proof. discriminate. Qed.

Ltac terminates_step :=
  first
    [ apply terminates_Ok
    | apply terminates_findClassDefinition
    | apply terminates_findClassIdInstance
    | apply terminates_getInt32
    | apply terminates_getFloat32
    | apply terminates_readDay
    | apply terminates_readFields
    | apply terminates_bind; [|intros ? _]
    | match goal with
      | |- terminates (match ?x with _ => _ end) => destruct x
      end ].

Lemma terminates_extractHeader (datData : list byte) : terminates (extractHeader datData).
Proof. unfold extractHeader. repeat terminates_step. Qed.

Lemma terminates_extractKilledEnemies (data : list byte) :
  terminates (extractKilledEnemies data).
Proof. unfold extractKilledEnemies. repeat terminates_step. Qed.

Lemma terminates_extractSessionTime (data : list byte) :
  terminates (extractSessionTime data).
Proof. unfold extractSessionTime. repeat terminates_step. Qed.

Lemma terminates_extractLedger (className : string) (expected : list string)
    (data : list byte) :
  terminates (extractLedger className expected data).
Proof. unfold extractLedger. repeat terminates_step. Qed.

Lemma terminates_extractAchievements (data : list byte) :
  terminates (extractAchievements data).
Proof. unfold extractAchievements. repeat terminates_step. Qed.

Lemma terminates_extractWaves (data : list byte) : terminates (extractWaves data).
Proof.
  assert (H := extractWaves_returns_or_null data).
  intros E. rewrite E in H. destruct H as [H|[s H]]; discriminate.
Qed.

(** One [try] statement of [parseSaveFiles]. *)
Lemma attempt_spec {A} (tag : string) (decoder : outcome (option A)) (errs : list string) :
  terminates decoder ->
  attempt tag decoder errs = Ok (slot decoder, errs ++ tagged_error tag decoder).
Proof.
  intros H. unfold attempt, slot, tagged_error.
  destruct decoder as [[v|]|e|]; cbn; rewrite ?app_nil_r; try reflexivity.
  contradiction.
Qed.

Lemma slot_left_out {A} (decoder : outcome (option A)) :
  terminates decoder -> left_out_when_null_or_thrown (slot decoder) decoder.
Proof.
  intros H. split; [reflexivity|].
  destruct decoder as [[v|]|e|]; cbn [slot]; split; intros H';
    try reflexivity; try discriminate; eauto.
  - destruct H' as [H'|[e H']]; discriminate.
  - contradiction.
Qed.

Lemma toISOString_valid (t : Z) :
  valid_time t = true -> exists text, toISOString t = Ok text.
Proof.
  intros H. unfold toISOString. rewrite H. cbn [negb].
  destruct (civil_from_days (t / 86400000)) as [[y m] d]. eauto.
Qed.

Lemma toISOString_invalid (t : Z) :
  valid_time t = false -> toISOString t = Throw InvalidDate.
Proof. intros H. unfold toISOString. rewrite H. reflexivity. Qed.

(** What [parseSaveFiles] assembles once both files are read: the seven
    decoders have run, and the two dates are still to be written. *)
Lemma parseSaveFiles_assembled (now : Z) (saveFile datFile : File)
    (saveData datData : list byte) :
  arrayBuffer saveFile = Resolved saveData ->
  arrayBuffer datFile = Resolved datData ->
  let errs :=
    tagged_error "header: " (extractHeader datData)
    ++ tagged_error "enemiesKilled: " (extractKilledEnemies saveData)
    ++ tagged_error "sessionTime: " (extractSessionTime saveData)
    ++ tagged_error "resources: " (extractResources saveData)
    ++ tagged_error "undeadResources: " (extractUndeadResources saveData)
    ++ tagged_error "achievements: " (extractAchievements saveData)
    ++ tagged_error "waves: " (extractWaves saveData) in
  parseSaveFiles now saveFile datFile
  = (modified <- toISOString (lastModified saveFile) ;;
     extracted <- toISOString now ;;
     Ok {| extractorVersion := "browser-1.0";
           extractedAt := extracted;
           missionMap := None;
           profiles :=
             [{| profile_name := "Uploaded Save";
                 isActive := true;
                 profileData := {| completedMissionsData := []; campaignProfiles := [] |};
                 saves :=
                   [{| fileName := name saveFile;
                       fileSize := size saveFile;
                       entry_lastModified := modified;
                       statistics :=
                         {| stat_enemiesKilled := slot (extractKilledEnemies saveData);
                            stat_sessionTime := slot (extractSessionTime saveData);
                            stat_resources := slot (extractResources saveData);
                            stat_undeadResources := slot (extractUndeadResources saveData);
                            stat_achievements := slot (extractAchievements saveData);
                            stat_waves := slot (extractWaves saveData) |};
                       header := slot (extractHeader datData);
                       errors := match errs with [] => None | _ => Some errs end |}] |}] |}).
Proof.
  intros Hsave Hdat errs.
  assert (Hh := terminates_extractHeader datData).
  assert (Hk := terminates_extractKilledEnemies saveData).
  assert (Ht := terminates_extractSessionTime saveData).
  assert (Hr : terminates (extractResources saveData))
    by apply terminates_extractLedger.
  assert (Hu : terminates (extractUndeadResources saveData))
    by apply terminates_extractLedger.
  assert (Ha := terminates_extractAchievements saveData).
  assert (Hw := terminates_extractWaves saveData).
  unfold parseSaveFiles. rewrite Hsave, Hdat. cbn [await_all bind].
  rewrite (attempt_spec _ _ Hh). cbn [bind].
  rewrite (attempt_spec _ _ Hk). cbn [bind].
  rewrite (attempt_spec _ _ Ht). cbn [bind].
  rewrite (attempt_spec _ _ Hr). cbn [bind].
  rewrite (attempt_spec _ _ Hu). cbn [bind].
  rewrite (attempt_spec _ _ Ha). cbn [bind].
  rewrite (attempt_spec _ _ Hw). cbn [bind].
  rewrite <- !app_assoc. cbn [app]. fold errs. reflexivity.
Qed.

(** C4, as the code has it.  With a clock that reads a valid time,
    [parseSaveFiles] throws when the read of a file is rejected; once both
    files are read it runs the seven decoders, and then throws if the
    modification time of the save file is not a valid time value, and
    returns otherwise.  A decoder that throws adds one string to the
    errors, its name followed by the message, and stops no other decoder;
    the key of a decoder is left out of the output exactly when the
    decoder returned [null] or threw; and the errors are in the output
    only when there is one. *)
Theorem parseSaveFiles_partial_success (now : Z) (saveFile datFile : File) :
  valid_time now = true ->
  match arrayBuffer saveFile, arrayBuffer datFile with
  | Resolved saveData, Resolved datData =>
    let errs :=
      tagged_error "header: " (extractHeader datData)
      ++ tagged_error "enemiesKilled: " (extractKilledEnemies saveData)
      ++ tagged_error "sessionTime: " (extractSessionTime saveData)
      ++ tagged_error "resources: " (extractResources saveData)
      ++ tagged_error "undeadResources: " (extractUndeadResources saveData)
      ++ tagged_error "achievements: " (extractAchievements saveData)
      ++ tagged_error "waves: " (extractWaves saveData) in
    if valid_time (lastModified saveFile) then
      exists report entry,
        parseSaveFiles now saveFile datFile = Ok report /\
        map saves (profiles report) = [[entry]] /\
        left_out_when_null_or_thrown (header entry) (extractHeader datData) /\
        left_out_when_null_or_thrown (stat_enemiesKilled (statistics entry))
          (extractKilledEnemies saveData) /\
        left_out_when_null_or_thrown (stat_sessionTime (statistics entry))
          (extractSessionTime saveData) /\
        left_out_when_null_or_thrown (stat_resources (statistics entry))
          (extractResources saveData) /\
        left_out_when_null_or_thrown (stat_undeadResources (statistics entry))
          (extractUndeadResources saveData) /\
        left_out_when_null_or_thrown (stat_achievements (statistics entry))
          (extractAchievements saveData) /\
        left_out_when_null_or_thrown (stat_waves (statistics entry))
          (extractWaves saveData) /\
        errors entry = match errs with [] => None | _ => Some errs end /\
        errors entry <> Some []
    else parseSaveFiles now saveFile datFile = Throw InvalidDate
  | _, _ =>
    exists e, (arrayBuffer saveFile = Rejected e \/ arrayBuffer datFile = Rejected e) /\
              parseSaveFiles now saveFile datFile = Throw e
  end.
Proof.
  intros Hnow.
  destruct (arrayBuffer saveFile) as [saveData|e] eqn:Hsave.
  - destruct (arrayBuffer datFile) as [datData|e] eqn:Hdat.
    + intros errs. rewrite (parseSaveFiles_assembled now _ _ Hsave Hdat).
      destruct (valid_time (lastModified saveFile)) eqn:Hmod.
      * destruct (toISOString_valid _ Hmod) as [modified ->].
        destruct (toISOString_valid _ Hnow) as [extracted ->]. cbn [bind].
        do 2 eexists. split; [reflexivity|].
        cbn [profiles saves map statistics header errors stat_enemiesKilled
             stat_sessionTime stat_resources stat_undeadResources stat_achievements
             stat_waves].
        split; [reflexivity|].
        repeat (split; [apply slot_left_out;
                        first [ apply terminates_extractHeader
                              | apply terminates_extractKilledEnemies
                              | apply terminates_extractSessionTime
                              | apply terminates_extractLedger
                              | apply terminates_extractAchievements
                              | apply terminates_extractWaves ]|]).
        fold errs. split; [reflexivity|]. destruct errs; discriminate.
      * rewrite (toISOString_invalid _ Hmod). reflexivity.
    + exists e. split; [right; reflexivity|].
      unfold parseSaveFiles. rewrite Hsave, Hdat. reflexivity.
  - exists e. split; [left; reflexivity|].
    unfold parseSaveFiles. rewrite Hsave. reflexivity.
Qed.

Lemma parseSaveFiles_partial_success_witness :
  exists report entry,
    parseSaveFiles 0 (sample_file kill_truncated_buffer) (sample_file []) = Ok report /\
    map saves (profiles report) = [[entry]] /\
    left_out_when_null_or_thrown (stat_enemiesKilled (statistics entry))
      (extractKilledEnemies kill_truncated_buffer).
Proof.
  destruct (@parseSaveFiles_partial_success 0 (sample_file kill_truncated_buffer)
              (sample_file []) eq_refl)
    as [report [entry [Hr [Hs [_ [Hk _]]]]]].
  exists report, entry. split; [exact Hr|]. split; [exact Hs|exact Hk].
Defined.

(** C4 fails as stated: the kill counter of this buffer is located and its
    value lies past the end, so its decoder throws and does not return
    [null]; its key is left out of the statistics all the same. *)
Lemma parseSaveFiles_leaves_out_thrown :
  extractKilledEnemies kill_truncated_buffer = Throw RangeError /\
  exists report entry,
    parseSaveFiles 0 (sample_file kill_truncated_buffer) (sample_file []) = Ok report /\
    map saves (profiles report) = [[entry]] /\
    stat_enemiesKilled (statistics entry) = None /\
    errors entry = Some ["enemiesKilled: Offset is outside the bounds of the DataView"].
Proof.
  split; [vm_compute; reflexivity|].
  do 2 eexists. split; [vm_compute; reflexivity|].
  repeat split.
Qed.

(** ** Worked examples *)

(** A kill counter of 1234 behind a false positive of its name. *)
Example extractKilledEnemies_sample :
  extractKilledEnemies false_positive_buffer = Ok (Some 1234).
Proof. vm_compute. reflexivity. Qed.

(** Both snapshots of a ledger whose last day is a back-reference to
    object 7. *)
Example extractResources_sample :
  extractResources resources_buffer
  = Ok (Some {| currentDay :=
                  [("foodByFarms", 10); ("foodByFishers", 20);
                   ("foodByBerrypickers", 30); ("wood", 40); ("treesCutted", 50);
                   ("treesPlanted", 60); ("stone", 70); ("iron", 80);
                   ("woodConsuming", 90); ("ironConsuming", 100)];
                lastDay :=
                  Some [("foodByFarms", 11); ("foodByFishers", 21);
                        ("foodByBerrypickers", 31); ("wood", 41); ("treesCutted", 51);
                        ("treesPlanted", 61); ("stone", 71); ("iron", 81);
                        ("woodConsuming", 91); ("ironConsuming", 101)] |}).
Proof. vm_compute. reflexivity. Qed.

(** Two waves in stream order, one destroyed and one major. *)
Example extractWaves_sample :
  exists s, extractWaves waves_buffer = Ok (Some s) /\
            total s = 2 /\ destroyed s = 1 /\ majorWaves s = 1 /\
            map (fun w => property w "waveId") (details s)
            = [Some (Number (of_Z 1)); Some (Number (of_Z 2))].
Proof. eexists. split; [vm_compute; reflexivity|]. repeat split. Qed.

(** An empty save and an empty header: nothing is found, and nothing is
    an error. *)
Example parseSaveFiles_empty :
  exists report entry,
    parseSaveFiles 1700000000000 (sample_file []) (sample_file []) = Ok report /\
    extractedAt report = "2023-11-14T22:13:20.000Z" /\
    map saves (profiles report) = [[entry]] /\
    entry_lastModified entry = "1970-01-01T00:00:00.000Z" /\
    header entry = None /\ errors entry = None /\
    stat_waves (statistics entry) = None.
Proof. do 2 eexists. split; [vm_compute; reflexivity|]. repeat split. Qed.

(** A modification time past the last valid date: the decoders run, and
    the extraction is lost to the [RangeError] of [toISOString]. *)
Example parseSaveFiles_invalid_date :
  parseSaveFiles 0
    {| name := "save"; size := 0; lastModified := 8640000000000001;
       arrayBuffer := Resolved [] |}
    (sample_file [])
  = Throw InvalidDate.
Proof. vm_compute. reflexivity. Qed.

(** The first and the last date that [toISOString] writes. *)
Example toISOString_range :
  toISOString (-8640000000000000) = Ok "-271821-04-20T00:00:00.000Z" /\
  toISOString 8640000000000000 = Ok "+275760-09-13T00:00:00.000Z" /\
  toISOString 8640000000000001 = Throw InvalidDate.
Proof. vm_compute. repeat split. Qed.

(** Numbers as [String] writes them. *)
Example String_of_number_samples :
  String_of_number (of_Z (2 ^ 64)) = "18446744073709552000" /\
  String_of_number (of_Z (10 ^ 21)) = "1e+21" /\
  String_of_number (to_binary64 (1 # 10)) = "0.1" /\
  String_of_number (to_binary64 (-(15 # 10))) = "-1.5" /\
  formatDuration (of_Z (2 ^ 127)) = "4.726143985013034e+34:02:08" /\
  formatDuration (Infinity false) = "Infinity:NaN:NaN".
Proof. vm_compute. repeat split. Qed.


(** * Further properties of the parser *)

(** ** Integers and bytes *)

Lemma u8_range (b : byte) : 0 <= u8 b < 256.
Proof.
  unfold u8. assert (H := Byte.to_N_bounded b). lia.
Qed.

Lemma u8_byte_of_Z (z : Z) : u8 (byte_of_Z z) = z mod 256.
Proof.
  unfold byte_of_Z, u8.
  assert (Hz : 0 <= z mod 256 < 256) by (apply Z.mod_pos_bound; lia).
  destruct (Byte.of_N (Z.to_N (z mod 256))) as [b|] eqn:Hb.
  - apply Byte.to_of_N in Hb. rewrite Hb. lia.
  - apply Byte.of_N_None_iff in Hb. lia.
Qed.

Lemma ToInt32_small (z : Z) : - 2 ^ 31 <= z < 2 ^ 31 -> ToInt32 z = z.
Proof. intros H. unfold ToInt32. rewrite Z.mod_small; lia. Qed.

Lemma ToInt32_range (z : Z) : - 2 ^ 31 <= ToInt32 z < 2 ^ 31.
Proof.
  unfold ToInt32. assert (H := Z.mod_pos_bound (z + 2 ^ 31) (2 ^ 32) ltac:(lia)). lia.
Qed.

Lemma low7 (b : byte) : js_and (u8 b) 0x7F = u8 b mod 128.
Proof. destruct b; reflexivity. Qed.

Lemma high_bit (b : byte) : (js_and (u8 b) 0x80 =? 0) = (u8 b <? 128).
Proof. destruct b; reflexivity. Qed.

Lemma js_shl_small (x s : Z) :
  0 <= s < 32 -> 0 <= x -> x * 2 ^ s < 2 ^ 31 -> js_shl x s = x * 2 ^ s.
Proof.
  intros Hs Hx Hlt. unfold js_shl.
  assert (Hp : 0 < 2 ^ s) by (apply Z.pow_pos_nonneg; lia).
  assert (Hx' : x < 2 ^ 31) by nia.
  rewrite (@ToInt32_small x) by lia.
  rewrite Z.mod_small by lia.
  rewrite Z.shiftl_mul_pow2 by lia.
  apply ToInt32_small. nia.
Qed.

Lemma land_low_high (a c s : Z) :
  0 <= s -> 0 <= a < 2 ^ s -> Z.land a (c * 2 ^ s) = 0.
Proof.
  intros Hs Ha. apply Z.bits_inj'. intros n Hn.
  rewrite Z.land_spec, Z.bits_0.
  destruct (Z.lt_ge_cases n s) as [Hlt|Hge].
  - rewrite Z.mul_pow2_bits_low by lia. apply andb_false_r.
  - destruct (Z.eq_dec a 0) as [->|Hne]; [rewrite Z.bits_0; reflexivity|].
    rewrite (Z.bits_above_log2 a n); [reflexivity|lia|].
    apply Z.lt_le_trans with s; [|exact Hge].
    apply Z.log2_lt_pow2; lia.
Qed.

Lemma js_or_disjoint (a c s : Z) :
  0 <= s -> 0 <= a < 2 ^ s -> 0 <= c -> a + c * 2 ^ s < 2 ^ 31 ->
  js_or a (c * 2 ^ s) = a + c * 2 ^ s.
Proof.
  intros Hs Ha Hc Hlt. unfold js_or.
  assert (Hp : 0 < 2 ^ s) by (apply Z.pow_pos_nonneg; lia).
  rewrite !ToInt32_small by nia.
  rewrite <- Z.add_lor_land, land_low_high by lia. lia.
Qed.

Lemma int32_shiftr (x : Z) :
  - 2 ^ 31 <= x < 2 ^ 31 <-> Z.shiftr x 31 = 0 \/ Z.shiftr x 31 = -1.
Proof.
  rewrite Z.shiftr_div_pow2 by lia.
  change (2 ^ 31) with 2147483648.
  split; intros H; Z.to_euclidean_division_equations; lia.
Qed.

Lemma lor_int32 (a b : Z) :
  - 2 ^ 31 <= a < 2 ^ 31 -> - 2 ^ 31 <= b < 2 ^ 31 ->
  - 2 ^ 31 <= Z.lor a b < 2 ^ 31.
Proof.
  intros Ha Hb. apply int32_shiftr in Ha, Hb. apply int32_shiftr.
  rewrite Z.shiftr_lor.
  destruct Ha as [-> | ->], Hb as [-> | ->]; cbn; auto.
Qed.

Lemma js_or_range (a b : Z) : - 2 ^ 31 <= js_or a b < 2 ^ 31.
Proof. unfold js_or. apply lor_int32; apply ToInt32_range. Qed.

Lemma get_in_range (data : list byte) (off : Z) (b : byte) :
  get data off = Some b -> 0 <= off < len data.
Proof.
  unfold get. destruct (Z.ltb_spec off 0) as [?|Hoff]; [discriminate|]. intros Hn.
  assert (Hlt : (Z.to_nat off < List.length data)%nat)
    by (apply nth_error_Some; congruence).
  unfold len. lia.
Qed.

Lemma parse7BitInt_loop_progress :
  forall fuel data result shift off r,
    parse7BitInt_loop fuel data result shift off = Ok r ->
    (off < offset r <= Z.max off (len data) + 1) /\
    - 2 ^ 31 <= value r < 2 ^ 31.
Proof.
  induction fuel as [|fuel IH]; intros data result shift off r H; [discriminate|].
  cbn [parse7BitInt_loop] in H.
  destruct (js_and (int_of_elem (get data off)) 128 =? 0) eqn:Hb.
  - injection H as <-. cbn [offset value]. split; [lia|apply js_or_range].
  - apply IH in H as [Hoff Hval]. split; [|exact Hval].
    destruct (get data off) as [b|] eqn:Hget; [|cbn in Hb; discriminate].
    apply get_in_range in Hget. lia.
Qed.

(** X1: a decode moves forward.  The next offset of [parse7BitInt] lies
    past the offset it was given and at most one past the end of the
    buffer (or one past the given offset, when that lies outside), and the
    value is a signed 32-bit integer. *)
Theorem parse7BitInt_progress (data : list byte) (off : Z) :
  exists r, parse7BitInt data off = Ok r /\
            off < offset r <= Z.max off (len data) + 1 /\
            - 2 ^ 31 <= value r < 2 ^ 31.
Proof.
  destruct (parse7BitInt_returns data off) as [r Hr].
  exists r. split; [exact Hr|].
  unfold parse7BitInt in Hr. exact (parse7BitInt_loop_progress _ _ _ _ _ Hr).
Qed.

Lemma skipn_len_app (pre rest : list byte) :
  skipn (Z.to_nat (len pre)) (pre ++ rest) = rest.
Proof.
  unfold len. rewrite Nat2Z.id, skipn_app, Nat.sub_diag, skipn_all. reflexivity.
Qed.

Lemma len_app (l l' : list byte) : len (l ++ l') = len l + len l'.
Proof. unfold len. rewrite length_app. lia. Qed.

(** The loop on the bytes that [write7BitInt_groups] wrote: it gathers the
    groups back, from [shift] on. *)
Lemma parse7BitInt_loop_write (n : nat) :
  forall v data result shift off fuel post,
    0 <= off ->
    skipn (Z.to_nat off) data = write7BitInt_groups n v ++ post ->
    0 <= shift -> shift + 7 * Z.of_nat n = 28 ->
    0 <= result < 2 ^ shift ->
    0 <= v < 2 ^ (31 - shift) ->
    (List.length (write7BitInt_groups n v) <= fuel)%nat ->
    parse7BitInt_loop fuel data result shift off
    = Ok {| value := result + v * 2 ^ shift;
            offset := off + len (write7BitInt_groups n v) |}.
Proof.
  assert (Hlast : forall v data result shift off fuel rest,
             0 <= off ->
             skipn (Z.to_nat off) data = byte_of_Z v :: rest ->
             0 <= shift <= 28 ->
             0 <= result < 2 ^ shift ->
             0 <= v < 2 ^ (31 - shift) -> v < 128 ->
             parse7BitInt_loop (S fuel) data result shift off
             = Ok {| value := result + v * 2 ^ shift; offset := off + 1 |}).
  { intros v data result shift off fuel rest Hoff Hs Hshift Hres Hv Hv7.
    destruct (get_skipn_cons _ Hoff Hs) as [Hget _].
    assert (Hp : 0 < 2 ^ shift) by (apply Z.pow_pos_nonneg; lia).
    assert (Hq : 2 ^ (31 - shift) * 2 ^ shift = 2 ^ 31)
      by (rewrite <- Z.pow_add_r by lia; f_equal; lia).
    cbn [parse7BitInt_loop]. rewrite Hget. cbn [int_of_elem].
    rewrite high_bit, low7, u8_byte_of_Z.
    rewrite (Z.mod_small v 256) by lia. rewrite (Z.mod_small v 128) by lia.
    destruct (Z.ltb_spec v 128); [|lia].
    rewrite js_shl_small by (try lia; nia).
    rewrite js_or_disjoint by (try lia; nia). reflexivity. }
  induction n as [|n IH];
    intros v data result shift off fuel post Hoff Hs Hshift Hn Hres Hv Hfuel.
  - cbn [write7BitInt_groups] in *. destruct fuel as [|fuel]; [cbn in Hfuel; lia|].
    change (len [byte_of_Z v]) with 1.
    apply (Hlast v data result shift off fuel post); try assumption; try lia.
    replace shift with 28 in Hv by lia. cbn in Hv. lia.
  - cbn [write7BitInt_groups] in *.
    destruct (Z.ltb_spec v 128) as [Hv7|Hv7].
    + destruct fuel as [|fuel]; [cbn in Hfuel; lia|].
      change (len [byte_of_Z v]) with 1.
      apply (Hlast v data result shift off fuel post); try assumption; lia.
    + destruct fuel as [|fuel]; [cbn in Hfuel; lia|].
      cbn [app] in Hs. destruct (get_skipn_cons _ Hoff Hs) as [Hget Hs'].
      assert (Hp : 0 < 2 ^ shift) by (apply Z.pow_pos_nonneg; lia).
      assert (Hq : 2 ^ (31 - shift) * 2 ^ shift = 2 ^ 31)
        by (rewrite <- Z.pow_add_r by lia; f_equal; lia).
      assert (Hp7 : 2 ^ (shift + 7) = 128 * 2 ^ shift)
        by (rewrite Z.pow_add_r by lia; lia).
      assert (Hq7 : 2 ^ (31 - shift) = 128 * 2 ^ (31 - (shift + 7))).
      { replace (31 - shift) with (7 + (31 - (shift + 7))) by lia.
        rewrite Z.pow_add_r by lia.
        replace (7 + (31 - (shift + 7)) - (shift + 7)) with (31 - shift - (shift + 7))
          by lia. reflexivity. }
      assert (Hm : 0 <= v mod 128 < 128) by (apply Z.mod_pos_bound; lia).
      assert (Hd : v = 128 * (v / 128) + v mod 128) by (apply Z.div_mod; lia).
      cbn [parse7BitInt_loop]. rewrite Hget. cbn [int_of_elem].
      rewrite high_bit, low7, u8_byte_of_Z.
      rewrite (Z.mod_small (v mod 128 + 128) 256) by lia.
      replace ((v mod 128 + 128) mod 128) with (v mod 128)
        by (symmetry; replace (v mod 128 + 128) with (v mod 128 + 1 * 128) by lia;
            rewrite Z.mod_add by lia; apply Z.mod_mod; lia).
      destruct (Z.ltb_spec (v mod 128 + 128) 128); [lia|].
      rewrite js_shl_small by (try lia; nia).
      rewrite js_or_disjoint by (try lia; nia).
      assert (Hv' : 0 <= v / 128 < 2 ^ (31 - (shift + 7)))
        by (split; [apply Z.div_pos; lia|apply Z.div_lt_upper_bound; lia]).
      rewrite (IH (v / 128) data _ (shift + 7) (off + 1) fuel post);
        try assumption; try lia.
      * rewrite len_cons. f_equal. f_equal; [|lia].
        assert (E : v * 2 ^ shift = (128 * (v / 128) + v mod 128) * 2 ^ shift)
          by (rewrite <- Hd; reflexivity).
        rewrite E, Hp7. ring.
      * rewrite Hp7. nia.
      * cbn [List.length] in Hfuel. lia.
Qed.

Lemma parse7BitInt_write7BitInt_aux (pre post : list byte) (v : Z) :
  0 <= v < 2 ^ 31 ->
  parse7BitInt (pre ++ write7BitInt v ++ post) (len pre)
  = Ok {| value := v; offset := len pre + len (write7BitInt v) |}.
Proof.
  intros Hv. unfold parse7BitInt, write7BitInt.
  rewrite (@parse7BitInt_loop_write 4 v _ 0 0 (len pre) _ post);
    try lia.
  - do 2 f_equal. lia.
  - apply len_nonneg.
  - apply skipn_len_app.
  - rewrite !length_app. lia.
Qed.

(** X2: reading back what was written.  For every value from 0 to
    2^31 - 1, [parse7BitInt] at the start of its 7-bit encoding, whatever
    lies before and after, returns the value and the offset of the end of
    the encoding. *)
Theorem parse7BitInt_write7BitInt (pre post : list byte) (v : Z) :
  0 <= v < 2 ^ 31 ->
  parse7BitInt (pre ++ write7BitInt v ++ post) (len pre)
  = Ok {| value := v; offset := len pre + len (write7BitInt v) |}.
Proof.
  apply parse7BitInt_write7BitInt_aux.
Qed.

Lemma parse7BitInt_write7BitInt_witness :
  parse7BitInt ([x00] ++ write7BitInt 300 ++ [xff]) (len [x00])
  = Ok {| value := 300; offset := 1 + 2 |}.
Proof. apply (@parse7BitInt_write7BitInt [x00] [xff] 300). lia. Defined.

(** ** Text *)

Lemma Utf8_run_ascii (l : list byte) :
  Forall (fun b => u8 b < 128) l -> Utf8.run l None = l.
Proof.
  induction 1 as [|b l Hb Hl IH]; cbn [Utf8.run]; [reflexivity|].
  unfold Utf8.lead. destruct (Z.leb_spec (u8 b) 127); [|lia].
  cbn [app]. rewrite IH. reflexivity.
Qed.

Lemma Utf8_strip_bom_ascii (l : list byte) :
  Forall (fun b => u8 b < 128) l -> Utf8.strip_bom l = l.
Proof.
  intros H. destruct l as [|b l]; [reflexivity|].
  inversion H as [|? ? Hb _]; subst.
  destruct b; try reflexivity. vm_compute in Hb. discriminate.
Qed.

(** Decoding the bytes of a string of 7-bit characters gives the string
    back. *)
Lemma TextDecoder_decode_encode (s : string) :
  is_ascii s -> TextDecoder_decode (TextEncoder_encode s) = s.
Proof.
  intros H. unfold TextDecoder_decode, Utf8.decode, is_ascii in *.
  rewrite Utf8_strip_bom_ascii, Utf8_run_ascii by assumption.
  apply string_of_list_byte_of_string.
Qed.

Lemma subarray_middle (pre mid post : list byte) :
  subarray (pre ++ mid ++ post) (len pre) (len pre + len mid) = mid.
Proof.
  assert (Hp := len_nonneg pre). assert (Hm := len_nonneg mid).
  assert (Hq := len_nonneg post).
  unfold subarray, relative_index. rewrite !len_app.
  destruct (Z.ltb_spec (len pre) 0); [lia|].
  destruct (Z.ltb_spec (len pre + len mid) 0); [lia|].
  rewrite !Z.min_l by lia.
  rewrite skipn_len_app.
  replace (Z.to_nat (Z.max (len pre + len mid - len pre) 0)) with (List.length mid)
    by (unfold len; lia).
  rewrite firstn_app, Nat.sub_diag, firstn_all. cbn. apply app_nil_r.
Qed.

(** X3: reading back a string.  For a string of 7-bit characters shorter
    than 2^31 bytes, [parseBfString] at the start of its length-prefixed
    form, whatever lies before and after, returns the string and the offset
    of the end of the form. *)
Theorem parseBfString_writeBfString (pre post : list byte) (s : string) :
  is_ascii s ->
  len (TextEncoder_encode s) < 2 ^ 31 ->
  parseBfString (pre ++ writeBfString s ++ post) (len pre)
  = Ok {| value := s; offset := len pre + len (writeBfString s) |}.
Proof.
  intros Hascii Hlen. unfold parseBfString, writeBfString.
  rewrite <- app_assoc.
  rewrite parse7BitInt_write7BitInt_aux
    by (split; [apply len_nonneg|exact Hlen]).
  cbn [bind value offset].
  set (w := write7BitInt (len (TextEncoder_encode s))).
  replace (pre ++ w ++ TextEncoder_encode s ++ post)
    with ((pre ++ w) ++ TextEncoder_encode s ++ post)
    by (rewrite <- app_assoc; reflexivity).
  rewrite <- len_app, subarray_middle, TextDecoder_decode_encode by assumption.
  rewrite !len_app. do 2 f_equal. lia.
Qed.

Lemma parseBfString_writeBfString_witness :
  parseBfString ([xff] ++ writeBfString "value" ++ [x00; x08]) (len [xff])
  = Ok {| value := "value"; offset := 1 + 6 |}.
Proof.
  apply (@parseBfString_writeBfString [xff] [x00; x08] "value").
  - repeat constructor.
  - vm_compute. reflexivity.
Defined.

(** ** Byte search *)

Lemma skipn_cons_get (data : list byte) (i : Z) (b : byte) :
  get data i = Some b ->
  skipn (Z.to_nat i) data = b :: skipn (Z.to_nat (i + 1)) data.
Proof.
  intros H. assert (Hi := get_in_range _ _ H). unfold get in H.
  destruct (Z.ltb_spec i 0); [lia|].
  replace (Z.to_nat (i + 1)) with (S (Z.to_nat i)) by lia.
  remember (Z.to_nat i) as n eqn:Hn. clear Hn Hi.
  revert data H. induction n as [|n IH]; intros data H.
  - destruct data; [discriminate|]. cbn in H. injection H as ->. reflexivity.
  - destruct data as [|c data]; [discriminate|]. cbn [nth_error] in H.
    cbn [skipn]. apply IH, H.
Qed.

(** The inner loop of [findBytes] finds no difference exactly when the
    needle sits at the index. *)
Lemma matches_at_occurs (needle : list byte) :
  forall data i, 0 <= i ->
    matches_at data needle i = true <-> occurs_at data needle i.
Proof.
  induction needle as [|c needle IH]; intros data i Hi; cbn [matches_at].
  - unfold occurs_at. cbn. tauto.
  - unfold occurs_at. cbn [List.length]. split.
    + destruct (get data i) as [b|] eqn:Hget; [|discriminate].
      intros H. apply andb_true_iff in H as [Hb Hrest].
      apply Byte.byte_dec_bl in Hb. subst b.
      apply IH in Hrest; [|lia]. destruct Hrest as [_ Hrest].
      split; [exact Hi|].
      rewrite (skipn_cons_get _ _ Hget). cbn [firstn]. rewrite Hrest. reflexivity.
    + intros [_ H].
      destruct (skipn (Z.to_nat i) data) as [|b rest] eqn:Hs; [discriminate|].
      cbn [firstn] in H. injection H as -> Hrest.
      destruct (get_skipn_cons _ Hi Hs) as [Hget Hs'].
      rewrite Hget, (Byte.byte_dec_lb eq_refl). cbn [andb].
      apply IH; [lia|]. split; [lia|]. rewrite Hs'. exact Hrest.
Qed.

Lemma findBytes_from_first (n : nat) (data needle : list byte) :
  forall i,
    (findBytes_from n data needle i = -1 /\
     forall j, i <= j < i + Z.of_nat n -> matches_at data needle j = false) \/
    (i <= findBytes_from n data needle i < i + Z.of_nat n /\
     matches_at data needle (findBytes_from n data needle i) = true /\
     forall j, i <= j < findBytes_from n data needle i ->
               matches_at data needle j = false).
Proof.
  induction n as [|n IH]; intros i; cbn [findBytes_from].
  - left. split; [reflexivity|]. intros j Hj. lia.
  - destruct (matches_at data needle i) eqn:Hm.
    + right. split; [lia|]. split; [exact Hm|]. intros j Hj. lia.
    + destruct (IH (i + 1)) as [[E Hno]|[Hr [Hat Hno]]].
      * left. split; [exact E|]. intros j Hj.
        destruct (Z.eq_dec j i) as [->|Hne]; [exact Hm|apply Hno; lia].
      * right. split; [lia|]. split; [exact Hat|]. intros j Hj.
        destruct (Z.eq_dec j i) as [->|Hne]; [exact Hm|apply Hno; lia].
Qed.

(** The first position at or after [start] where the inner loop finds no
    difference, if one lies in the range of the outer loop. *)
Lemma findBytes_first (data needle : list byte) (start : Z) :
  (findBytes data needle start = -1 /\
   forall j, start <= j <= len data - len needle -> matches_at data needle j = false) \/
  (start <= findBytes data needle start <= len data - len needle /\
   matches_at data needle (findBytes data needle start) = true /\
   forall j, start <= j < findBytes data needle start ->
             matches_at data needle j = false).
Proof.
  unfold findBytes.
  destruct (findBytes_from_first (Z.to_nat (len data - len needle - start + 1))
              data needle start) as [[E Hno]|[Hr [Hat Hno]]].
  - left. split; [exact E|]. intros j Hj. apply Hno. lia.
  - right. split; [lia|]. split; [exact Hat|exact Hno].
Qed.

(** X4: [findBytes] finds the first occurrence.  From a start that is not
    negative, an index it returns is one where the needle sits in the
    buffer, it is at or after the start, and the needle sits at no index
    between the start and it. *)
Theorem findBytes_found (data needle : list byte) (start r : Z) :
  0 <= start ->
  findBytes data needle start = r -> r <> -1 ->
  start <= r <= len data - len needle /\
  occurs_at data needle r /\
  forall j, start <= j < r -> ~ occurs_at data needle j.
Proof.
  intros Hstart Hr Hne.
  destruct (findBytes_first data needle start) as [[E _]|[Hrange [Hat Hno]]];
    [congruence|].
  rewrite Hr in *. split; [exact Hrange|].
  split; [apply matches_at_occurs; [lia|exact Hat]|].
  intros j Hj Hocc. apply matches_at_occurs in Hocc; [|lia].
  rewrite Hno in Hocc by exact Hj. discriminate.
Qed.

Lemma findBytes_found_witness :
  0 <= 2 <= len [x01; x02; x01; x02; x03] - len [x01; x02] /\
  occurs_at [x01; x02; x01; x02; x03] [x01; x02] 2 /\
  forall j, 1 <= j < 2 -> ~ occurs_at [x01; x02; x01; x02; x03] [x01; x02] j.
Proof.
  destruct (@findBytes_found [x01; x02; x01; x02; x03] [x01; x02] 1 2) as [H1 [H2 H3]];
    [lia | reflexivity | discriminate |].
  split; [lia|]. split; [exact H2|exact H3].
Defined.

(** X5: [findBytes] answers -1 only when there is no occurrence.  From a
    start that is not negative, the answer -1 means that the needle sits
    at no index from the start on. *)
Theorem findBytes_not_found (data needle : list byte) (start : Z) :
  0 <= start ->
  findBytes data needle start = -1 ->
  forall j, start <= j <= len data - len needle -> ~ occurs_at data needle j.
Proof.
  intros Hstart Hr j Hj Hocc.
  apply matches_at_occurs in Hocc; [|lia].
  destruct (findBytes_first data needle start) as [[_ Hno]|[Hrange _]]; [|lia].
  rewrite Hno in Hocc by exact Hj. discriminate.
Qed.

Lemma findBytes_not_found_witness :
  findBytes [x01; x02; x03] [x03; x02] 0 = -1 /\
  forall j, 0 <= j <= len [x01; x02; x03] - len [x03; x02] ->
            ~ occurs_at [x01; x02; x03] [x03; x02] j.
Proof.
  split; [reflexivity|].
  apply (@findBytes_not_found [x01; x02; x03] [x03; x02] 0); [lia|reflexivity].
Defined.

(** ** Primitive reads *)

Ltac view_cases :=
  unfold getInt16, getInt32, getBigInt64, getFloat32, getFloat64, view_bytes;
  repeat match goal with
         | |- context [Z.ltb ?a ?b] => destruct (Z.ltb_spec a b)
         | |- context [Z.leb ?a ?b] => destruct (Z.leb_spec a b)
         end;
  cbn [orb andb bind Z.eqb Pos.eqb]; try lia; eauto.

(** X6: how a primitive read ends.  A subtype code that is not known
    throws an [Error]; a subtype of two bytes or more throws a
    [RangeError] when its bytes are not all inside the buffer; every other
    read returns, and moves the offset by the width of the subtype.  A
    one-byte read outside the buffer does not fail: a boolean reads as
    [true] and a byte as [undefined]. *)
Theorem readPrimitive_outcome (data : list byte) (off : Z) (primType : option byte) :
  match prim_width primType with
  | None => exists msg, readPrimitive data off primType = Throw (Error msg)
  | Some w =>
    if (w =? 1) || ((0 <=? off) && (off + w <=? len data))
    then exists v, readPrimitive data off primType
                   = Ok {| value := v; offset := off + w |}
    else readPrimitive data off primType = Throw RangeError
  end /\
  (get data off = None ->
   readPrimitive data off (Some x01) = Ok {| value := Boolean true; offset := off + 1 |} /\
   readPrimitive data off (Some x02) = Ok {| value := Undefined; offset := off + 1 |}).
Proof.
  split.
  - unfold prim_width, readPrimitive.
    set (code := match primType with Some p => u8 p | None => -1 end).
    destruct (code =? PRIM_BOOLEAN); [cbn; eauto|].
    destruct (code =? PRIM_BYTE); [cbn; eauto|].
    destruct (code =? PRIM_INT16); [view_cases|].
    destruct (code =? PRIM_INT32); [view_cases|].
    destruct (code =? PRIM_INT64); [view_cases|].
    destruct (code =? PRIM_SINGLE); [view_cases|].
    destruct (code =? PRIM_DOUBLE); [view_cases|].
    eauto.
  - intros Hget. unfold readPrimitive. cbn. rewrite Hget. split; reflexivity.
Qed.

Lemma readPrimitive_outcome_witness :
  readPrimitive [x05] 1 (Some x01) = Ok {| value := Boolean true; offset := 1 + 1 |} /\
  readPrimitive [x05] 1 (Some x02) = Ok {| value := Undefined; offset := 1 + 1 |}.
Proof.
  apply (proj2 (readPrimitive_outcome [x05] 1 None)). reflexivity.
Defined.

Lemma le_value_le32 (v : Z) : le_value (le32 v) = v mod 2 ^ 32.
Proof.
  unfold le32. cbn [le_value]. rewrite !u8_byte_of_Z.
  change (2 ^ 32) with 4294967296.
  Z.to_euclidean_division_equations. lia.
Qed.

Lemma signed_32_mod (v : Z) :
  - 2 ^ 31 <= v < 2 ^ 31 -> signed 32 (v mod 2 ^ 32) = v.
Proof.
  intros Hv. unfold signed.
  change (2 ^ (32 - 1)) with 2147483648. change (2 ^ 32) with 4294967296.
  change (2 ^ 31) with 2147483648 in Hv.
  destruct (Z.ltb_spec (v mod 4294967296) 2147483648);
    Z.to_euclidean_division_equations; lia.
Qed.

Lemma getInt32_le32 (pre post : list byte) (v : Z) :
  - 2 ^ 31 <= v < 2 ^ 31 ->
  getInt32 (pre ++ le32 v ++ post) (len pre) = Ok v.
Proof.
  intros Hv. unfold getInt32.
  assert (Hp := len_nonneg pre). assert (Hq := len_nonneg post).
  rewrite view_bytes_in_range.
  - rewrite skipn_len_app.
    change (firstn 4 (le32 v ++ post)) with (le32 v).
    cbn [bind]. rewrite le_value_le32, signed_32_mod by exact Hv. reflexivity.
  - exact Hp.
  - rewrite !len_app. change (len (le32 v)) with 4. lia.
Qed.

(** X7: reading back a 32-bit integer.  For every signed 32-bit [v], the
    [Int32] read at the start of its four little-endian bytes, whatever
    lies before and after, returns [v] and moves the offset by 4. *)
Theorem readPrimitive_le32 (pre post : list byte) (v : Z) :
  - 2 ^ 31 <= v < 2 ^ 31 ->
  readPrimitive (pre ++ le32 v ++ post) (len pre) (Some x08)
  = Ok {| value := Number (of_Z v); offset := len pre + 4 |}.
Proof.
  intros Hv.
  change (readPrimitive (pre ++ le32 v ++ post) (len pre) (Some x08))
    with (x <- getInt32 (pre ++ le32 v ++ post) (len pre) ;;
          Ok {| value := Number (of_Z x); offset := len pre + 4 |}).
  rewrite getInt32_le32 by exact Hv. reflexivity.
Qed.

Lemma readPrimitive_le32_witness :
  readPrimitive ([x00] ++ le32 (-2) ++ []) (len [x00]) (Some x08)
  = Ok {| value := Number (of_Z (-2)); offset := 1 + 4 |}.
Proof. apply (@readPrimitive_le32 [x00] [] (-2)). lia. Defined.

(** ** Class finder, further *)

Lemma readMemberNames_head (n : nat) (data : list byte) :
  forall off m acc members off',
    readMemberNames n data off (m :: acc) = Ok (members, off') ->
    hd_error members = Some m.
Proof.
  induction n as [|n IH]; intros off m acc members off' H; cbn [readMemberNames] in H.
  - injection H as <- _. reflexivity.
  - destruct (parseBfString data off) as [r| |]; try discriminate.
    cbn [bind] in H. cbn [app] in H. apply IH in H. exact H.
Qed.

(** What an accepted candidate looks like: the name asked for, and the
    first expected field as its first member. *)
Lemma candidate_accepts_first (data : list byte) (cn : string)
    (expectedFields : list string) (pos : Z) (cdef : ClassDefinition) :
  candidate data cn expectedFields pos = Ok (Some cdef) ->
  className cdef = cn /\
  exists first, hd_error expectedFields = Some first /\
                hd_error (memberNames cdef) = Some first.
Proof.
  unfold candidate. intros H.
  destruct (getUint32 data _) as [mc| |]; try discriminate. cbn [bind] in H.
  destruct (Z.eqb_spec mc (Z.of_nat (List.length expectedFields))) as [Hmc|];
    [|discriminate].
  cbn [negb] in H.
  destruct (parseBfString data _) as [r| |] eqn:Hfirst; try discriminate.
  cbn [bind] in H.
  destruct expectedFields as [|first rest]; [discriminate|].
  cbn [nth_error same_string] in H.
  destruct (String.eqb_spec (value r) first) as [Hname|]; [|discriminate].
  cbn [negb] in H.
  cbn [List.length] in Hmc. rewrite Hmc, Nat2Z.id in H.
  cbn [readMemberNames] in H. rewrite Hfirst in H. cbn [bind app] in H.
  destruct (readMemberNames _ data (offset r) [value r]) as [[members off]| |] eqn:Hm;
    try discriminate.
  cbn [bind] in H.
  destruct (readTypeTags _ data off []) as [tags off1].
  destruct (readTypeInfo tags data off1 []) as [[prims off2]| |]; try discriminate.
  cbn [bind] in H.
  destruct (findObjectId data cn pos) as [id| |]; try discriminate.
  cbn [bind] in H. injection H as <-. cbn.
  split; [reflexivity|]. exists first. split; [reflexivity|].
  apply readMemberNames_head in Hm. rewrite Hm, Hname. reflexivity.
Qed.

(** X8: what [findClassDefinition] returns.  It never throws: the result
    is [null] or a definition.  A definition carries the name asked for,
    the expected number of members with one name, one tag and one subtype
    slot each, and the first expected field as its first member name; for
    an empty list of expected fields the result is always [null]. *)
Theorem findClassDefinition_result (data : list byte) (cn : string)
    (expectedFields : list string) (start : Z) :
  findClassDefinition data cn expectedFields start = Ok None \/
  exists cdef first,
    findClassDefinition data cn expectedFields start = Ok (Some cdef) /\
    className cdef = cn /\
    memberCount cdef = Z.of_nat (List.length expectedFields) /\
    List.length (memberNames cdef) = List.length expectedFields /\
    List.length (typeTags cdef) = List.length expectedFields /\
    List.length (primTypes cdef) = List.length expectedFields /\
    hd_error expectedFields = Some first /\
    hd_error (memberNames cdef) = Some first.
Proof.
  destruct (findClassDefinition_returns data cn expectedFields start) as [[cdef|] H];
    [right|left; exact H].
  destruct (findClassDefinition_shape _ _ _ _ H) as [Hn [Ht Hp]].
  pose proof H as H'. unfold findClassDefinition in H'.
  apply findClassDefinition_loop_accepts in H' as [p [_ [_ Hc]]].
  destruct (candidate_accepts_first _ _ _ _ Hc) as [Hcn [first [Hf Hm]]].
  destruct (candidate_cases data cn expectedFields p)
    as [E|[[E _]|[cdef' [E [_ [Hmc _]]]]]]; rewrite E in Hc; try discriminate.
  injection Hc as ->.
  exists cdef, first. repeat split; assumption.
Qed.

(** The scan loop returns the first acceptable candidate at or after a
    cursor that is not negative. *)
Lemma findClassDefinition_loop_first :
  forall fuel data cn expectedFields pos,
    0 <= pos ->
    (Z.to_nat (len data + 1 - pos) < fuel)%nat ->
    match findClassDefinition_loop fuel data cn expectedFields pos with
    | Ok (Some cdef) =>
      exists p, pos <= p /\
                matches_at data (TextEncoder_encode cn) p = true /\
                candidate data cn expectedFields p = Ok (Some cdef) /\
                forall q, pos <= q < p ->
                          matches_at data (TextEncoder_encode cn) q = true ->
                          forall c, candidate data cn expectedFields q <> Ok (Some c)
    | Ok None =>
      forall q, pos <= q <= len data - len (TextEncoder_encode cn) ->
                matches_at data (TextEncoder_encode cn) q = true ->
                forall c, candidate data cn expectedFields q <> Ok (Some c)
    | _ => False
    end.
Proof.
  induction fuel as [|fuel IH]; intros data cn expectedFields pos Hpos Hfuel; [lia|].
  cbn [findClassDefinition_loop].
  assert (Hl := len_nonneg (TextEncoder_encode cn)).
  destruct (findBytes_first data (TextEncoder_encode cn) pos)
    as [[E Hno]|[Hrange [Hat Hno]]].
  - rewrite E. cbn. intros q Hq Hm. rewrite Hno in Hm by lia. discriminate.
  - set (p := findBytes data (TextEncoder_encode cn) pos) in *.
    destruct (Z.eqb_spec p (-1)); [lia|].
    assert (Hnext :
              forall (Hrej : forall c, candidate data cn expectedFields p <> Ok (Some c)),
                match findClassDefinition_loop fuel data cn expectedFields (p + 1) with
                | Ok (Some cdef) =>
                  exists p', pos <= p' /\
                    matches_at data (TextEncoder_encode cn) p' = true /\
                    candidate data cn expectedFields p' = Ok (Some cdef) /\
                    forall q, pos <= q < p' ->
                      matches_at data (TextEncoder_encode cn) q = true ->
                      forall c, candidate data cn expectedFields q <> Ok (Some c)
                | Ok None =>
                  forall q, pos <= q <= len data - len (TextEncoder_encode cn) ->
                    matches_at data (TextEncoder_encode cn) q = true ->
                    forall c, candidate data cn expectedFields q <> Ok (Some c)
                | _ => False
                end).
    { intros Hrej.
      specialize (IH data cn expectedFields (p + 1) ltac:(lia) ltac:(lia)).
      destruct (findClassDefinition_loop fuel data cn expectedFields (p + 1))
        as [[cdef|]| |]; try exact IH.
      - destruct IH as [p' [Hp' [Hm' [Hc' Hmin]]]].
        exists p'. split; [lia|]. split; [exact Hm'|]. split; [exact Hc'|].
        intros q Hq Hm c.
        destruct (Z.lt_ge_cases q p) as [Hlt|Hge].
        + rewrite Hno in Hm by lia. discriminate.
        + destruct (Z.eq_dec q p) as [->|Hne]; [apply Hrej|apply Hmin; [lia|exact Hm]].
      - intros q Hq Hm c.
        destruct (Z.lt_ge_cases q p) as [Hlt|Hge].
        + rewrite Hno in Hm by lia. discriminate.
        + destruct (Z.eq_dec q p) as [->|Hne]; [apply Hrej|apply IH; [lia|exact Hm]]. }
    destruct (candidate_cases data cn expectedFields p)
      as [E|[[E _]|[cdef [E _]]]]; rewrite E.
    + apply Hnext. intros c. rewrite E. discriminate.
    + apply Hnext. intros c. rewrite E. discriminate.
    + exists p. split; [lia|]. split; [exact Hat|]. split; [exact E|].
      intros q Hq Hm. rewrite Hno in Hm by lia. discriminate.
Qed.

Lemma acceptable_in_range (data : list byte) (cn : string)
    (expectedFields : list string) (q : Z) (c : ClassDefinition) :
  candidate data cn expectedFields q = Ok (Some c) ->
  q <= len data - len (TextEncoder_encode cn).
Proof.
  intros H. unfold candidate in H.
  unfold getUint32 at 1 in H. unfold view_bytes in H.
  destruct (Z.ltb_spec (q + len (TextEncoder_encode cn)) 0); [discriminate|].
  destruct (Z.ltb_spec (len data) (q + len (TextEncoder_encode cn) + Z.of_nat 4));
    [discriminate|].
  lia.
Qed.

(** X9: [findClassDefinition] returns the first acceptable candidate.
    From a start that is not negative, a definition it returns was
    accepted at an occurrence of the name that no acceptable occurrence
    precedes, and [null] means that no occurrence from the start on is
    acceptable. *)
Theorem findClassDefinition_first (data : list byte) (cn : string)
    (expectedFields : list string) (start : Z) :
  0 <= start ->
  match findClassDefinition data cn expectedFields start with
  | Ok (Some cdef) =>
    exists p, start <= p /\
              occurs_at data (TextEncoder_encode cn) p /\
              candidate data cn expectedFields p = Ok (Some cdef) /\
              forall q, start <= q < p -> ~ acceptable data cn expectedFields q
  | Ok None => forall q, start <= q -> ~ acceptable data cn expectedFields q
  | _ => False
  end.
Proof.
  intros Hstart. unfold findClassDefinition.
  assert (H := @findClassDefinition_loop_first
                 (S (Z.to_nat (len data + 1 - start))) data cn expectedFields start
                 Hstart ltac:(lia)).
  destruct (findClassDefinition_loop _ data cn expectedFields start) as [[cdef|]| |];
    try exact H.
  - destruct H as [p [Hp [Hm [Hc Hmin]]]].
    exists p. split; [exact Hp|].
    split; [apply matches_at_occurs; [lia|exact Hm]|]. split; [exact Hc|].
    intros q Hq [Hocc [c Hacc]].
    apply matches_at_occurs in Hocc; [|lia]. exact (Hmin q Hq Hocc c Hacc).
  - intros q Hq [Hocc [c Hacc]].
    apply matches_at_occurs in Hocc; [|lia].
    refine (H q _ Hocc c Hacc).
    split; [exact Hq|]. exact (acceptable_in_range _ _ _ _ Hacc).
Qed.

Lemma findClassDefinition_first_witness :
  exists p, 0 <= p /\
            occurs_at false_positive_buffer
              (TextEncoder_encode "KilledEnemiesCounterSingleton") p /\
            candidate false_positive_buffer "KilledEnemiesCounterSingleton" ["value"] p
            = Ok (Some {| className := "KilledEnemiesCounterSingleton"; memberCount := 1;
                          memberNames := ["value"]; typeTags := [Some x00];
                          primTypes := [Some x08]; dataOffset := 78; objectId := 0 |}) /\
            forall q, 0 <= q < p ->
                      ~ acceptable false_positive_buffer
                          "KilledEnemiesCounterSingleton" ["value"] q.
Proof.
  assert (H := @findClassDefinition_first false_positive_buffer
                 "KilledEnemiesCounterSingleton" ["value"] 0 ltac:(lia)).
  replace (findClassDefinition false_positive_buffer
             "KilledEnemiesCounterSingleton" ["value"] 0)
    with (Ok (Some {| className := "KilledEnemiesCounterSingleton"; memberCount := 1;
                      memberNames := ["value"]; typeTags := [Some x00];
                      primTypes := [Some x08]; dataOffset := 78; objectId := 0 |}))
    in H by (vm_compute; reflexivity).
  exact H.
Defined.

Lemma substring_whole (s : string) : substring 0 (String.length s) s = s.
Proof. induction s as [|c s IH]; cbn; [reflexivity|]. rewrite IH. reflexivity. Qed.

Lemma endsWith_refl (s : string) : endsWith s s = true.
Proof.
  unfold endsWith. rewrite Nat.leb_refl, Nat.sub_diag, substring_whole.
  apply String.eqb_refl.
Qed.

Lemma occurs_at_fits (data needle : list byte) (i : Z) :
  occurs_at data needle i -> i <= len data -> i + len needle <= len data.
Proof.
  intros [Hi H] Hle. assert (Hl := f_equal (@List.length byte) H).
  rewrite length_firstn, length_skipn in Hl. unfold len in *. lia.
Qed.

Lemma subarray_in_range (data : list byte) (b e : Z) :
  0 <= b <= e -> e <= len data ->
  subarray data b e = firstn (Z.to_nat (e - b)) (skipn (Z.to_nat b) data).
Proof.
  intros Hb He. unfold subarray, relative_index.
  destruct (Z.ltb_spec b 0); [lia|]. destruct (Z.ltb_spec e 0); [lia|].
  rewrite !Z.min_l by lia. rewrite Z.max_l by lia. reflexivity.
Qed.

Lemma parse7BitInt_single (data : list byte) (off : Z) (b : byte) :
  get data off = Some b -> u8 b < 128 ->
  parse7BitInt data off = Ok {| value := u8 b; offset := off + 1 |}.
Proof.
  intros Hget Hb. assert (Hr := u8_range b).
  unfold parse7BitInt. cbn [parse7BitInt_loop]. rewrite Hget. cbn [int_of_elem].
  rewrite high_bit, low7, (Z.mod_small (u8 b) 128) by lia.
  destruct (Z.ltb_spec (u8 b) 128); [|lia].
  rewrite js_shl_small by lia.
  rewrite (@js_or_disjoint 0 (u8 b) 0) by lia.
  do 2 f_equal. lia.
Qed.

Lemma candidate_objectId (data : list byte) (cn : string)
    (expectedFields : list string) (pos : Z) (cdef : ClassDefinition) :
  candidate data cn expectedFields pos = Ok (Some cdef) ->
  findObjectId data cn pos = Ok (objectId cdef).
Proof.
  unfold candidate. intros H.
  destruct (getUint32 data _) as [mc| |]; try discriminate. cbn [bind] in H.
  destruct (negb _); [discriminate|].
  destruct (parseBfString data _) as [r| |]; try discriminate. cbn [bind] in H.
  destruct (negb _); [discriminate|].
  destruct (readMemberNames _ data _ []) as [[members off]| |]; try discriminate.
  cbn [bind] in H.
  destruct (readTypeTags _ data off []) as [tags off1].
  destruct (readTypeInfo tags data off1 []) as [[prims off2]| |]; try discriminate.
  cbn [bind] in H.
  destruct (findObjectId data cn pos) as [id| |]; try discriminate.
  cbn [bind] in H. injection H as <-. reflexivity.
Qed.

(** X10: where the object id comes from.  When the name of an accepted
    candidate, a name of 7-bit characters shorter than 128 bytes, is
    preceded by its length byte and the candidate sits at offset 5 or
    more, the object id of the definition is the 32-bit little-endian
    unsigned integer in the four bytes before the length byte. *)
Theorem candidate_objectId_anchor (data : list byte) (cn : string)
    (expectedFields : list string) (pos : Z) (cdef : ClassDefinition) (b : byte) :
  is_ascii cn ->
  5 <= pos ->
  occurs_at data (TextEncoder_encode cn) pos ->
  get data (pos - 1) = Some b ->
  u8 b = len (TextEncoder_encode cn) -> u8 b < 128 ->
  candidate data cn expectedFields pos = Ok (Some cdef) ->
  getUint32 data (pos - 5) = Ok (objectId cdef).
Proof.
  intros Hascii Hpos Hocc Hget Hlen Hb Hc.
  apply candidate_objectId in Hc.
  assert (Hin := get_in_range _ _ Hget).
  assert (Hfit := occurs_at_fits Hocc ltac:(lia)).
  assert (Hl := len_nonneg (TextEncoder_encode cn)).
  unfold findObjectId in Hc.
  replace (Z.to_nat (pos - 1 - Z.max (pos - 50) 0 + 1))
    with (S (Z.to_nat (pos - 1 - Z.max (pos - 50) 0))) in Hc by lia.
  cbn [backWalk] in Hc. unfold backWalk_round in Hc.
  rewrite (parse7BitInt_single _ _ Hget Hb) in Hc. cbn [bind value offset] in Hc.
  replace (pos - 1 + 1) with pos in Hc by lia.
  destruct (Z.leb_spec (pos + u8 b) (len data)); [|lia].
  rewrite subarray_in_range in Hc by lia.
  replace (Z.to_nat (pos + u8 b - pos)) with (List.length (TextEncoder_encode cn)) in Hc
    by (unfold len in Hlen; lia).
  rewrite (proj2 Hocc), TextDecoder_decode_encode, endsWith_refl in Hc by exact Hascii.
  replace (pos - 1 - 4) with (pos - 5) in Hc by lia.
  unfold getUint32 in *. rewrite view_bytes_in_range in * by (cbn; lia).
  cbn [bind try_catch] in *. exact Hc.
Qed.

Lemma candidate_objectId_anchor_witness :
  getUint32 resources_buffer (5 - 5) = Ok 7.
Proof.
  refine (@candidate_objectId_anchor resources_buffer "ResourcesStatisticContainer"
            ["foodByFarms"; "foodByFishers"; "foodByBerrypickers"; "wood";
             "treesCutted"; "treesPlanted"; "stone"; "iron";
             "woodConsuming"; "ironConsuming"] 5
            {| className := "ResourcesStatisticContainer"; memberCount := 10;
               memberNames :=
                 ["foodByFarms"; "foodByFishers"; "foodByBerrypickers"; "wood";
                  "treesCutted"; "treesPlanted"; "stone"; "iron";
                  "woodConsuming"; "ironConsuming"];
               typeTags := repeat (Some x00) 10; primTypes := repeat (Some x08) 10;
               dataOffset := 174; objectId := 7 |} x1b _ _ _ _ _ _ _).
  - repeat constructor.
  - lia.
  - split; [lia|vm_compute; reflexivity].
  - reflexivity.
  - reflexivity.
  - vm_compute. reflexivity.
  - vm_compute. reflexivity.
Defined.

(** ** Header, further *)





(** ** Back-references, further *)

Lemma indexOf_from_spec (l : list byte) (v : byte) :
  forall i,
    (indexOf_from l v i = -1 /\ forall k, nth_error l k <> Some v) \/
    (exists k, indexOf_from l v i = i + Z.of_nat k /\
               nth_error l k = Some v /\
               forall k', (k' < k)%nat -> nth_error l k' <> Some v).
Proof.
  induction l as [|b l IH]; intros i; cbn [indexOf_from].
  - left. split; [reflexivity|]. intros [|k]; discriminate.
  - destruct (Byte.eqb b v) eqn:Hb.
    + apply Byte.byte_dec_bl in Hb. subst b. right. exists O.
      split; [lia|]. split; [reflexivity|]. intros k' Hk'. lia.
    + assert (Hne : b <> v)
        by (intros ->; rewrite (Byte.byte_dec_lb eq_refl) in Hb; discriminate).
      destruct (IH (i + 1)) as [[E Hno]|[k [E [Hat Hno]]]].
      * left. split; [exact E|]. intros [|k]; cbn; [congruence|apply Hno].
      * right. exists (S k). split; [lia|]. split; [exact Hat|].
        intros [|k'] Hk'; cbn; [congruence|apply Hno; lia].
Qed.

(** From a start that is not negative, [indexOf] answers the first index
    at or after it that holds the value, or -1 when none does. *)
Lemma indexOf_spec (data : list byte) (v : byte) (from : Z) :
  0 <= from ->
  (indexOf data v from = -1 /\ forall j, from <= j -> get data j <> Some v) \/
  (from <= indexOf data v from /\
   get data (indexOf data v from) = Some v /\
   forall j, from <= j < indexOf data v from -> get data j <> Some v).
Proof.
  intros Hfrom. unfold indexOf. destruct (Z.ltb_spec from 0); [lia|].
  assert (Hget : forall j, from <= j ->
                   get data j = nth_error (skipn (Z.to_nat from) data) (Z.to_nat (j - from))).
  { intros j Hj. unfold get. destruct (Z.ltb_spec j 0); [lia|].
    rewrite nth_error_skipn. f_equal. lia. }
  destruct (indexOf_from_spec (skipn (Z.to_nat from) data) v from)
    as [[E Hno]|[k [E [Hat Hno]]]].
  - left. split; [exact E|]. intros j Hj. rewrite Hget by exact Hj. apply Hno.
  - right. rewrite E. split; [lia|]. split.
    + rewrite Hget by lia. replace (Z.to_nat (from + Z.of_nat k - from)) with k by lia.
      exact Hat.
    + intros j Hj. rewrite Hget by lia. apply Hno. lia.
Qed.

(** The scan loop returns the first back-reference at or after a cursor
    that is not negative and before the last nine bytes. *)
Lemma findClassIdInstance_loop_first :
  forall fuel data metadataId pos,
    0 <= pos ->
    (Z.to_nat (len data - pos) < fuel)%nat ->
    match findClassIdInstance_loop fuel data metadataId pos with
    | Ok (Some r) =>
      back_reference_at data metadataId (r - 9) /\
      pos <= r - 9 /\ r <= len data /\
      forall q, pos <= q < r - 9 -> ~ back_reference_at data metadataId q
    | Ok None =>
      forall q, pos <= q < len data - 9 -> ~ back_reference_at data metadataId q
    | _ => False
    end.
Proof.
  induction fuel as [|fuel IH]; intros data metadataId pos Hpos Hfuel; [lia|].
  cbn [findClassIdInstance_loop].
  destruct (Z.ltb_spec pos (len data - 9)) as [Hguard|Hguard];
    [|intros q Hq; lia].
  destruct (indexOf_spec data x01 Hpos) as [[E Hno]|[Hp [Hat Hno]]].
  - rewrite E. cbn. intros q Hq [Hq1 _]. exact (Hno q ltac:(lia) Hq1).
  - set (p := indexOf data x01 pos) in *.
    assert (Hin := get_in_range _ _ Hat).
    destruct (Z.eqb_spec p (-1)); [lia|].
    assert (Hnext :
              ~ back_reference_at data metadataId p ->
              match findClassIdInstance_loop fuel data metadataId (p + 1) with
              | Ok (Some r) =>
                back_reference_at data metadataId (r - 9) /\
                pos <= r - 9 /\ r <= len data /\
                forall q, pos <= q < r - 9 -> ~ back_reference_at data metadataId q
              | Ok None =>
                forall q, pos <= q < len data - 9 ->
                          ~ back_reference_at data metadataId q
              | _ => False
              end).
    { intros Hnot.
      specialize (IH data metadataId (p + 1) ltac:(lia) ltac:(lia)).
      assert (Hbefore : forall q, pos <= q < p + 1 ->
                                  ~ back_reference_at data metadataId q).
      { intros q Hq. destruct (Z.eq_dec q p) as [->|Hne]; [exact Hnot|].
        intros [Hq1 _]. exact (Hno q ltac:(lia) Hq1). }
      destruct (findClassIdInstance_loop fuel data metadataId (p + 1)) as [[r|]| |];
        try exact IH.
      - destruct IH as [Href [Hr [Hlen Hmin]]].
        split; [exact Href|]. split; [lia|]. split; [exact Hlen|].
        intros q Hq. destruct (Z.lt_ge_cases q (p + 1)); [apply Hbefore|apply Hmin]; lia.
      - intros q Hq. destruct (Z.lt_ge_cases q (p + 1)); [apply Hbefore|apply IH]; lia. }
    destruct (Z.leb_spec (p + 9) (len data)) as [Hfits|Hfits].
    + unfold getUint32 at 1. rewrite view_bytes_in_range by (cbn; lia). cbn [bind].
      destruct (Z.eqb_spec (le_value (firstn 4 (skipn (Z.to_nat (p + 5)) data)))
                  metadataId) as [Hid|Hid].
      * replace (p + 9 - 9) with p by lia.
        split; [split; [exact Hat|]|].
        { unfold getUint32. rewrite view_bytes_in_range by (cbn; lia).
          cbn [bind]. f_equal. exact Hid. }
        split; [lia|]. split; [lia|].
        intros q Hq [Hq1 _]. exact (Hno q ltac:(lia) Hq1).
      * apply Hnext. intros [_ Href]. unfold getUint32 in Href.
        rewrite view_bytes_in_range in Href by (cbn; lia). cbn [bind] in Href.
        injection Href as Href. contradiction.
    + cbn [bind]. apply Hnext. intros [_ Href]. unfold getUint32, view_bytes in Href.
      destruct (Z.ltb_spec (p + 5) 0); [lia|].
      destruct (Z.ltb_spec (len data) (p + 5 + Z.of_nat 4)); [|lia].
      cbn in Href. discriminate.
Qed.

(** X12: [findClassIdInstance] finds the first back-reference.  From a
    start that is not negative, an offset it returns lies nine bytes after
    the marker of a back-reference to the object, at or after the start
    and inside the buffer, and no back-reference to the object has its
    marker between the start and that one. *)
Theorem findClassIdInstance_found (data : list byte) (metadataId start r : Z) :
  0 <= start ->
  findClassIdInstance data metadataId start = Ok (Some r) ->
  back_reference_at data metadataId (r - 9) /\
  start <= r - 9 /\ r <= len data /\
  forall q, start <= q < r - 9 -> ~ back_reference_at data metadataId q.
Proof.
  intros Hstart H. unfold findClassIdInstance in H.
  assert (Hloop := @findClassIdInstance_loop_first (S (List.length data)) data
                     metadataId start Hstart ltac:(unfold len; lia)).
  rewrite H in Hloop. exact Hloop.
Qed.

Lemma findClassIdInstance_found_witness :
  back_reference_at last_marker_buffer 7 (10 - 9) /\
  0 <= 10 - 9 /\ 10 <= len last_marker_buffer /\
  forall q, 0 <= q < 10 - 9 -> ~ back_reference_at last_marker_buffer 7 q.
Proof.
  apply (@findClassIdInstance_found last_marker_buffer 7 0 10); [lia|reflexivity].
Defined.

(** X13: [findClassIdInstance] answers [null] only when there is no
    back-reference in its range.  From a start that is not negative,
    [null] means that no back-reference to the object has its marker from
    the start on and more than nine bytes before the end. *)
Theorem findClassIdInstance_not_found (data : list byte) (metadataId start : Z) :
  0 <= start ->
  findClassIdInstance data metadataId start = Ok None ->
  forall q, start <= q < len data - 9 -> ~ back_reference_at data metadataId q.
Proof.
  intros Hstart H. unfold findClassIdInstance in H.
  assert (Hloop := @findClassIdInstance_loop_first (S (List.length data)) data
                     metadataId start Hstart ltac:(unfold len; lia)).
  rewrite H in Hloop. exact Hloop.
Qed.

Lemma findClassIdInstance_not_found_witness :
  findClassIdInstance last_marker_buffer 8 0 = Ok None /\
  forall q, 0 <= q < len last_marker_buffer - 9 ->
            ~ back_reference_at last_marker_buffer 8 q.
Proof.
  split; [reflexivity|].
  apply (@findClassIdInstance_not_found last_marker_buffer 8 0); [lia|reflexivity].
Defined.

(** The collecting loop adds, to the offsets it was given, the offsets of
    the back-references that follow one another from the cursor on. *)
Lemma findAllClassIdInstances_loop_collects :
  forall fuel data metadataId pos results,
    0 <= pos ->
    (Z.to_nat (len data - pos) < fuel)%nat ->
    exists news,
      findAllClassIdInstances_loop fuel data metadataId pos results
      = Ok (results ++ news) /\
      Forall (fun r => back_reference_at data metadataId (r - 9) /\ r <= len data) news /\
      StronglySorted (fun a b => a + 9 <= b) (pos :: news) /\
      none_between data metadataId pos news /\
      findClassIdInstance data metadataId pos = Ok (hd_error news).
Proof.
  induction fuel as [|fuel IH]; intros data metadataId pos results Hpos Hfuel; [lia|].
  cbn [findAllClassIdInstances_loop].
  assert (Hloop := @findClassIdInstance_loop_first (S (List.length data)) data
                     metadataId pos Hpos ltac:(unfold len; lia)).
  fold (findClassIdInstance data metadataId pos) in Hloop.
  destruct (findClassIdInstance data metadataId pos) as [[r|]| |];
    try contradiction; cbn [bind].
  - destruct Hloop as [Href [Hr [Hlen Hmin]]].
    destruct (IH data metadataId r (results ++ [r]) ltac:(lia) ltac:(lia))
      as [news [E [Hall [Hsorted [Hnone Hhd]]]]].
    exists (r :: news). rewrite E, <- app_assoc. split; [reflexivity|].
    split; [constructor; [split; assumption|exact Hall]|].
    split.
    + constructor; [exact Hsorted|].
      apply StronglySorted_inv in Hsorted as [_ Hgap].
      constructor; [lia|].
      eapply Forall_impl; [|exact Hgap]. cbn. intros; lia.
    + split; [split; assumption|reflexivity].
  - exists []. rewrite app_nil_r. split; [reflexivity|].
    split; [constructor|]. split; [repeat constructor|].
    split; [exact Hloop|reflexivity].
Qed.

(** X14: every offset that [findAllClassIdInstances] returns is a
    back-reference.  From a start that is not negative, each offset lies
    nine bytes after the marker of a back-reference to the object and
    inside the buffer, the first lies nine bytes or more after the start,
    and each further one nine bytes or more after the one before. *)
Theorem findAllClassIdInstances_sound (data : list byte) (metadataId start : Z)
    (l : list Z) :
  0 <= start ->
  findAllClassIdInstances data metadataId start = Ok l ->
  Forall (fun r => back_reference_at data metadataId (r - 9) /\ r <= len data) l /\
  StronglySorted (fun a b => a + 9 <= b) (start :: l).
Proof.
  intros Hstart H. unfold findAllClassIdInstances in H.
  destruct (@findAllClassIdInstances_loop_collects (S (S (List.length data))) data
              metadataId start [] Hstart ltac:(unfold len; lia))
    as [news [E [Hall [Hsorted _]]]].
  rewrite E in H. cbn [app] in H. injection H as <-.
  split; assumption.
Qed.

Lemma findAllClassIdInstances_sound_witness :
  Forall (fun r => back_reference_at last_marker_buffer 7 (r - 9) /\
                   r <= len last_marker_buffer) [10] /\
  StronglySorted (fun a b => a + 9 <= b) [0; 10].
Proof.
  apply (@findAllClassIdInstances_sound last_marker_buffer 7 0 [10]);
    [lia|reflexivity].
Defined.

(** X15: [findAllClassIdInstances] misses no back-reference that starts
    after the one before.  From a start that is not negative, no
    back-reference to the object has its marker between the start and the
    first marker found, between an offset returned and the next marker
    found, or at a position below [data.length - 9] from the last offset
    on (from the start on, when there is no offset); and the first offset
    is what [findClassIdInstance] returns from the same start. *)
Theorem findAllClassIdInstances_complete (data : list byte) (metadataId start : Z)
    (l : list Z) :
  0 <= start ->
  findAllClassIdInstances data metadataId start = Ok l ->
  none_between data metadataId start l /\
  findClassIdInstance data metadataId start = Ok (hd_error l).
Proof.
  intros Hstart H. unfold findAllClassIdInstances in H.
  destruct (@findAllClassIdInstances_loop_collects (S (S (List.length data))) data
              metadataId start [] Hstart ltac:(unfold len; lia))
    as [news [E [_ [_ [Hnone Hhd]]]]].
  rewrite E in H. cbn [app] in H. injection H as <-.
  split; assumption.
Qed.

Lemma findAllClassIdInstances_complete_witness :
  none_between last_marker_buffer 7 0 [10] /\
  findClassIdInstance last_marker_buffer 7 0 = Ok (hd_error [10]).
Proof.
  apply (@findAllClassIdInstances_complete last_marker_buffer 7 0 [10]);
    [lia|reflexivity].
Defined.

(** ** Resource ledgers *)

Lemma getInt32_in_range (data : list byte) (off : Z) :
  0 <= off -> off + 4 <= len data -> getInt32 data off = Ok (int32_value data off).
Proof.
  intros H0 H1. unfold getInt32. rewrite view_bytes_in_range by (cbn; lia).
  reflexivity.
Qed.

Lemma getInt32_out_of_range (data : list byte) (off : Z) :
  ~ (0 <= off /\ off + 4 <= len data) -> getInt32 data off = Throw RangeError.
Proof.
  intros H. unfold getInt32, view_bytes.
  destruct (Z.ltb_spec off 0); [reflexivity|].
  destruct (Z.ltb_spec (len data) (off + Z.of_nat 4)); [reflexivity|lia].
Qed.

(** A snapshot whose bytes are all inside the buffer is read in full. *)
Lemma readDay_in_range (names : list string) :
  forall data off day,
    NoDup (map fst day ++ names) -> ~ In "__proto__" names ->
    0 <= off -> off + 4 * Z.of_nat (List.length names) <= len data ->
    readDay names data off day
    = Ok (day ++ day_at names data off, off + 4 * Z.of_nat (List.length names)).
Proof.
  induction names as [|name names IH]; intros data off day Hnd Hproto H0 H1;
    cbn [readDay day_at List.length].
  - rewrite app_nil_r. do 2 f_equal. lia.
  - cbn [List.length] in H1.
    rewrite getInt32_in_range by lia. cbn [bind].
    rewrite set_property_fresh.
    + rewrite IH.
      * rewrite <- app_assoc. do 2 f_equal. lia.
      * rewrite map_app, <- app_assoc. exact Hnd.
      * intros Hin. apply Hproto. right. exact Hin.
      * lia.
      * lia.
    + intros ->. apply Hproto. left. reflexivity.
    + apply NoDup_remove_2 in Hnd. intros Hin. apply Hnd, in_or_app. left. exact Hin.
Qed.

(** A snapshot that does not fit throws at the first integer outside. *)
Lemma readDay_out_of_range (names : list string) :
  forall data off day,
    names <> [] ->
    ~ (0 <= off /\ off + 4 * Z.of_nat (List.length names) <= len data) ->
    readDay names data off day = Throw RangeError.
Proof.
  induction names as [|name names IH]; intros data off day Hne Hout; [contradiction|].
  cbn [readDay]. cbn [List.length] in Hout.
  destruct (Z.lt_ge_cases off 0) as [Hneg|Hpos].
  { rewrite getInt32_out_of_range by lia. reflexivity. }
  destruct (Z.lt_ge_cases (len data) (off + 4)) as [Hshort|Hfits].
  { rewrite getInt32_out_of_range by lia. reflexivity. }
  rewrite getInt32_in_range by lia. cbn [bind].
  destruct names as [|name' names]; [cbn [List.length] in Hout; lia|].
  apply IH; [discriminate|]. cbn [List.length] in *. lia.
Qed.

(** X16: the two snapshots of a ledger.  For a located definition whose
    current-day integers are all inside the buffer, the current day gives
    each expected field the integer at its place from the data offset on.
    The last day is there when the definition has an object id and a
    back-reference to it follows the current day: it is read from the
    back-reference with the same layout, and when it does not fit in the
    buffer the decoder throws and the current day is lost with it. *)
Theorem extractLedger_snapshots (cn : string) (expected : list string)
    (data : list byte) (cdef : ClassDefinition) :
  NoDup expected -> ~ In "__proto__" expected ->
  findClassDefinition data cn expected 0 = Ok (Some cdef) ->
  0 <= dataOffset cdef ->
  dataOffset cdef + 4 * Z.of_nat (List.length expected) <= len data ->
  let n := Z.of_nat (List.length expected) in
  let current := day_at expected data (dataOffset cdef) in
  match (if objectId cdef =? 0 then None
         else slot (findClassIdInstance data (objectId cdef) (dataOffset cdef + 4 * n)))
  with
  | None =>
    extractLedger cn expected data
    = Ok (Some {| currentDay := current; lastDay := None |})
  | Some c =>
    if c + 4 * n <=? len data
    then extractLedger cn expected data
         = Ok (Some {| currentDay := current; lastDay := Some (day_at expected data c) |})
    else expected <> [] -> extractLedger cn expected data = Throw RangeError
  end.
Proof.
  intros Hnd Hproto Hfind H0 H1 n current.
  unfold extractLedger. rewrite Hfind. cbn [bind].
  rewrite (@readDay_in_range expected data (dataOffset cdef) [])
    by (assumption || exact Hnd).
  cbn [bind app]. fold n. fold current.
  destruct (objectId cdef =? 0); cbn [negb bind]; [reflexivity|].
  destruct (findClassIdInstance_returns data (objectId cdef) (dataOffset cdef + 4 * n))
    as [o [-> Hrange]].
  cbn [bind slot]. destruct o as [c|]; [|reflexivity].
  destruct (Z.leb_spec (c + 4 * n) (len data)) as [Hfits|Hout].
  - rewrite (@readDay_in_range expected data c []) by (assumption || lia).
    reflexivity.
  - intros Hne. rewrite readDay_out_of_range by (assumption || lia). reflexivity.
Qed.

Lemma extractLedger_snapshots_witness :
  extractLedger "ResourcesStatisticContainer"
    ["foodByFarms"; "foodByFishers"; "foodByBerrypickers"; "wood";
     "treesCutted"; "treesPlanted"; "stone"; "iron"; "woodConsuming"; "ironConsuming"]
    resources_buffer
  = Ok (Some {| currentDay :=
                  [("foodByFarms", 10); ("foodByFishers", 20);
                   ("foodByBerrypickers", 30); ("wood", 40); ("treesCutted", 50);
                   ("treesPlanted", 60); ("stone", 70); ("iron", 80);
                   ("woodConsuming", 90); ("ironConsuming", 100)];
                lastDay :=
                  Some [("foodByFarms", 11); ("foodByFishers", 21);
                        ("foodByBerrypickers", 31); ("wood", 41); ("treesCutted", 51);
                        ("treesPlanted", 61); ("stone", 71); ("iron", 81);
                        ("woodConsuming", 91); ("ironConsuming", 101)] |}).
Proof.
  refine (@extractLedger_snapshots "ResourcesStatisticContainer"
            ["foodByFarms"; "foodByFishers"; "foodByBerrypickers"; "wood";
             "treesCutted"; "treesPlanted"; "stone"; "iron";
             "woodConsuming"; "ironConsuming"] resources_buffer
            {| className := "ResourcesStatisticContainer"; memberCount := 10;
               memberNames :=
                 ["foodByFarms"; "foodByFishers"; "foodByBerrypickers"; "wood";
                  "treesCutted"; "treesPlanted"; "stone"; "iron";
                  "woodConsuming"; "ironConsuming"];
               typeTags := repeat (Some x00) 10; primTypes := repeat (Some x08) 10;
               dataOffset := 174; objectId := 7 |} _ _ _ _ _).
  - replace ["foodByFarms"; "foodByFishers"; "foodByBerrypickers"; "wood";
             "treesCutted"; "treesPlanted"; "stone"; "iron";
             "woodConsuming"; "ironConsuming"]
      with (nodup string_dec
              ["foodByFarms"; "foodByFishers"; "foodByBerrypickers"; "wood";
               "treesCutted"; "treesPlanted"; "stone"; "iron";
               "woodConsuming"; "ironConsuming"])
      by (vm_compute; reflexivity).
    apply NoDup_nodup.
  - cbn. intros H. repeat (destruct H as [H|H]; [discriminate H|]). exact H.
  - vm_compute. reflexivity.
  - cbn. lia.
  - vm_compute. discriminate.
Defined.

(** X17: a ledger that runs past the end.  For a located definition with
    one expected field or more, when the current-day integers are not all
    inside the buffer the decoder throws a [RangeError] and returns no
    record. *)
Theorem extractLedger_truncated (cn : string) (expected : list string)
    (data : list byte) (cdef : ClassDefinition) :
  expected <> [] ->
  findClassDefinition data cn expected 0 = Ok (Some cdef) ->
  ~ (0 <= dataOffset cdef /\
     dataOffset cdef + 4 * Z.of_nat (List.length expected) <= len data) ->
  extractLedger cn expected data = Throw RangeError.
Proof.
  intros Hne Hfind Hout. unfold extractLedger. rewrite Hfind. cbn [bind].
  rewrite readDay_out_of_range by assumption. reflexivity.
Qed.

Lemma extractLedger_truncated_witness :
  extractLedger "ResourcesStatisticContainer"
    ["foodByFarms"; "foodByFishers"; "foodByBerrypickers"; "wood";
     "treesCutted"; "treesPlanted"; "stone"; "iron"; "woodConsuming"; "ironConsuming"]
    truncated_resources_buffer
  = Throw RangeError.
Proof.
  refine (@extractLedger_truncated "ResourcesStatisticContainer"
            ["foodByFarms"; "foodByFishers"; "foodByBerrypickers"; "wood";
             "treesCutted"; "treesPlanted"; "stone"; "iron";
             "woodConsuming"; "ironConsuming"] truncated_resources_buffer
            {| className := "ResourcesStatisticContainer"; memberCount := 10;
               memberNames :=
                 ["foodByFarms"; "foodByFishers"; "foodByBerrypickers"; "wood";
                  "treesCutted"; "treesPlanted"; "stone"; "iron";
                  "woodConsuming"; "ironConsuming"];
               typeTags := repeat (Some x00) 10; primTypes := repeat (Some x08) 10;
               dataOffset := 174; objectId := 7 |} _ _ _).
  - discriminate.
  - vm_compute. reflexivity.
  - vm_compute. intros [_ H]. apply H. reflexivity.
Defined.

(** ** Waves, further *)

Lemma terminates_decode_in_order (fields : list (string * option byte))
    (data : list byte) :
  forall off, terminates (decode_in_order fields data off).
Proof.
  induction fields as [|[name prim] fields IH]; intros off.
  - discriminate.
  - cbn [decode_in_order]. apply terminates_bind; [apply terminates_readPrimitive|].
    intros r _. apply terminates_bind; [apply IH|]. intros; discriminate.
Qed.

(** With keys that are no array indices the wave loop is the field loop
    of the achievements. *)
Lemma set_any_property_plain {A} (o : object A) (key : string) (v : A) :
  array_index key = None -> set_any_property o key v = set_property o key v.
Proof.
  intros H. unfold set_any_property. rewrite H. destruct (property o key); reflexivity.
Qed.

Lemma readWaveFields_loop_plain (n : nat) (cdef : ClassDefinition) (data : list byte) :
  Forall (fun key => array_index key = None) (memberNames cdef) ->
  forall i off wave,
    readWaveFields_loop n cdef data i off wave
    = readFields n (memberNames cdef) cdef data i off wave.
Proof.
  intros Hplain.
  assert (Hnth : forall i, array_index (nth i (memberNames cdef) "undefined") = None).
  { intros i. destruct (Nat.lt_ge_cases i (List.length (memberNames cdef))) as [Hi|Hi].
    - rewrite Forall_forall in Hplain. apply Hplain, nth_In, Hi.
    - rewrite nth_overflow by exact Hi. reflexivity. }
  induction n as [|n IH]; intros i off wave; cbn [readWaveFields_loop readFields];
    [reflexivity|].
  destruct (negb _); [reflexivity|].
  destruct (readPrimitive data off _) as [r| |]; cbn [bind]; try reflexivity.
  rewrite set_any_property_plain by apply Hnth. apply IH.
Qed.

(** X18: one wave instance.  For a located definition whose member names
    are distinct and hold neither [__proto__] nor an array index,
    [readWaveFields] at an offset decodes in order the fields of the
    longest prefix of [TAG_PRIMITIVE] tags, as the achievements decoder
    does; when a read of that prefix fails it returns [null] and throws
    nothing. *)
Theorem readWaveFields_decode (data : list byte) (cn : string)
    (expectedFields : list string) (cdef : ClassDefinition) (off : Z) :
  findClassDefinition data cn expectedFields 0 = Ok (Some cdef) ->
  NoDup (memberNames cdef) -> ~ In "__proto__" (memberNames cdef) ->
  Forall (fun key => array_index key = None) (memberNames cdef) ->
  readWaveFields data off cdef
  = match decode_in_order
            (firstn (primitive_prefix (typeTags cdef))
                    (combine (memberNames cdef) (primTypes cdef)))
            data off with
    | Ok fields => Ok (Some fields)
    | _ => Ok None
    end.
Proof.
  intros Hfind Hnd Hproto Hplain.
  destruct (findClassDefinition_shape _ _ _ _ Hfind) as [Hn [Ht Hp]].
  unfold readWaveFields.
  rewrite (@readWaveFields_loop_plain (List.length (memberNames cdef)) cdef data Hplain).
  pose proof (@readFields_decode (memberNames cdef) (typeTags cdef) (primTypes cdef)
                [] [] [] cdef data off [] eq_refl eq_refl eq_refl eq_refl
                ltac:(congruence) ltac:(congruence) Hnd Hproto) as Hrf.
  cbn [app] in Hrf. change (List.length (@nil string)) with O in Hrf.
  rewrite Hrf.
  assert (Hterm := @terminates_decode_in_order
                     (firstn (primitive_prefix (typeTags cdef))
                             (combine (memberNames cdef) (primTypes cdef))) data off).
  destruct (decode_in_order _ data off); cbn; try reflexivity. contradiction.
Qed.

Lemma readWaveFields_decode_witness :
  readWaveFields waves_buffer 102
    {| className := "WaveHolderSaveData"; memberCount := 6;
       memberNames := waves_expected; typeTags := repeat (Some x00) 6;
       primTypes := [Some x08; Some x08; Some x01; Some x01; Some x01; Some x01];
       dataOffset := 102; objectId := 9 |}
  = Ok (Some [("referenceId", Number (of_Z 100)); ("waveId", Number (of_Z 1));
              ("mapped", Boolean true); ("fullySpawned", Boolean true);
              ("waveDestroyed", Boolean true); ("major", Boolean false)]).
Proof.
  refine (eq_trans
            (@readWaveFields_decode waves_buffer "WaveHolderSaveData" waves_expected
               {| className := "WaveHolderSaveData"; memberCount := 6;
                  memberNames := waves_expected; typeTags := repeat (Some x00) 6;
                  primTypes := [Some x08; Some x08; Some x01; Some x01; Some x01; Some x01];
                  dataOffset := 102; objectId := 9 |} 102 _ _ _ _) _).
  - vm_compute. reflexivity.
  - replace waves_expected with (nodup string_dec waves_expected)
      by (vm_compute; reflexivity).
    apply NoDup_nodup.
  - cbn. intros H. repeat (destruct H as [H|H]; [discriminate H|]). exact H.
  - repeat constructor.
  - vm_compute. reflexivity.
Defined.

(** Member names that are array indices: the object lists them first, in
    ascending order, whatever the order of the reads. *)
Example readWaveFields_index_keys :
  readWaveFields [x07; x08; x09] 0
    {| className := "WaveHolderSaveData"; memberCount := 3;
       memberNames := ["referenceId"; "2"; "1"]; typeTags := repeat (Some x00) 3;
       primTypes := repeat (Some x02) 3; dataOffset := 0; objectId := 0 |}
  = Ok (Some [("1", Number (of_Z 9)); ("2", Number (of_Z 8));
              ("referenceId", Number (of_Z 7))]).
Proof. vm_compute. reflexivity. Qed.

Lemma filter_count (f : object jsval -> bool) (l : list (object jsval)) :
  0 <= count (filter f l) <= count l.
Proof.
  unfold count. assert (H := filter_length_le f l). lia.
Qed.

(** X19: the numbers of a wave summary.  In every summary that
    [extractWaves] returns, [total] is the number of the details and is 1
    or more, and [destroyed] and [majorWaves] lie between 0 and [total]. *)
Theorem extractWaves_counts (data : list byte) (s : Waves) :
  extractWaves data = Ok (Some s) ->
  total s = Z.of_nat (List.length (details s)) /\
  1 <= total s /\
  0 <= destroyed s <= total s /\
  0 <= majorWaves s <= total s.
Proof.
  unfold extractWaves. intros H.
  destruct (findClassDefinition data "WaveHolderSaveData" waves_expected 0)
    as [[cdef|]| |]; try discriminate.
  cbn [bind] in H.
  destruct (collectWaves data cdef) as [waves| |]; try discriminate.
  cbn [bind] in H.
  destruct (Z.eqb_spec (count waves) 0) as [|Hne]; [discriminate|].
  injection H as <-. cbn [total destroyed majorWaves details].
  split; [reflexivity|].
  split; [unfold count in *; lia|].
  split; apply filter_count.
Qed.

Lemma extractWaves_counts_witness :
  2 = Z.of_nat (List.length (A := object jsval)
                  [[("referenceId", Number (of_Z 100)); ("waveId", Number (of_Z 1));
                    ("mapped", Boolean true); ("fullySpawned", Boolean true);
                    ("waveDestroyed", Boolean true); ("major", Boolean false)];
                   [("referenceId", Number (of_Z 101)); ("waveId", Number (of_Z 2));
                    ("mapped", Boolean true); ("fullySpawned", Boolean true);
                    ("waveDestroyed", Boolean false); ("major", Boolean true)]]) /\
  1 <= 2 /\ 0 <= 1 <= 2 /\ 0 <= 1 <= 2.
Proof.
  refine (@extractWaves_counts waves_buffer
            {| total := 2; destroyed := 1; majorWaves := 1;
               details :=
                 [[("referenceId", Number (of_Z 100)); ("waveId", Number (of_Z 1));
                   ("mapped", Boolean true); ("fullySpawned", Boolean true);
                   ("waveDestroyed", Boolean true); ("major", Boolean false)];
                  [("referenceId", Number (of_Z 101)); ("waveId", Number (of_Z 2));
                   ("mapped", Boolean true); ("fullySpawned", Boolean true);
                   ("waveDestroyed", Boolean false); ("major", Boolean true)]] |} _).
  vm_compute. reflexivity.
Defined.

(** ** Orchestrator, further *)

Lemma prefix_append (tag msg : string) : String.prefix tag (tag ++ msg) = true.
Proof.
  induction tag as [|c tag IH]; cbn; [destruct msg; reflexivity|].
  destruct (ascii_dec c c); [exact IH|contradiction].
Qed.

Lemma tagged_error_tagged {A} (tags : list string) (tag : string)
    (decoder : outcome (option A)) :
  In tag tags ->
  Forall (fun e => exists t, In t tags /\ String.prefix t e = true)
         (tagged_error tag decoder).
Proof.
  intros Hin. unfold tagged_error. destruct decoder as [o|e|]; constructor; [|constructor].
  exists tag. split; [exact Hin|apply prefix_append].
Qed.

Lemma tagged_error_length {A} (tag : string) (decoder : outcome (option A)) :
  (List.length (tagged_error tag decoder) <= 1)%nat.
Proof. unfold tagged_error. destruct decoder; cbn; lia. Qed.

(** X20: the errors of an extraction.  In every report that
    [parseSaveFiles] returns there is one profile with one save entry;
    when the entry has errors there are between one and six of them, each
    starts with the name of one of the six decoders that can throw, and
    none is an error of the wave decoder, which never throws. *)
Theorem parseSaveFiles_errors (now : Z) (saveFile datFile : File) (report : Report) :
  parseSaveFiles now saveFile datFile = Ok report ->
  exists entry,
    map saves (profiles report) = [[entry]] /\
    forall errs,
      errors entry = Some errs ->
      (1 <= List.length errs <= 6)%nat /\
      Forall (fun e => exists tag,
                  In tag ["header: "; "enemiesKilled: "; "sessionTime: ";
                          "resources: "; "undeadResources: "; "achievements: "] /\
                  String.prefix tag e = true) errs.
Proof.
  intros Hreport.
  destruct (arrayBuffer saveFile) as [saveData|e] eqn:Hsave;
    [|unfold parseSaveFiles in Hreport; rewrite Hsave in Hreport; discriminate Hreport].
  destruct (arrayBuffer datFile) as [datData|e] eqn:Hdat;
    [|unfold parseSaveFiles in Hreport; rewrite Hsave, Hdat in Hreport;
      discriminate Hreport].
  rewrite (parseSaveFiles_assembled now _ _ Hsave Hdat) in Hreport.
  destruct (toISOString (lastModified saveFile)) as [modified| |];
    try discriminate Hreport.
  destruct (toISOString now) as [extracted| |]; try discriminate Hreport.
  cbn [bind] in Hreport. injection Hreport as <-.
  eexists. cbn [profiles saves map]. split; [reflexivity|]. cbn [errors].
  assert (Hw : tagged_error "waves: " (extractWaves saveData) = []).
  { unfold tagged_error.
    destruct (extractWaves_returns_or_null saveData) as [->|[s ->]]; reflexivity. }
  rewrite Hw, app_nil_r.
  set (tags := ["header: "; "enemiesKilled: "; "sessionTime: ";
                "resources: "; "undeadResources: "; "achievements: "]).
  set (all := tagged_error "header: " (extractHeader datData)
              ++ tagged_error "enemiesKilled: " (extractKilledEnemies saveData)
              ++ tagged_error "sessionTime: " (extractSessionTime saveData)
              ++ tagged_error "resources: " (extractResources saveData)
              ++ tagged_error "undeadResources: " (extractUndeadResources saveData)
              ++ tagged_error "achievements: " (extractAchievements saveData)).
  assert (Hlen : (List.length all <= 6)%nat).
  { subst all. rewrite !length_app.
    assert (H1 := tagged_error_length "header: " (extractHeader datData)).
    assert (H2 := tagged_error_length "enemiesKilled: " (extractKilledEnemies saveData)).
    assert (H3 := tagged_error_length "sessionTime: " (extractSessionTime saveData)).
    assert (H4 := tagged_error_length "resources: " (extractResources saveData)).
    assert (H5 := tagged_error_length "undeadResources: "
                    (extractUndeadResources saveData)).
    assert (H6 := tagged_error_length "achievements: " (extractAchievements saveData)).
    lia. }
  assert (Htag : Forall (fun e => exists tag, In tag tags /\ String.prefix tag e = true)
                        all).
  { subst all. repeat (apply Forall_app; split);
      apply tagged_error_tagged; subst tags; cbn [In]; tauto. }
  intros errs Herrs.
  destruct all as [|e all']; [discriminate|]. injection Herrs as <-.
  split; [cbn [List.length] in *; lia|exact Htag].
Qed.

Lemma parseSaveFiles_errors_witness :
  exists report entry,
    parseSaveFiles 0 (sample_file kill_truncated_buffer) (sample_file []) = Ok report /\
    map saves (profiles report) = [[entry]] /\
    forall errs,
      errors entry = Some errs ->
      (1 <= List.length errs <= 6)%nat /\
      Forall (fun e => exists tag,
                  In tag ["header: "; "enemiesKilled: "; "sessionTime: ";
                          "resources: "; "undeadResources: "; "achievements: "] /\
                  String.prefix tag e = true) errs.
Proof.
  assert (E : { report | parseSaveFiles 0 (sample_file kill_truncated_buffer)
                           (sample_file []) = Ok report })
    by (eexists; vm_compute; reflexivity).
  destruct E as [report E].
  destruct (parseSaveFiles_errors _ _ _ E) as [entry [Hs He]].
  exists report, entry. split; [exact E|]. split; [exact Hs|exact He].
Defined.

(** ** Reading back a written definition *)

Lemma get_middle (data pre rest : list byte) (b : byte) :
  data = pre ++ b :: rest -> get data (len pre) = Some b.
Proof.
  intros ->. assert (H := len_nonneg pre). unfold get.
  destruct (Z.ltb_spec (len pre) 0); [lia|].
  unfold len. rewrite Nat2Z.id, nth_error_app2, Nat.sub_diag by lia. reflexivity.
Qed.

Lemma le_value_le32_unsigned (v : Z) : 0 <= v < 2 ^ 32 -> le_value (le32 v) = v.
Proof. intros H. rewrite le_value_le32. apply Z.mod_small. exact H. Qed.

Lemma getUint32_le32 (data pre post : list byte) (v : Z) :
  data = pre ++ le32 v ++ post -> 0 <= v < 2 ^ 32 ->
  getUint32 data (len pre) = Ok v.
Proof.
  intros -> Hv. unfold getUint32.
  assert (Hp := len_nonneg pre). assert (Hq := len_nonneg post).
  rewrite view_bytes_in_range.
  - rewrite skipn_len_app. change (firstn 4 (le32 v ++ post)) with (le32 v).
    cbn [bind]. rewrite le_value_le32_unsigned by exact Hv. reflexivity.
  - exact Hp.
  - rewrite !len_app. change (len (le32 v)) with 4. lia.
Qed.

Lemma parseBfString_written (data pre post : list byte) (s : string) :
  data = pre ++ writeBfString s ++ post -> writable s ->
  parseBfString data (len pre)
  = Ok {| value := s; offset := len pre + len (writeBfString s) |}.
Proof.
  intros -> [Hascii Hlen]. unfold parseBfString, writeBfString.
  rewrite <- app_assoc.
  rewrite parse7BitInt_write7BitInt_aux
    by (split; [apply len_nonneg|exact Hlen]).
  cbn [bind value offset].
  set (w := write7BitInt (len (TextEncoder_encode s))).
  replace (pre ++ w ++ TextEncoder_encode s ++ post)
    with ((pre ++ w) ++ TextEncoder_encode s ++ post)
    by (rewrite <- app_assoc; reflexivity).
  rewrite <- len_app, subarray_middle, TextDecoder_decode_encode by assumption.
  rewrite !len_app. do 2 f_equal. lia.
Qed.

Lemma readMemberNames_written (names : list string) :
  forall data pre post acc,
    data = pre ++ flat_map writeBfString names ++ post ->
    Forall writable names ->
    readMemberNames (List.length names) data (len pre) acc
    = Ok (acc ++ names, len pre + len (flat_map writeBfString names)).
Proof.
  induction names as [|name names IH]; intros data pre post acc Hdata Hall;
    cbn [List.length readMemberNames flat_map].
  - rewrite app_nil_r. change (len []) with 0. do 2 f_equal. lia.
  - inversion Hall as [|? ? Hname Hrest]; subst.
    rewrite (@parseBfString_written _ pre (flat_map writeBfString names ++ post) name)
      by (assumption || (cbn [flat_map]; rewrite <- app_assoc; reflexivity)).
    cbn [bind value offset]. rewrite <- len_app.
    rewrite (IH _ (pre ++ writeBfString name) post);
      [| cbn [flat_map]; rewrite <- !app_assoc; reflexivity | exact Hrest].
    rewrite <- app_assoc, !len_app. do 2 f_equal. lia.
Qed.

Lemma readTypeTags_written (tags : list byte) :
  forall data pre post acc,
    data = pre ++ tags ++ post ->
    readTypeTags (List.length tags) data (len pre) acc
    = (acc ++ map Some tags, len pre + len tags).
Proof.
  induction tags as [|t tags IH]; intros data pre post acc Hdata;
    cbn [List.length readTypeTags map].
  - rewrite app_nil_r. change (len []) with 0. f_equal. lia.
  - rewrite (@get_middle data pre (tags ++ post) t) by exact Hdata.
    replace (len pre + 1) with (len (pre ++ [t])) by (rewrite len_app; reflexivity).
    rewrite (IH data (pre ++ [t]) post)
      by (rewrite Hdata, <- !app_assoc; reflexivity).
    rewrite <- app_assoc, len_app, !len_cons. f_equal.
    change (len []) with 0. lia.
Qed.

Lemma readTypeInfo_written (types : list field_type) :
  forall data pre post acc,
    data = pre ++ flat_map type_info types ++ post ->
    Forall (fun t => writable (type_name t)) types ->
    readTypeInfo (map (fun t => Some (tag_byte t)) types) data (len pre) acc
    = Ok (acc ++ map prim_slot types, len pre + len (flat_map type_info types)).
Proof.
  induction types as [|t types IH]; intros data pre post acc Hdata Hall;
    subst data; cbn [map readTypeInfo flat_map].
  - rewrite app_nil_r. change (len []) with 0. do 2 f_equal. lia.
  - inversion Hall as [|? ? Hname Hrest]; subst.
    assert (Hstep : forall info slot,
               readTypeInfo (map (fun t => Some (tag_byte t)) types)
                 (pre ++ (info ++ flat_map type_info types) ++ post)
                 (len pre + len info) (acc ++ [slot])
               = Ok (acc ++ slot :: map prim_slot types,
                     len pre + len (info ++ flat_map type_info types))).
    { intros info slot. rewrite <- len_app.
      rewrite (IH _ (pre ++ info) post)
        by (assumption || (repeat rewrite <- app_assoc; reflexivity)).
      rewrite <- app_assoc, !len_app. do 2 f_equal. lia. }
    destruct t as [sub| |name|name lib|sub];
      cbn [tag_byte type_info prim_slot type_name] in *.
    + change (tag_is (Some x00) TAG_PRIMITIVE) with true. cbv iota.
      rewrite (@get_middle _ pre (flat_map type_info types ++ post) sub)
        by (repeat rewrite <- app_assoc; reflexivity).
      exact (Hstep [sub] (Some sub)).
    + change (tag_is (Some x01) TAG_PRIMITIVE) with false.
      change (tag_is (Some x01) TAG_CLASS) with false.
      change (tag_is (Some x01) TAG_SYSTEM_CLASS) with false.
      change (tag_is (Some x01) TAG_PRIMITIVE_ARRAY) with false. cbv iota.
      specialize (Hstep [] (Some x00)). change (len []) with 0 in Hstep.
      rewrite Z.add_0_r in Hstep. exact Hstep.
    + change (tag_is (Some x03) TAG_PRIMITIVE) with false.
      change (tag_is (Some x03) TAG_CLASS) with false.
      change (tag_is (Some x03) TAG_SYSTEM_CLASS) with true. cbv iota.
      rewrite (@parseBfString_written _ pre (flat_map type_info types ++ post) name)
        by (exact Hname || (repeat rewrite <- app_assoc; reflexivity)).
      cbn [bind offset]. exact (Hstep (writeBfString name) (Some x00)).
    + change (tag_is (Some x04) TAG_PRIMITIVE) with false.
      change (tag_is (Some x04) TAG_CLASS) with true. cbv iota.
      rewrite (@parseBfString_written _ pre
                 (le32 lib ++ flat_map type_info types ++ post) name)
        by (exact Hname || (repeat rewrite <- app_assoc; reflexivity)).
      cbn [bind offset].
      replace (len pre + len (writeBfString name) + 4)
        with (len pre + len (writeBfString name ++ le32 lib))
        by (rewrite len_app; change (len (le32 lib)) with 4; lia).
      exact (Hstep (writeBfString name ++ le32 lib) (Some x00)).
    + change (tag_is (Some x07) TAG_PRIMITIVE) with false.
      change (tag_is (Some x07) TAG_CLASS) with false.
      change (tag_is (Some x07) TAG_SYSTEM_CLASS) with false.
      change (tag_is (Some x07) TAG_PRIMITIVE_ARRAY) with true. cbv iota.
      rewrite (@get_middle _ pre (flat_map type_info types ++ post) sub)
        by (repeat rewrite <- app_assoc; reflexivity).
      exact (Hstep [sub] (Some sub)).
Qed.

Lemma write7BitInt_single (v : Z) : 0 <= v < 128 -> write7BitInt v = [byte_of_Z v].
Proof.
  intros H. unfold write7BitInt. cbn [write7BitInt_groups].
  destruct (Z.ltb_spec v 128); [reflexivity|lia].
Qed.

(** The back-walk finds the id of a written record in its first round. *)
Lemma findObjectId_written (data pre rest : list byte) (id : Z) (cn : string) :
  data = pre ++ le32 id ++ writeBfString cn ++ rest ->
  is_ascii cn -> len (TextEncoder_encode cn) < 128 -> 0 <= id < 2 ^ 32 ->
  findObjectId data cn (len pre + 5) = Ok id.
Proof.
  intros Hdata Hascii Hlen Hid.
  assert (Hp := len_nonneg pre). assert (Hl := len_nonneg (TextEncoder_encode cn)).
  unfold writeBfString in Hdata. rewrite write7BitInt_single in Hdata by lia.
  remember (TextEncoder_encode cn) as enc eqn:Eenc.
  remember (byte_of_Z (len enc)) as b eqn:Eb.
  assert (Hb : u8 b = len enc)
    by (rewrite Eb, u8_byte_of_Z; apply Z.mod_small; lia).
  assert (Hd1 : data = (pre ++ le32 id) ++ b :: enc ++ rest)
    by (rewrite Hdata; repeat rewrite <- app_assoc; reflexivity).
  assert (Hd2 : data = (pre ++ le32 id ++ [b]) ++ enc ++ rest)
    by (rewrite Hdata; repeat rewrite <- app_assoc; reflexivity).
  assert (Hd0 : data = pre ++ le32 id ++ b :: enc ++ rest)
    by (rewrite Hdata; repeat rewrite <- app_assoc; reflexivity).
  assert (Hlen1 : len (pre ++ le32 id) = len pre + 4)
    by (rewrite len_app; reflexivity).
  assert (Hlen2 : len (pre ++ le32 id ++ [b]) = len pre + 5)
    by (rewrite !len_app; reflexivity).
  assert (Hfit : len pre + 5 + len enc <= len data).
  { rewrite Hd2 at 1. rewrite len_app, Hlen2, len_app. assert (H := len_nonneg rest). lia. }
  assert (Hget : get data (len pre + 5 - 1) = Some b).
  { replace (len pre + 5 - 1) with (len (pre ++ le32 id)) by lia.
    eapply get_middle. exact Hd1. }
  unfold findObjectId.
  replace (Z.to_nat (len pre + 5 - 1 - Z.max (len pre + 5 - 50) 0 + 1))
    with (S (Z.to_nat (len pre + 5 - 1 - Z.max (len pre + 5 - 50) 0))) by lia.
  cbn [backWalk]. unfold backWalk_round.
  rewrite (parse7BitInt_single _ _ Hget) by lia. cbn [bind value offset].
  replace (len pre + 5 - 1 + 1) with (len pre + 5) by lia. rewrite Hb.
  destruct (Z.leb_spec (len pre + 5 + len enc) (len data)); [|lia].
  replace (subarray data (len pre + 5) (len pre + 5 + len enc)) with enc
    by (rewrite Hd2, <- Hlen2, subarray_middle; reflexivity).
  replace (TextDecoder_decode enc) with cn
    by (rewrite Eenc, TextDecoder_decode_encode by exact Hascii; reflexivity).
  rewrite endsWith_refl.
  replace (len pre + 5 - 1 - 4) with (len pre) by lia.
  rewrite (@getUint32_le32 data pre (b :: enc ++ rest) id Hd0 Hid). reflexivity.
Qed.

(** The [try] block on the name of a written record, up to the object
    id. *)
Lemma candidate_written_at (data P post : list byte) (cn : string)
    (fields : list (string * field_type)) (lib : Z) :
  data = P ++ TextEncoder_encode cn
           ++ le32 (Z.of_nat (List.length fields))
           ++ flat_map writeBfString (map fst fields)
           ++ map tag_byte (map snd fields)
           ++ flat_map type_info (map snd fields)
           ++ le32 lib ++ post ->
  fields <> [] -> Z.of_nat (List.length fields) < 2 ^ 32 ->
  Forall (fun f => writable (fst f) /\ writable (type_name (snd f))) fields ->
  candidate data cn (map fst fields) (len P)
  = (id <- findObjectId data cn (len P) ;;
     Ok (Some {| className := cn;
                 memberCount := Z.of_nat (List.length fields);
                 memberNames := map fst fields;
                 typeTags := map (fun f => Some (tag_byte (snd f))) fields;
                 primTypes := map (fun f => prim_slot (snd f)) fields;
                 dataOffset :=
                   len P + len (TextEncoder_encode cn)
                   + 4
                   + len (flat_map writeBfString (map fst fields))
                   + len (map tag_byte (map snd fields))
                   + len (flat_map type_info (map snd fields))
                   + 4;
                 objectId := id |})).
Proof.
  intros Hdata Hne Hn Hall.
  assert (Hnames : Forall writable (map fst fields)).
  { apply Forall_map. revert Hall. apply Forall_impl. intros f [H _]. exact H. }
  assert (Htypes : Forall (fun t => writable (type_name t)) (map snd fields)).
  { apply Forall_map. revert Hall. apply Forall_impl. intros f [_ H]. exact H. }
  assert (Htags : map (fun f => Some (tag_byte (snd f))) fields
                  = map Some (map tag_byte (map snd fields)))
    by (rewrite !map_map; reflexivity).
  assert (Hprims : map (fun f => prim_slot (snd f)) fields
                   = map prim_slot (map snd fields))
    by (rewrite map_map; reflexivity).
  assert (Hl1 : List.length (map fst fields) = List.length fields) by apply length_map.
  assert (Hl2 : List.length (map tag_byte (map snd fields)) = List.length fields)
    by (rewrite !length_map; reflexivity).
  assert (Hhd : exists name1 ns', map fst fields = name1 :: ns')
    by (destruct fields as [|[a b] l]; [contradiction|cbn; eauto]).
  rewrite Htags, Hprims. clear Htags Hprims.
  remember (map fst fields) as ns eqn:Ens.
  remember (map snd fields) as ts eqn:Ets.
  remember (TextEncoder_encode cn) as enc eqn:Eenc.
  remember (Z.of_nat (List.length fields)) as n eqn:En.
  remember (flat_map writeBfString ns) as names eqn:Enames.
  remember (map tag_byte ts) as tags eqn:Etags.
  remember (flat_map type_info ts) as info eqn:Einfo.
  assert (Hd1 : data = (P ++ enc) ++ le32 n ++ names ++ tags ++ info ++ le32 lib ++ post)
    by (rewrite Hdata; repeat rewrite <- app_assoc; reflexivity).
  assert (Hd2 : data = ((P ++ enc) ++ le32 n)
                       ++ names ++ tags ++ info ++ le32 lib ++ post)
    by (rewrite Hdata; repeat rewrite <- app_assoc; reflexivity).
  assert (Hd3 : data = (((P ++ enc) ++ le32 n) ++ names)
                       ++ tags ++ info ++ le32 lib ++ post)
    by (rewrite Hdata; repeat rewrite <- app_assoc; reflexivity).
  assert (Hd4 : data = ((((P ++ enc) ++ le32 n) ++ names) ++ tags)
                       ++ info ++ le32 lib ++ post)
    by (rewrite Hdata; repeat rewrite <- app_assoc; reflexivity).
  assert (Hnn : 0 <= n) by lia.
  unfold candidate. rewrite <- Eenc.
  replace (len P + len enc) with (len (P ++ enc)) by apply len_app.
  rewrite (@getUint32_le32 data (P ++ enc) (names ++ tags ++ info ++ le32 lib ++ post) n Hd1)
    by lia.
  cbn [bind].
  rewrite Hl1, <- En, Z.eqb_refl. cbn [negb].
  replace (len (P ++ enc) + 4) with (len ((P ++ enc) ++ le32 n))
    by (rewrite (len_app (P ++ enc)); reflexivity).
  destruct Hhd as [name1 [ns' Hns]].
  assert (Hname1 : writable name1) by (rewrite Hns in Hnames; inversion Hnames; assumption).
  rewrite (@parseBfString_written data ((P ++ enc) ++ le32 n)
             (flat_map writeBfString ns' ++ tags ++ info ++ le32 lib ++ post) name1)
    by (exact Hname1
        || (rewrite Hd2, Enames, Hns; cbn [flat_map];
            repeat rewrite <- app_assoc; reflexivity)).
  cbn [bind value offset].
  replace (same_string name1 (nth_error ns 0)) with true
    by (rewrite Hns; cbn [nth_error same_string]; symmetry; apply String.eqb_refl).
  cbn [negb].
  assert (Hm := @readMemberNames_written ns data ((P ++ enc) ++ le32 n)
                  (tags ++ info ++ le32 lib ++ post) []).
  rewrite <- Enames, Hl1 in Hm. specialize (Hm Hd2 Hnames).
  replace (Z.to_nat n) with (List.length fields) by lia.
  rewrite Hm. cbn [bind app]. rewrite <- len_app.
  assert (Ht := @readTypeTags_written tags data (((P ++ enc) ++ le32 n) ++ names)
                  (info ++ le32 lib ++ post) [] Hd3).
  rewrite Hl2 in Ht. rewrite Ht. cbn [app]. rewrite <- len_app.
  assert (Hi := @readTypeInfo_written ts data ((((P ++ enc) ++ le32 n) ++ names) ++ tags)
                  (le32 lib ++ post) []).
  rewrite <- Einfo in Hi. specialize (Hi Hd4 Htypes).
  replace (map Some tags) with (map (fun t => Some (tag_byte t)) ts)
    by (rewrite Etags, map_map; reflexivity).
  rewrite Hi. cbn [bind app].
  replace (len ((((P ++ enc) ++ le32 n) ++ names) ++ tags) + len info + 4)
    with (len P + len enc + 4 + len names + len tags + len info + 4)
    by (rewrite !len_app; change (len (le32 n)) with 4; lia).
  reflexivity.
Qed.

(** The finder returns what the [try] block makes of the first occurrence
    of the name, when the block accepts it. *)
Lemma findClassDefinition_at (data : list byte) (cn : string)
    (expectedFields : list string) (start p : Z) (cdef : ClassDefinition) :
  0 <= start <= p ->
  occurs_at data (TextEncoder_encode cn) p ->
  candidate data cn expectedFields p = Ok (Some cdef) ->
  (forall q, start <= q < p -> ~ occurs_at data (TextEncoder_encode cn) q) ->
  findClassDefinition data cn expectedFields start = Ok (Some cdef).
Proof.
  intros Hp Hocc Hc Hnone. unfold findClassDefinition.
  assert (H := @findClassDefinition_loop_first
                 (S (Z.to_nat (len data + 1 - start))) data cn expectedFields start
                 ltac:(lia) ltac:(lia)).
  assert (Hm : matches_at data (TextEncoder_encode cn) p = true)
    by (apply matches_at_occurs; [lia|exact Hocc]).
  destruct (findClassDefinition_loop _ data cn expectedFields start) as [[c|]| |].
  - destruct H as [p' [Hp' [Hm' [Hc' Hmin]]]].
    destruct (Z.lt_trichotomy p' p) as [Hlt|[Heq|Hgt]].
    + exfalso. apply (Hnone p'); [lia|]. apply matches_at_occurs; [lia|exact Hm'].
    + subst p'. rewrite Hc in Hc'. exact (eq_sym Hc').
    + exfalso. exact (Hmin p ltac:(lia) Hm cdef Hc).
  - exfalso. refine (H p _ Hm cdef Hc).
    split; [lia|]. exact (acceptable_in_range _ _ _ _ Hc).
  - contradiction.
  - contradiction.
Qed.

Lemma len_write_definition (id : Z) (cn : string)
    (fields : list (string * field_type)) (lib : Z) :
  len (write_definition id cn fields lib)
  = 4 + len (writeBfString cn) + 4
    + len (flat_map writeBfString (map fst fields))
    + len (map tag_byte (map snd fields))
    + len (flat_map type_info (map snd fields)) + 4.
Proof.
  unfold write_definition. rewrite !len_app.
  change (len (le32 id)) with 4. change (len (le32 lib)) with 4.
  change (len (le32 (Z.of_nat (List.length fields)))) with 4. lia.
Qed.

(** The [try] block on the name of a written record. *)
Lemma candidate_written (data pre post : list byte) (id : Z) (cn : string)
    (fields : list (string * field_type)) (lib : Z) :
  data = pre ++ write_definition id cn fields lib ++ post ->
  well_formed id cn fields ->
  occurs_at data (TextEncoder_encode cn) (len pre + 5) /\
  candidate data cn (map fst fields) (len pre + 5)
  = Ok (Some (written pre id cn fields lib)).
Proof.
  intros Hdata [Hid [Hne [Hn [Hascii [Hlen Hall]]]]].
  assert (Hp := len_nonneg pre). assert (Hl := len_nonneg (TextEncoder_encode cn)).
  set (b := byte_of_Z (len (TextEncoder_encode cn))).
  assert (Hw : writeBfString cn = [b] ++ TextEncoder_encode cn)
    by (unfold writeBfString; rewrite write7BitInt_single by lia; reflexivity).
  assert (Hlen5 : len (pre ++ le32 id ++ [b]) = len pre + 5)
    by (rewrite !len_app; reflexivity).
  assert (Hd : data = (pre ++ le32 id ++ [b]) ++ TextEncoder_encode cn
                      ++ le32 (Z.of_nat (List.length fields))
                      ++ flat_map writeBfString (map fst fields)
                      ++ map tag_byte (map snd fields)
                      ++ flat_map type_info (map snd fields)
                      ++ le32 lib ++ post).
  { rewrite Hdata. unfold write_definition. rewrite Hw.
    repeat rewrite <- app_assoc. reflexivity. }
  split.
  - split; [lia|]. rewrite <- Hlen5, Hd, skipn_len_app.
    rewrite firstn_app, Nat.sub_diag, firstn_all, app_nil_r. reflexivity.
  - rewrite <- Hlen5, (@candidate_written_at data (pre ++ le32 id ++ [b]) post cn fields lib
                         Hd Hne Hn Hall), Hlen5.
    rewrite (@findObjectId_written data pre
               (le32 (Z.of_nat (List.length fields))
                ++ flat_map writeBfString (map fst fields)
                ++ map tag_byte (map snd fields)
                ++ flat_map type_info (map snd fields)
                ++ le32 lib ++ post) id cn);
      [| rewrite Hdata; unfold write_definition; repeat rewrite <- app_assoc; reflexivity
       | exact Hascii | exact Hlen | exact Hid].
    cbn [bind]. unfold written. do 3 f_equal.
    rewrite len_write_definition, Hw, len_app. change (len [b]) with 1. lia.
Qed.

(** X21: a written class record is read back.  When the buffer holds a
    well-formed record (object id, length-prefixed class name, member
    count, member names, tags, type information, library id) and the class
    name does not occur before the record's own, [findClassDefinition]
    with the record's member names returns the record's object id, member
    names, tags and primitive subtypes, and the offset of the first byte
    after the record. *)
Theorem findClassDefinition_written (pre post : list byte) (id : Z) (cn : string)
    (fields : list (string * field_type)) (lib : Z) :
  well_formed id cn fields ->
  (forall q, 0 <= q < len pre + 5 ->
             ~ occurs_at (pre ++ write_definition id cn fields lib ++ post)
                 (TextEncoder_encode cn) q) ->
  findClassDefinition (pre ++ write_definition id cn fields lib ++ post) cn
    (map fst fields) 0
  = Ok (Some (written pre id cn fields lib)).
Proof.
  intros Hwf Hnone.
  destruct (@candidate_written _ pre post id cn fields lib eq_refl Hwf) as [Hocc Hc].
  assert (Hp := len_nonneg pre).
  exact (@findClassDefinition_at _ cn (map fst fields) 0 (len pre + 5) _
           ltac:(lia) Hocc Hc Hnone).
Qed.

Lemma findClassDefinition_written_witness :
  findClassDefinition written_kill_buffer "KilledEnemiesCounterSingleton" ["value"] 0
  = Ok (Some {| className := "KilledEnemiesCounterSingleton"; memberCount := 1;
                memberNames := ["value"]; typeTags := [Some x00];
                primTypes := [Some x08]; dataOffset := 51; objectId := 7 |}).
Proof.
  refine (@findClassDefinition_written [x05] (le32 42 ++ [x0b]) 7
            "KilledEnemiesCounterSingleton" kill_fields 2 _ _).
  - split; [lia|]. split; [discriminate|]. split; [reflexivity|].
    split; [repeat constructor|]. split; [reflexivity|].
    repeat constructor.
  - intros q Hq [_ H].
    assert (Hc : q = 0 \/ q = 1 \/ q = 2 \/ q = 3 \/ q = 4 \/ q = 5)
      by (change (len [x05]) with 1 in Hq; lia).
    destruct Hc as [->|[->|[->|[->|[->| ->]]]]]; vm_compute in H; discriminate H.
Defined.

(** X22: the kill counter of a written record.  When the buffer holds a
    well-formed [KilledEnemiesCounterSingleton] record with the one member
    [value], whatever type the record declares for it, and the class name
    does not occur earlier, [extractKilledEnemies] returns the 32-bit
    little-endian signed integer in the four bytes after the record. *)
Theorem extractKilledEnemies_written (pre post : list byte) (id : Z)
    (t : field_type) (lib v : Z) :
  well_formed id "KilledEnemiesCounterSingleton" [("value", t)] ->
  (forall q, 0 <= q < len pre + 5 ->
             ~ occurs_at (pre ++ write_definition id "KilledEnemiesCounterSingleton"
                                   [("value", t)] lib ++ le32 v ++ post)
                 (TextEncoder_encode "KilledEnemiesCounterSingleton") q) ->
  - 2 ^ 31 <= v < 2 ^ 31 ->
  extractKilledEnemies
    (pre ++ write_definition id "KilledEnemiesCounterSingleton" [("value", t)] lib
         ++ le32 v ++ post)
  = Ok (Some v).
Proof.
  intros Hwf Hnone Hv. unfold extractKilledEnemies.
  destruct (@candidate_written _ pre (le32 v ++ post) id
              "KilledEnemiesCounterSingleton" [("value", t)] lib eq_refl Hwf)
    as [Hocc Hc].
  assert (Hp := len_nonneg pre).
  rewrite (@findClassDefinition_at _ "KilledEnemiesCounterSingleton" ["value"] 0
             (len pre + 5) _ ltac:(lia) Hocc Hc Hnone).
  cbn [bind written dataOffset].
  rewrite <- len_app, app_assoc, getInt32_le32 by exact Hv. reflexivity.
Qed.

Lemma extractKilledEnemies_written_witness :
  extractKilledEnemies written_kill_buffer = Ok (Some 42).
Proof.
  refine (@extractKilledEnemies_written [x05] [x0b] 7 (FPrimitive x08) 2 42 _ _ _).
  - split; [lia|]. split; [discriminate|]. split; [reflexivity|].
    split; [repeat constructor|]. split; [reflexivity|].
    repeat constructor.
  - intros q Hq [_ H].
    assert (Hc : q = 0 \/ q = 1 \/ q = 2 \/ q = 3 \/ q = 4 \/ q = 5)
      by (change (len [x05]) with 1 in Hq; lia).
    destruct Hc as [->|[->|[->|[->|[->| ->]]]]]; vm_compute in H; discriminate H.
  - lia.
Defined.

(** X23: the header of a written record.  When the buffer holds a
    well-formed [ProfileSaveHeader] record with the seven expected member
    names, whatever their declared types, and the class name does not
    occur earlier, [extractHeader] returns as save version, mission id and
    difficulty id the three 32-bit little-endian signed integers in the
    twelve bytes after the record, with no mission name and the name of
    the difficulty or [Unknown(id)]. *)
Theorem extractHeader_written (pre post : list byte) (id : Z)
    (fields : list (string * field_type)) (lib sv mid did : Z) :
  map fst fields = header_expected ->
  well_formed id "ProfileSaveHeader" fields ->
  (forall q, 0 <= q < len pre + 5 ->
             ~ occurs_at (pre ++ write_definition id "ProfileSaveHeader" fields lib
                              ++ le32 sv ++ le32 mid ++ le32 did ++ post)
                 (TextEncoder_encode "ProfileSaveHeader") q) ->
  - 2 ^ 31 <= sv < 2 ^ 31 -> - 2 ^ 31 <= mid < 2 ^ 31 -> - 2 ^ 31 <= did < 2 ^ 31 ->
  extractHeader (pre ++ write_definition id "ProfileSaveHeader" fields lib
                     ++ le32 sv ++ le32 mid ++ le32 did ++ post)
  = Ok (Some {| saveVersion := sv; missionId := mid; missionIdName := None;
                difficultyId := did;
                difficultyName :=
                  or_else (DIFFICULTY_NAMES did)
                          ("Unknown(" ++ String_of_Z did ++ ")") |}).
Proof.
  intros Hnames Hwf Hnone Hsv Hmid Hdid. unfold extractHeader.
  destruct (@candidate_written _ pre (le32 sv ++ le32 mid ++ le32 did ++ post) id
              "ProfileSaveHeader" fields lib eq_refl Hwf) as [Hocc Hc].
  assert (Hp := len_nonneg pre).
  rewrite Hnames in Hc. unfold header_expected in Hc.
  rewrite (@findClassDefinition_at _ "ProfileSaveHeader" _ 0
             (len pre + 5) _ ltac:(lia) Hocc Hc Hnone).
  cbn [bind written dataOffset]. rewrite <- len_app.
  set (wd := write_definition id "ProfileSaveHeader" fields lib).
  replace (pre ++ wd ++ le32 sv ++ le32 mid ++ le32 did ++ post)
    with ((pre ++ wd) ++ le32 sv ++ le32 mid ++ le32 did ++ post)
    by (rewrite <- app_assoc; reflexivity).
  rewrite getInt32_le32 by exact Hsv. cbn [bind].
  replace (len (pre ++ wd) + 4) with (len ((pre ++ wd) ++ le32 sv))
    by (rewrite (len_app (pre ++ wd)); reflexivity).
  replace ((pre ++ wd) ++ le32 sv ++ le32 mid ++ le32 did ++ post)
    with (((pre ++ wd) ++ le32 sv) ++ le32 mid ++ le32 did ++ post)
    by (rewrite <- (app_assoc (pre ++ wd)); reflexivity).
  rewrite getInt32_le32 by exact Hmid. cbn [bind].
  replace (len ((pre ++ wd) ++ le32 sv) + 4) with (len (((pre ++ wd) ++ le32 sv) ++ le32 mid))
    by (rewrite (len_app ((pre ++ wd) ++ le32 sv)); reflexivity).
  replace (((pre ++ wd) ++ le32 sv) ++ le32 mid ++ le32 did ++ post)
    with ((((pre ++ wd) ++ le32 sv) ++ le32 mid) ++ le32 did ++ post)
    by (rewrite <- (app_assoc ((pre ++ wd) ++ le32 sv)); reflexivity).
  rewrite getInt32_le32 by exact Hdid. reflexivity.
Qed.

Lemma extractHeader_written_witness :
  extractHeader written_header_buffer
  = Ok (Some {| saveVersion := 3; missionId := 12; missionIdName := None;
                difficultyId := 2; difficultyName := "Hard" |}).
Proof.
  refine (@extractHeader_written [x05] [x0b] 1 header_fields 2 3 12 2 _ _ _ _ _ _).
  - reflexivity.
  - split; [lia|]. split; [discriminate|]. split; [reflexivity|].
    split; [repeat constructor|]. split; [reflexivity|].
    repeat constructor.
  - intros q Hq [_ H].
    assert (Hc : q = 0 \/ q = 1 \/ q = 2 \/ q = 3 \/ q = 4 \/ q = 5)
      by (change (len [x05]) with 1 in Hq; lia).
    destruct Hc as [->|[->|[->|[->|[->| ->]]]]]; vm_compute in H; discriminate H.
  - lia.
  - lia.
  - lia.
Defined.

(** ** Upload routing *)

(** X24: the order of a dropped pair does not matter.  [handleFiles] does
    the same with two files whichever comes first. *)
Theorem handleFiles_pair_order (a b : File) :
  handleFiles [a; b] = handleFiles [b; a].
Proof.
  unfold handleFiles. cbn [find].
  destruct (endsWith (name a) ".dat"), (endsWith (name a) ".json"),
           (endsWith (name b) ".dat"), (endsWith (name b) ".json"); reflexivity.
Qed.

(** X25: when the parser is reached.  [handleFiles] hands a save file and
    a companion to [handleSaveFiles] exactly when two files were dropped,
    the companion's name ends in [.dat] and the save file's name ends in
    neither [.dat] nor [.json]. *)
Theorem handleFiles_save_route (files : list File) (saveFile datFile : File) :
  handleFiles files = [hideError; handleSaveFiles saveFile datFile] <->
  (files = [saveFile; datFile] \/ files = [datFile; saveFile]) /\
  endsWith (name datFile) ".dat" = true /\
  endsWith (name saveFile) ".dat" = false /\
  endsWith (name saveFile) ".json" = false.
Proof.
  split.
  - destruct files as [|a [|b [|c files]]]; unfold handleFiles; cbn [find];
      try discriminate.
    + destruct (endsWith (name a) ".json"); discriminate.
    + destruct (endsWith (name a) ".dat") eqn:Ha, (endsWith (name a) ".json") eqn:Ha',
               (endsWith (name b) ".dat") eqn:Hb, (endsWith (name b) ".json") eqn:Hb';
        cbn [negb andb]; intros H; try discriminate H;
        injection H as <- <-; auto.
  - intros [[-> | ->] [Hd [Hs Hs']]]; unfold handleFiles; cbn [find];
      rewrite Hd, Hs, Hs'; reflexivity.
Qed.
